(** * Podcast analyzer: episode and digest processing pipeline

    A shallow embedding of the parts of the backend that the specification's
    testable properties talk about, followed by the theorems that settle
    them.  The embedding follows the Python sources file by file:

    - [Py]            the pieces of the Python runtime the code leans on
                      ([str.split], [str.join], [int], exceptions);
    - [FeedParser]    [app/services/feed_parser.py];
    - [Summarizer]    [app/services/summarizer.py];
    - [Models]        [app/models.py];
    - [Analysis]      [app/routers/analysis.py];
    - [EventLoop]     the task of [app/routers/analysis.py] as the event
                      loop runs it, suspended at its awaits;
    - [DigestService] [app/services/digest.py];
    - [Digests]       [app/routers/digests.py].

    Text is modelled as a list of characters with code points below 256
    (Latin-1); the character classes are the ones the interpreter uses on
    that range. *)

From Stdlib Require Import ZArith NArith List String Ascii Bool Lia DecimalString Permutation.
Import ListNotations.

Open Scope Z_scope.

(* ================================================================== *)
(** * The Python runtime *)
(* ================================================================== *)

Module Py.

(** A Python [str]: a sequence of code points. *)
Definition str := list ascii.

(** Literals are written [s"..."]. *)
Definition lit (x : string) : str := list_ascii_of_string x.
Notation "'s' x" := (lit x) (at level 1, x at level 0, only parsing).

Definition code (c : ascii) : N := N_of_ascii c.

Definition len (x : str) : Z := Z.of_nat (List.length x).

Definition str_eqb (a b : str) : bool :=
  if list_eq_dec ascii_dec a b then true else false.

(** [str.isspace] on one character; it is also the class the argument-less
    [str.split] and the regular-expression class [\s] use. *)
Definition is_space (c : ascii) : bool :=
  let n := code c in
  ((9 <=? n) && (n <=? 13) || (28 <=? n) && (n <=? 32)
   || (n =? 133) || (n =? 160))%N.

(** The characters [int] skips around a number: [is_space] without the
    four separators 28..31. *)
Definition is_int_space (c : ascii) : bool :=
  let n := code c in
  ((9 <=? n) && (n <=? 13) || (n =? 32) || (n =? 133) || (n =? 160))%N.

(** Decimal digits. *)
Definition is_decimal (c : ascii) : bool :=
  let n := code c in ((48 <=? n) && (n <=? 57))%N.

Definition digit_value (c : ascii) : Z := Z.of_N (code c) - 48.

(** The regular-expression class [\w]. *)
Definition is_word (c : ascii) : bool :=
  let n := code c in
  (is_decimal c
   || (65 <=? n) && (n <=? 90) || (n =? 95) || (97 <=? n) && (n <=? 122)
   || (n =? 170) || (n =? 178) || (n =? 179) || (n =? 181) || (n =? 185)
   || (n =? 186) || (188 <=? n) && (n <=? 190)
   || (192 <=? n) && (n <=? 214) || (216 <=? n) && (n <=? 246)
   || (248 <=? n))%N.

(** ** Exceptions *)

Inductive exn : Type :=
| ValueError (msg : str)
| JSONDecodeError (msg : str)
| AttributeError (msg : str)
| HTTPException (status_code : Z) (detail : str)
| Exception (msg : str).

(** [str(e)]. *)
Definition str_of_exn (e : exn) : str :=
  match e with
  | ValueError m | JSONDecodeError m | AttributeError m | Exception m => m
  | HTTPException _ d => d
  end.

(** [isinstance(e, ValueError)]: [JSONDecodeError] derives from it. *)
Definition is_ValueError (e : exn) : bool :=
  match e with
  | ValueError _ | JSONDecodeError _ => true
  | _ => false
  end.

(** The outcome of evaluating a Python expression or block. *)
Inductive result (A : Type) : Type :=
| Return (a : A)
| Raise (e : exn).
Arguments Return {A} a.
Arguments Raise {A} e.

Definition bind {A B} (m : result A) (k : A -> result B) : result B :=
  match m with
  | Return a => k a
  | Raise e => Raise e
  end.

Module ResultNotations.
Notation "x <- m ;; k" := (bind m (fun x => k))
  (at level 61, m at next level, right associativity).
End ResultNotations.
Import ResultNotations.

(** [try: body / except ValueError: handler]. *)
Definition try_except_ValueError {A} (body : result A) (handler : result A)
  : result A :=
  match body with
  | Return a => Return a
  | Raise e => if is_ValueError e then handler else Raise e
  end.

Fixpoint mapM {A B} (f : A -> result B) (l : list A) : result (list B) :=
  match l with
  | [] => Return []
  | a :: r => b <- f a ;; bs <- mapM f r ;; Return (b :: bs)
  end.

(** ** [str.split] and [str.join] *)

(** [x.split()]: maximal runs of non-space characters.  [cur] is the word
    being read, most recent character first. *)
Fixpoint split_ws_aux (cur : str) (x : str) : list str :=
  match x with
  | [] => match cur with [] => [] | _ => [rev cur] end
  | c :: r =>
      if is_space c
      then match cur with
           | [] => split_ws_aux [] r
           | _ => rev cur :: split_ws_aux [] r
           end
      else split_ws_aux (c :: cur) r
  end.

Definition split_ws (x : str) : list str := split_ws_aux [] x.

(** [x.split(sep)] for a one-character separator: empty fields are kept. *)
Fixpoint split_on_aux (sep : ascii) (cur : str) (x : str) : list str :=
  match x with
  | [] => [rev cur]
  | c :: r =>
      if Ascii.eqb c sep
      then rev cur :: split_on_aux sep [] r
      else split_on_aux sep (c :: cur) r
  end.

Definition split_on (sep : ascii) (x : str) : list str := split_on_aux sep [] x.

(** [sep.join(parts)]. *)
Fixpoint join (sep : str) (parts : list str) : str :=
  match parts with
  | [] => []
  | [p] => p
  | p :: rest => p ++ sep ++ join sep rest
  end.

(** [x[:n]]. *)
Definition slice_to (n : nat) (x : str) : str := firstn n x.

(** [x.startswith(prefix)]. *)
Fixpoint startswith (x prefix : str) {struct prefix} : bool :=
  match prefix, x with
  | [], _ => true
  | a :: p, b :: r => Ascii.eqb a b && startswith r p
  | _ :: _, [] => false
  end.

(** ** [int(x)] on a string, base ten *)

Fixpoint drop_while (p : ascii -> bool) (x : str) : str :=
  match x with
  | [] => []
  | c :: r => if p c then drop_while p r else x
  end.

Definition int_strip (x : str) : str :=
  rev (drop_while is_int_space (rev (drop_while is_int_space x))).

Inductive digit_state := AtStart | AfterDigit | AfterUnderscore.

(** Digits, with single underscores allowed between two digits.  Returns the
    value and the number of digits read. *)
Fixpoint int_digits (st : digit_state) (acc : Z) (n : N) (x : str)
  : option (Z * N) :=
  match x with
  | [] => match st with AfterDigit => Some (acc, n) | _ => None end
  | c :: r =>
      if is_decimal c then int_digits AfterDigit (10 * acc + digit_value c) (N.succ n) r
      else if Ascii.eqb c "_"
           then match st with
                | AfterDigit => int_digits AfterUnderscore acc n r
                | _ => None
                end
           else None
  end.

(** The interpreter's default limit on the digits of a decimal literal. *)
Definition int_max_str_digits : N := 4300.

Definition invalid_literal : exn :=
  ValueError (lit "invalid literal for int() with base 10").
Definition exceeds_limit : exn :=
  ValueError (lit "Exceeds the limit (4300 digits) for integer string conversion").

Definition int (x : str) : result Z :=
  let body := int_strip x in
  let '(sign, digits) :=
    match body with
    | "+"%char :: r => (1, r)
    | "-"%char :: r => (-1, r)
    | _ => (1, body)
    end in
  match int_digits AtStart 0 0%N digits with
  | None => Raise invalid_literal
  | Some (v, n) =>
      if (int_max_str_digits <? n)%N then Raise exceeds_limit
      else Return (sign * v)
  end.

(** [str(n)] for an integer. *)
Definition str_of_int (n : Z) : str :=
  list_ascii_of_string (DecimalString.NilZero.string_of_int (Z.to_int n)).

Set Warnings "-register-all".

(** ** JSON values, as [json.loads] returns them

    A [dict] keeps its items in insertion order; [JNum] carries the integers
    (a number with a fraction has no counterpart here, and no claim below
    depends on one). *)
Inductive json : Type :=
| JNull
| JBool (b : bool)
| JNum (n : Z)
| JStr (x : str)
| JArr (l : list json)
| JObj (items : list (str * json)).

(** Truth value of a JSON value in a condition. *)
Definition truthy (v : json) : bool :=
  match v with
  | JNull => false
  | JBool b => b
  | JNum n => negb (n =? 0)
  | JStr x => match x with [] => false | _ => true end
  | JArr l => match l with [] => false | _ => true end
  | JObj l => match l with [] => false | _ => true end
  end.

Fixpoint assoc (key : str) (items : list (str * json)) : option json :=
  match items with
  | [] => None
  | (k, v) :: r => if str_eqb k key then Some v else assoc key r
  end.

(** [type(v).__name__]. *)
Definition type_name (v : json) : str :=
  match v with
  | JNull => lit "NoneType"
  | JBool _ => lit "bool"
  | JNum _ => lit "int"
  | JStr _ => lit "str"
  | JArr _ => lit "list"
  | JObj _ => lit "dict"
  end.

(** [d.get(key, default)]; on anything but a [dict] the attribute is missing. *)
Definition get (d : json) (key : str) (default : json) : result json :=
  match d with
  | JObj items =>
      Return (match assoc key items with Some v => v | None => default end)
  | _ =>
      Raise (AttributeError
               (lit "'" ++ type_name d ++ lit "' object has no attribute 'get'"))
  end.

(** [random.choice(seq)] on a non-empty sequence; [r] is the draw. *)
Definition random_choice {A} (r : nat) (seq : list A) (default : A) : A :=
  nth (r mod List.length seq)%nat seq default.

End Py.

(* ================================================================== *)
(** * app/services/feed_parser.py *)
(* ================================================================== *)

Module FeedParser.
Import Py Py.ResultNotations.

(** [FeedParser.parse_duration]; [None] is Python's [None]. *)
Definition parse_duration (duration_str : str) : result (option Z) :=
  match duration_str with
  | [] => Return None                              (* if not duration_str *)
  | _ =>
      try_except_ValueError
        (n <- int duration_str ;; Return (Some n))
        (let parts := split_on ":" duration_str in
         try_except_ValueError
           (match parts with
            | [_; _; _] =>
                l <- mapM int parts ;;
                match l with
                | [hours; minutes; seconds] =>
                    Return (Some (hours * 3600 + minutes * 60 + seconds))
                | _ => Raise (ValueError (lit "not enough values to unpack"))
                end
            | [_; _] =>
                l <- mapM int parts ;;
                match l with
                | [minutes; seconds] => Return (Some (minutes * 60 + seconds))
                | _ => Raise (ValueError (lit "not enough values to unpack"))
                end
            | _ => Return None
            end)
           (Return None))
  end.

(** ** [extract_audio_url] *)

(** An enclosure or a link of a feed entry: a dictionary of strings. *)
Definition Attrs : Type := list (str * str).

Fixpoint lookup (key : str) (d : Attrs) : option str :=
  match d with
  | [] => None
  | (k, v) :: r => if str_eqb k key then Some v else lookup key r
  end.

(** [d.get(key, default)]. *)
Definition get_or (d : Attrs) (key default : str) : str :=
  match lookup key d with Some v => v | None => default end.

(** A feed entry, by what [extract_audio_url] reads of it; [None] is a
    missing attribute. *)
Record Entry : Type := {
  enclosures : option (list Attrs);
  links : option (list Attrs)
}.

(** [a or b] on optional strings: [a] when it is a non-empty string. *)
Definition or_else (a b : option str) : option str :=
  match a with
  | Some (_ :: _) => a
  | _ => b
  end.

(** [c.lower()] on one character. *)
Definition lower_char (c : ascii) : ascii :=
  let n := code c in
  if ((65 <=? n) && (n <=? 90)
      || (192 <=? n) && (n <=? 222) && negb (n =? 215))%N
  then ascii_of_N (n + 32)
  else c.

Definition lower (x : str) : str := map lower_char x.

(** [x.endswith(suffix)]. *)
Definition endswith (x suffix : str) : bool :=
  startswith (rev x) (rev suffix).

Definition audio_extensions : list str :=
  [lit ".mp3"; lit ".m4a"; lit ".wav"; lit ".ogg"].

(** [for enclosure in entry.enclosures]: [Some r] when the loop returns
    [r], [None] when it ends. *)
Fixpoint enclosure_loop (l : list Attrs) : option (option str) :=
  match l with
  | [] => None
  | enclosure :: rest =>
      if startswith (get_or enclosure (lit "type") []) (lit "audio/")
      then Some (or_else (lookup (lit "href") enclosure)
                   (lookup (lit "url") enclosure))
      else enclosure_loop rest
  end.

(** [for link in entry.links]. *)
Fixpoint link_loop (l : list Attrs) : option (option str) :=
  match l with
  | [] => None
  | link :: rest =>
      if startswith (get_or link (lit "type") []) (lit "audio/")
      then Some (lookup (lit "href") link)
      else
        let href := get_or link (lit "href") [] in
        if existsb (fun ext => endswith (lower href) ext) audio_extensions
        then Some (Some href)
        else link_loop rest
  end.

(** [FeedParser.extract_audio_url]. *)
Definition extract_audio_url (entry : Entry) : option str :=
  match match enclosures entry with
        | Some l => enclosure_loop l
        | None => None
        end with
  | Some r => r
  | None =>
      match match links entry with
            | Some l => link_loop l
            | None => None
            end with
      | Some r => r
      | None => None
      end
  end.

End FeedParser.


(* ================================================================== *)
(** * app/services/summarizer.py *)
(* ================================================================== *)

Module Summarizer.
Import Py.

(** [SummarizerService.CHUNK_SIZE]. *)
Definition CHUNK_SIZE : Z := 80000.

(** The [for word in words] loop of [_chunk_transcript]; the state is
    [chunks], [current_chunk] and [current_length]. *)
Fixpoint chunk_loop (chunk_size : Z) (words : list str)
  (chunks : list str) (current_chunk : list str) (current_length : Z)
  : list str * list str :=
  match words with
  | [] => (chunks, current_chunk)
  | word :: rest =>
      let word_len := len word + 1 in
      if current_length + word_len >? chunk_size
      then chunk_loop chunk_size rest
             (chunks ++ [join (lit " ") current_chunk]) [word] word_len
      else chunk_loop chunk_size rest
             chunks (current_chunk ++ [word]) (current_length + word_len)
  end.

(** [_chunk_transcript], with the class attribute it reads as an argument. *)
Definition chunk_transcript_with (chunk_size : Z) (transcript : str) : list str :=
  if len transcript <=? chunk_size then [transcript]
  else
    let '(chunks, current_chunk) :=
      chunk_loop chunk_size (split_ws transcript) [] [] 0 in
    match current_chunk with
    | [] => chunks
    | _ => chunks ++ [join (lit " ") current_chunk]
    end.

Definition _chunk_transcript (transcript : str) : list str :=
  chunk_transcript_with CHUNK_SIZE transcript.

(** The dataclass [StructuredAnalysis]. *)
Record StructuredAnalysis : Type := {
  overview : str;
  key_points : list str;
  topics : list str;
  themes : list str;
  predictions : list str;
  recommendations : list str;
  advice : list str;
  notable_quotes : list str;
  raw_summary : str
}.

End Summarizer.

(* ================================================================== *)
(** * app/models.py *)
(* ================================================================== *)

Module Models.
Import Py.

(** The values the code writes to a [status] column. *)
Inductive Status : Type := pending | processing | completed | failed.

Definition Status_eqb (a b : Status) : bool :=
  match a, b with
  | pending, pending | processing, processing
  | completed, completed | failed, failed => true
  | _, _ => false
  end.

Definition status_str (x : Status) : str :=
  match x with
  | pending => lit "pending"
  | processing => lit "processing"
  | completed => lit "completed"
  | failed => lit "failed"
  end.

(** A [DateTime] column: seconds on the time line; [None] is SQL [NULL].
    Columns the pipeline neither reads nor writes ([guid], [description],
    [duration_seconds], [created_at], ...) are left out of the records. *)
Definition datetime := Z.

Module Podcast.
Record t : Type := { id : Z; title : str }.
End Podcast.

Module Episode.
Record t : Type := {
  id : Z;
  podcast_id : Z;
  title : str;
  audio_url : str;
  published_at : option datetime;
  status : Status;
  processing_step : option str;
  transcript : option str;
  summary : option str
}.

Definition set_status (v : Status) (e : t) : t :=
  {| id := id e; podcast_id := podcast_id e; title := title e;
     audio_url := audio_url e; published_at := published_at e;
     status := v; processing_step := processing_step e;
     transcript := transcript e; summary := summary e |}.

Definition set_processing_step (v : option str) (e : t) : t :=
  {| id := id e; podcast_id := podcast_id e; title := title e;
     audio_url := audio_url e; published_at := published_at e;
     status := status e; processing_step := v;
     transcript := transcript e; summary := summary e |}.

Definition set_transcript (v : option str) (e : t) : t :=
  {| id := id e; podcast_id := podcast_id e; title := title e;
     audio_url := audio_url e; published_at := published_at e;
     status := status e; processing_step := processing_step e;
     transcript := v; summary := summary e |}.

Definition set_summary (v : option str) (e : t) : t :=
  {| id := id e; podcast_id := podcast_id e; title := title e;
     audio_url := audio_url e; published_at := published_at e;
     status := status e; processing_step := processing_step e;
     transcript := transcript e; summary := v |}.
End Episode.

Module EpisodeAnalysis.
Record t : Type := {
  episode_id : Z;
  overview : option str;
  key_points : option (list str);
  topics : option (list str);
  themes : option (list str);
  predictions : option (list str);
  recommendations : option (list str);
  advice : option (list str);
  notable_quotes : option (list str)
}.
End EpisodeAnalysis.

(** A digest row holds in its analysis fields whatever the task assigned to
    the attributes, the decoded values of the response.  The lists are JSON
    columns and take any of them; [summary] is a [Text] column, where the
    driver accepts a string or NULL and refuses a list or a dictionary when
    the row is flushed.  A commit of this model never fails, so the
    statements about a result that is stored assume a summary that is
    text. *)
Module Digest.
Record t : Type := {
  id : Z;
  title : str;
  period_start : datetime;
  period_end : datetime;
  podcast_ids : option (list Z);
  episode_count : Z;
  summary : json;
  common_themes : json;
  trends : json;
  predictions : json;
  recommendations : json;
  key_advice : json;
  action_items : json;
  image_url : option str;
  image_prompt : option str;
  status : Status;
  processing_step : option str;
  processing_detail : option str
}.

Definition set_status (v : Status) (d : t) : t :=
  {| id := id d; title := title d; period_start := period_start d;
     period_end := period_end d; podcast_ids := podcast_ids d;
     episode_count := episode_count d; summary := summary d;
     common_themes := common_themes d; trends := trends d;
     predictions := predictions d; recommendations := recommendations d;
     key_advice := key_advice d; action_items := action_items d;
     image_url := image_url d; image_prompt := image_prompt d;
     status := v; processing_step := processing_step d;
     processing_detail := processing_detail d |}.

Definition set_progress (step detail : option str) (d : t) : t :=
  {| id := id d; title := title d; period_start := period_start d;
     period_end := period_end d; podcast_ids := podcast_ids d;
     episode_count := episode_count d; summary := summary d;
     common_themes := common_themes d; trends := trends d;
     predictions := predictions d; recommendations := recommendations d;
     key_advice := key_advice d; action_items := action_items d;
     image_url := image_url d; image_prompt := image_prompt d;
     status := status d; processing_step := step;
     processing_detail := detail |}.

Definition set_summary (v : json) (d : t) : t :=
  {| id := id d; title := title d; period_start := period_start d;
     period_end := period_end d; podcast_ids := podcast_ids d;
     episode_count := episode_count d; summary := v;
     common_themes := common_themes d; trends := trends d;
     predictions := predictions d; recommendations := recommendations d;
     key_advice := key_advice d; action_items := action_items d;
     image_url := image_url d; image_prompt := image_prompt d;
     status := status d; processing_step := processing_step d;
     processing_detail := processing_detail d |}.

Definition set_episode_count (v : Z) (d : t) : t :=
  {| id := id d; title := title d; period_start := period_start d;
     period_end := period_end d; podcast_ids := podcast_ids d;
     episode_count := v; summary := summary d;
     common_themes := common_themes d; trends := trends d;
     predictions := predictions d; recommendations := recommendations d;
     key_advice := key_advice d; action_items := action_items d;
     image_url := image_url d; image_prompt := image_prompt d;
     status := status d; processing_step := processing_step d;
     processing_detail := processing_detail d |}.

Definition set_image (url prompt : option str) (d : t) : t :=
  {| id := id d; title := title d; period_start := period_start d;
     period_end := period_end d; podcast_ids := podcast_ids d;
     episode_count := episode_count d; summary := summary d;
     common_themes := common_themes d; trends := trends d;
     predictions := predictions d; recommendations := recommendations d;
     key_advice := key_advice d; action_items := action_items d;
     image_url := url; image_prompt := prompt;
     status := status d; processing_step := processing_step d;
     processing_detail := processing_detail d |}.
End Digest.

Module DigestEpisode.
Record t : Type := { digest_id : Z; episode_id : Z }.
End DigestEpisode.

(** The tables; a list keeps the rows in insertion order. *)
Record Db : Type := {
  podcasts : list Podcast.t;
  episodes : list Episode.t;
  episode_analyses : list EpisodeAnalysis.t;
  digests : list Digest.t;
  digest_episodes : list DigestEpisode.t
}.

Definition with_episodes (v : list Episode.t) (d : Db) : Db :=
  {| podcasts := podcasts d; episodes := v;
     episode_analyses := episode_analyses d; digests := digests d;
     digest_episodes := digest_episodes d |}.

Definition with_episode_analyses (v : list EpisodeAnalysis.t) (d : Db) : Db :=
  {| podcasts := podcasts d; episodes := episodes d;
     episode_analyses := v; digests := digests d;
     digest_episodes := digest_episodes d |}.

Definition with_digests (v : list Digest.t) (d : Db) : Db :=
  {| podcasts := podcasts d; episodes := episodes d;
     episode_analyses := episode_analyses d; digests := v;
     digest_episodes := digest_episodes d |}.

Definition with_digest_episodes (v : list DigestEpisode.t) (d : Db) : Db :=
  {| podcasts := podcasts d; episodes := episodes d;
     episode_analyses := episode_analyses d; digests := digests d;
     digest_episodes := v |}.

(** [query(...).filter(id == k).first()] on each table. *)
Definition find_episode (k : Z) (d : Db) : option Episode.t :=
  find (fun e => Episode.id e =? k) (episodes d).

Definition find_podcast (k : Z) (d : Db) : option Podcast.t :=
  find (fun p => Podcast.id p =? k) (podcasts d).

Definition find_digest (k : Z) (d : Db) : option Digest.t :=
  find (fun g => Digest.id g =? k) (digests d).

(** The relationship [Episode.analysis]. *)
Definition find_analysis (k : Z) (d : Db) : option EpisodeAnalysis.t :=
  find (fun a => EpisodeAnalysis.episode_id a =? k) (episode_analyses d).

(** Attribute writes on the row with a given key. *)
Definition update_episode (k : Z) (f : Episode.t -> Episode.t) (d : Db) : Db :=
  with_episodes
    (map (fun e => if Episode.id e =? k then f e else e) (episodes d)) d.

Definition update_digest (k : Z) (f : Digest.t -> Digest.t) (d : Db) : Db :=
  with_digests
    (map (fun g => if Digest.id g =? k then f g else g) (digests d)) d.

Definition update_analysis (k : Z) (f : EpisodeAnalysis.t -> EpisodeAnalysis.t)
  (d : Db) : Db :=
  with_episode_analyses
    (map (fun a => if EpisodeAnalysis.episode_id a =? k then f a else a)
       (episode_analyses d)) d.

End Models.

(* ================================================================== *)
(** * Sessions, background tasks and the outside world *)
(* ================================================================== *)

Module Session.
Import Py Models.

(** What a request handler or a background task acts on: the session's view
    of the tables, the snapshots it has committed (oldest first), the
    temporary files removed, the background tasks queued, and the calls
    made to the language model and to the image service. *)
Record World : Type := {
  db : Db;
  commits : list Db;
  removed : list str;
  tasks : list Z;
  llm_calls : nat;
  image_calls : list str;
  audio_path : option str      (* the local variable of [process_episode] *)
}.

Definition init (d : Db) : World :=
  {| db := d; commits := []; removed := []; tasks := [];
     llm_calls := 0; image_calls := []; audio_path := None |}.

(** State and exceptions. *)
Definition M (A : Type) : Type := World -> result A * World.

Definition ret {A} (a : A) : M A := fun w => (Return a, w).

Definition raise {A} (e : exn) : M A := fun w => (Raise e, w).

Definition bind {A B} (m : M A) (k : A -> M B) : M B :=
  fun w =>
    match m w with
    | (Return a, w') => k a w'
    | (Raise e, w') => (Raise e, w')
    end.

Definition lift {A} (r : result A) : M A := fun w => (r, w).

Definition get_db : M Db := fun w => (Return (db w), w).

(** An attribute write, or [db.add]: the session's view changes. *)
Definition modify (f : Db -> Db) : M unit :=
  fun w =>
    (Return tt,
     {| db := f (db w); commits := commits w; removed := removed w;
        tasks := tasks w; llm_calls := llm_calls w;
        image_calls := image_calls w; audio_path := audio_path w |}).

(** [db.commit()]. *)
Definition commit : M unit :=
  fun w =>
    (Return tt,
     {| db := db w; commits := commits w ++ [db w]; removed := removed w;
        tasks := tasks w; llm_calls := llm_calls w;
        image_calls := image_calls w; audio_path := audio_path w |}).

(** [background_tasks.add_task(process_episode, k, ...)]. *)
Definition add_task (k : Z) : M unit :=
  fun w =>
    (Return tt,
     {| db := db w; commits := commits w; removed := removed w;
        tasks := tasks w ++ [k]; llm_calls := llm_calls w;
        image_calls := image_calls w; audio_path := audio_path w |}).

(** [AudioService.cleanup(path)]. *)
Definition cleanup (path : str) : M unit :=
  fun w =>
    (Return tt,
     {| db := db w; commits := commits w; removed := removed w ++ [path];
        tasks := tasks w; llm_calls := llm_calls w;
        image_calls := image_calls w; audio_path := audio_path w |}).

Definition count_llm_call : M unit :=
  fun w =>
    (Return tt,
     {| db := db w; commits := commits w; removed := removed w;
        tasks := tasks w; llm_calls := S (llm_calls w);
        image_calls := image_calls w; audio_path := audio_path w |}).

Definition record_image_call (prompt : str) : M unit :=
  fun w =>
    (Return tt,
     {| db := db w; commits := commits w; removed := removed w;
        tasks := tasks w; llm_calls := llm_calls w;
        image_calls := image_calls w ++ [prompt];
        audio_path := audio_path w |}).

Definition assign_audio_path (v : option str) : M unit :=
  fun w =>
    (Return tt,
     {| db := db w; commits := commits w; removed := removed w;
        tasks := tasks w; llm_calls := llm_calls w;
        image_calls := image_calls w; audio_path := v |}).

Definition read_audio_path : M (option str) :=
  fun w => (Return (audio_path w), w).

(** [try: body / except Exception as e: handler e]. *)
Definition try_except {A} (body : M A) (handler : exn -> M A) : M A :=
  fun w =>
    match body w with
    | (Return a, w') => (Return a, w')
    | (Raise e, w') => handler e w'
    end.

(** [try: body / finally: fin]. *)
Definition try_finally {A} (body : M A) (fin : M unit) : M A :=
  fun w =>
    match body w with
    | (r, w') =>
        match fin w' with
        | (Return _, w'') => (r, w'')
        | (Raise e, w'') => (Raise e, w'')
        end
    end.

Fixpoint for_each {A} (l : list A) (body : A -> M unit) : M unit :=
  match l with
  | [] => ret tt
  | a :: r => bind (body a) (fun _ => for_each r body)
  end.

Module Notations.
Notation "x <- m ;; k" := (bind m (fun x => k))
  (at level 61, m at next level, right associativity).
Notation "m ;;; k" := (bind m (fun _ => k))
  (at level 61, right associativity).
End Notations.

End Session.

(* ================================================================== *)
(** * app/schemas.py *)
(* ================================================================== *)

Module Schemas.
Import Py Models.

Inductive TimePeriod : Type :=
| LATEST | DAY | WEEK | TWO_WEEKS | THREE_WEEKS | MONTH | CUSTOM.

Record AnalysisStatus : Type := {
  as_episode_id : Z;
  as_status : Status;
  as_message : option str
}.

Record BatchAnalysisRequest : Type := {
  period : TimePeriod;
  start_date : option datetime;
  end_date : option datetime;
  podcast_ids : option (list Z)
}.

Record BatchAnalysisStatus : Type := {
  total_episodes : Z;
  n_pending : Z;
  n_processing : Z;
  n_completed : Z;
  n_failed : Z;
  episode_ids : list Z
}.

(** An episode of a digest, as [get_digest] lists it. *)
Record DigestEpisodeInfo : Type := {
  dei_id : Z;
  dei_title : str;
  dei_podcast_id : Z;
  dei_podcast_title : str;
  dei_published_at : option datetime
}.

(** The response model [Digest]: the columns of the row that [get_digest]
    copies, and the episodes. *)
Record DigestDetail : Type := {
  dd_id : Z;
  dd_title : str;
  dd_period_start : datetime;
  dd_period_end : datetime;
  dd_podcast_ids : option (list Z);
  dd_episode_count : Z;
  dd_status : Status;
  dd_summary : json;
  dd_common_themes : json;
  dd_trends : json;
  dd_predictions : json;
  dd_recommendations : json;
  dd_key_advice : json;
  dd_action_items : json;
  dd_image_url : option str;
  dd_image_prompt : option str;
  dd_episodes : list DigestEpisodeInfo
}.

End Schemas.

(* ================================================================== *)
(** * app/routers/analysis.py *)
(* ================================================================== *)

Module Analysis.
Import Py Models Session Session.Notations Schemas.

Section Services.

(** The three services a task calls, as functions of what they are given:
    [AudioService.download_audio], [TranscriptionService.transcribe] and
    [SummarizerService.analyze]. *)
Variable download_audio : str -> result str.
Variable transcribe : str -> result str.
Variable analyze : str -> result Summarizer.StructuredAnalysis.

Definition set_episode (k : Z) (f : Episode.t -> Episode.t) : M unit :=
  modify (update_episode k f).

(** The insert-or-overwrite of the structured analysis. *)
Definition store_analysis (episode_id : Z) (r : Summarizer.StructuredAnalysis)
  : M unit :=
  let row :=
    {| EpisodeAnalysis.episode_id := episode_id;
       EpisodeAnalysis.overview := Some (Summarizer.overview r);
       EpisodeAnalysis.key_points := Some (Summarizer.key_points r);
       EpisodeAnalysis.topics := Some (Summarizer.topics r);
       EpisodeAnalysis.themes := Some (Summarizer.themes r);
       EpisodeAnalysis.predictions := Some (Summarizer.predictions r);
       EpisodeAnalysis.recommendations := Some (Summarizer.recommendations r);
       EpisodeAnalysis.advice := Some (Summarizer.advice r);
       EpisodeAnalysis.notable_quotes := Some (Summarizer.notable_quotes r) |} in
  d <- get_db ;;
  match find_analysis episode_id d with
  | Some _ => modify (update_analysis episode_id (fun _ => row))
  | None =>
      modify (fun d => with_episode_analyses (episode_analyses d ++ [row]) d)
  end.

(** [process_episode]: the background task. *)
Definition process_episode (episode_id : Z) : M unit :=
  d <- get_db ;;
  match find_episode episode_id d with
  | None => ret tt
  | Some episode =>
      set_episode episode_id (Episode.set_status processing) ;;;
      set_episode episode_id (Episode.set_processing_step (Some (lit "starting"))) ;;;
      commit ;;;
      assign_audio_path None ;;;
      try_finally
        (try_except
           ((* Download audio *)
            set_episode episode_id
              (Episode.set_processing_step (Some (lit "downloading"))) ;;;
            commit ;;;
            path <- lift (download_audio (Episode.audio_url episode)) ;;
            assign_audio_path (Some path) ;;;
            (* Transcribe *)
            set_episode episode_id
              (Episode.set_processing_step (Some (lit "transcribing"))) ;;;
            commit ;;;
            transcript <- lift (transcribe path) ;;
            set_episode episode_id (Episode.set_transcript (Some transcript)) ;;;
            commit ;;;
            (* Analyze with structured output *)
            set_episode episode_id
              (Episode.set_processing_step (Some (lit "analyzing"))) ;;;
            commit ;;;
            analysis_result <- lift (analyze transcript) ;;
            set_episode episode_id
              (Episode.set_summary (Some (Summarizer.raw_summary analysis_result))) ;;;
            store_analysis episode_id analysis_result ;;;
            set_episode episode_id (Episode.set_status completed) ;;;
            set_episode episode_id (Episode.set_processing_step None) ;;;
            commit)
           (fun e =>
              set_episode episode_id (Episode.set_status failed) ;;;
              set_episode episode_id (Episode.set_processing_step None) ;;;
              set_episode episode_id
                (Episode.set_summary (Some (lit "Error: " ++ str_of_exn e))) ;;;
              commit ;;;
              raise e))
        (p <- read_audio_path ;;
         match p with
         | Some ((_ :: _) as path) => cleanup path
         | _ => ret tt
         end)
  end.

End Services.

Definition not_found : exn := HTTPException 404 (lit "Episode not found").

Definition nonempty (x : option str) : bool :=
  match x with Some (_ :: _) => true | _ => false end.

(** [analyze_episode]: the request that starts one episode. *)
Definition analyze_episode (podcast_id episode_id : Z) : M AnalysisStatus :=
  d <- get_db ;;
  match find (fun e => (Episode.id e =? episode_id)
                       && (Episode.podcast_id e =? podcast_id)) (episodes d) with
  | None => raise not_found
  | Some episode =>
      if Status_eqb (Episode.status episode) processing then
        ret {| as_episode_id := episode_id; as_status := processing;
               as_message := Some (lit "Analysis already in progress") |}
      else if Status_eqb (Episode.status episode) completed
              && nonempty (Episode.summary episode) then
        ret {| as_episode_id := episode_id; as_status := completed;
               as_message := Some (lit "Analysis already completed") |}
      else
        add_task episode_id ;;;
        modify (update_episode episode_id (Episode.set_status processing)) ;;;
        commit ;;;
        ret {| as_episode_id := episode_id; as_status := processing;
               as_message := Some (lit "Analysis started") |}
  end.

Definition days (n : Z) : Z := n * 86400.
Definition weeks (n : Z) : Z := days (7 * n).

(** [get_period_dates]; [now] is [datetime.utcnow()]. *)
Definition get_period_dates (now : datetime) (period : TimePeriod)
  (start_date end_date : option datetime)
  : option datetime * option datetime :=
  match period with
  | LATEST => (None, None)
  | CUSTOM => (start_date, Some (match end_date with Some e => e | None => now end))
  | DAY => (Some (now - days 1), Some now)
  | WEEK => (Some (now - weeks 1), Some now)
  | TWO_WEEKS => (Some (now - weeks 2), Some now)
  | THREE_WEEKS => (Some (now - weeks 3), Some now)
  | MONTH => (Some (now - days 30), Some now)
  end.

(** [Episode.podcast_id.in_(ids)]. *)
Definition in_ids (ids : list Z) (k : Z) : bool :=
  existsb (fun i => i =? k) ids.

(** SQL [max] over a column: [NULL]s are skipped, and the maximum of no
    value is [NULL]. *)
Definition sql_max (vals : list (option datetime)) : option datetime :=
  fold_left
    (fun acc v =>
       match v, acc with
       | None, _ => acc
       | Some x, None => Some x
       | Some x, Some m => Some (Z.max m x)
       end) vals None.

(** SQL [=] on a nullable column: never true when a side is [NULL]. *)
Definition sql_eq (a b : option datetime) : bool :=
  match a, b with
  | Some x, Some y => x =? y
  | _, _ => false
  end.

(** SQL [a >= b] and [a <= b] with a nullable left side. *)
Definition sql_ge (a : option datetime) (b : datetime) : bool :=
  match a with Some x => b <=? x | None => false end.
Definition sql_le (a : option datetime) (b : datetime) : bool :=
  match a with Some x => x <=? b | None => false end.

(** The grouped subquery: one row [(podcast_id, max_date)] per podcast that
    has an episode, over the whole table. *)
Definition latest_subquery (all : list Episode.t) : list (Z * option datetime) :=
  map (fun pid =>
         (pid,
          sql_max (map Episode.published_at
                     (filter (fun e => Episode.podcast_id e =? pid) all))))
      (nodup Z.eq_dec (map Episode.podcast_id all)).

(** The join of the (filtered) episodes with the subquery. *)
Definition latest_join (query : list Episode.t)
  (subquery : list (Z * option datetime)) : list Episode.t :=
  flat_map
    (fun e =>
       map (fun _ => e)
         (filter (fun row => (Episode.podcast_id e =? fst row)
                             && sql_eq (Episode.published_at e) (snd row))
            subquery))
    query.

(** The episodes [batch_analyze] selects. *)
Definition batch_query (now : datetime) (request : BatchAnalysisRequest)
  (d : Db) : list Episode.t :=
  let '(start_date, end_date) :=
    get_period_dates now (period request) (start_date request) (end_date request) in
  let query :=
    match podcast_ids request with
    | Some ((_ :: _) as ids) =>
        filter (fun e => in_ids ids (Episode.podcast_id e)) (episodes d)
    | _ => episodes d
    end in
  match period request with
  | LATEST => latest_join query (latest_subquery (episodes d))
  | _ =>
      match start_date with
      | Some st =>
          let query := filter (fun e => sql_ge (Episode.published_at e) st) query in
          match end_date with
          | Some en => filter (fun e => sql_le (Episode.published_at e) en) query
          | None => query
          end
      | None => query
      end
  end.

Definition count_status (x : Status) (l : list Episode.t) : Z :=
  Z.of_nat (List.length (filter (fun e => Status_eqb (Episode.status e) x) l)).

(** [batch_analyze]. *)
Definition batch_analyze (now : datetime) (request : BatchAnalysisRequest)
  : M BatchAnalysisStatus :=
  d <- get_db ;;
  let selected := batch_query now request d in
  let pending_n := count_status pending selected in
  let processing_n := count_status processing selected in
  let completed_n := count_status completed selected in
  let failed_n := count_status failed selected in
  for_each selected
    (fun episode =>
       if Status_eqb (Episode.status episode) pending then
         modify (update_episode (Episode.id episode) (Episode.set_status processing)) ;;;
         add_task (Episode.id episode)
       else ret tt) ;;;
  commit ;;;
  ret {| total_episodes := Z.of_nat (List.length selected);
         n_pending := pending_n;
         n_processing := processing_n + pending_n;
         n_completed := completed_n;
         n_failed := failed_n;
         episode_ids := map Episode.id selected |}.

(** [reset_stuck_episodes]; returns the number of rows reset. *)
Definition reset_stuck_episodes : M Z :=
  d <- get_db ;;
  let stuck :=
    filter (fun e => Status_eqb (Episode.status e) processing
                     || Status_eqb (Episode.status e) failed) (episodes d) in
  for_each stuck
    (fun ep =>
       modify (update_episode (Episode.id ep) (Episode.set_status pending)) ;;;
       modify (update_episode (Episode.id ep) (Episode.set_processing_step None))) ;;;
  commit ;;;
  ret (Z.of_nat (List.length stuck)).

(** [get_episode_analysis]. *)
Definition get_episode_analysis (episode_id : Z) : M EpisodeAnalysis.t :=
  d <- get_db ;;
  match find_analysis episode_id d with
  | None =>
      raise (HTTPException 404 (lit "Analysis not found for this episode"))
  | Some analysis => ret analysis
  end.

(** [get_analysis_status]. *)
Definition get_analysis_status (episode_id : Z) : M AnalysisStatus :=
  d <- get_db ;;
  match find_episode episode_id d with
  | None => raise not_found
  | Some episode =>
      let message :=
        match Episode.status episode with
        | completed => Some (lit "Analysis complete")
        | processing => Some (lit "Analysis in progress")
        | failed =>
            Some (match Episode.summary episode with
                  | Some ((_ :: _) as summary) =>
                      if startswith summary (lit "Error:") then summary
                      else lit "Analysis failed"
                  | _ => lit "Analysis failed"
                  end)
        | pending => None
        end in
      ret {| as_episode_id := episode_id;
             as_status := Episode.status episode;
             as_message := message |}
  end.

End Analysis.

(* ================================================================== *)
(** * The event loop: requests and suspended tasks *)
(* ================================================================== *)

Module EventLoop.
Import Py Models Session Session.Notations Schemas.

(** A coroutine once it has run up to an await, or to its end.  While it
    is suspended the loop serves requests and other tasks.  Every one of
    them has its own session and commits what it wrote before it gives way,
    so each finds the rows as the last commit left them.  An attribute assignment reaches
    the table as a write of that column at the next commit of its session:
    the unit of work leaves a column out only when the value assigned is the
    one it loaded, and for [status] and [processing_step] that never happens
    to a value loaded before an await. *)
#[warnings="-register-all"] Inductive Coroutine : Type :=
| Finished (r : result unit)
| Suspended (resume : World -> Coroutine * World).

Section Task.

(** [AudioService()], [get_transcription_service()] and
    [SummarizerService()]: loading the Whisper model can fail. *)
Variable services : result unit.
(** What the three awaited calls answer. *)
Variable download_audio : str -> result str.
Variable transcribe : str -> result str.
Variable analyze : str -> result Summarizer.StructuredAnalysis.

(** [except Exception as e] of [process_episode]. *)
Definition on_error (episode_id : Z) (e : exn) : M unit :=
  Analysis.set_episode episode_id (Episode.set_status failed) ;;;
  Analysis.set_episode episode_id (Episode.set_processing_step None) ;;;
  Analysis.set_episode episode_id
    (Episode.set_summary (Some (lit "Error: " ++ str_of_exn e))) ;;;
  commit ;;;
  raise e.

(** [finally] of [process_episode]; [audio_path] is its local variable. *)
Definition on_exit (audio_path : option str) : M unit :=
  match audio_path with
  | Some ((_ :: _) as path) => cleanup path
  | _ => ret tt
  end.

(** A stretch of the [try] block: it runs to the next await, or it leaves
    the block, at its end or through the handler. *)
Definition stretch (episode_id : Z) (audio_path : option str)
  (body : M Coroutine) : World -> Coroutine * World :=
  fun w =>
    match body w with
    | (Return (Suspended resume), w') => (Suspended resume, w')
    | (Return (Finished r), w') =>
        let '(r', w'') := try_finally (lift r) (on_exit audio_path) w' in
        (Finished r', w'')
    | (Raise e, w') =>
        let '(r', w'') :=
          try_finally (on_error episode_id e) (on_exit audio_path) w' in
        (Finished r', w'')
    end.

(** From the answer of [summarizer_service.analyze] to the end. *)
Definition after_analyze (episode_id : Z) (audio_path transcript : str)
  : World -> Coroutine * World :=
  stretch episode_id (Some audio_path)
    (analysis_result <- lift (analyze transcript) ;;
     Analysis.set_episode episode_id
       (Episode.set_summary (Some (Summarizer.raw_summary analysis_result))) ;;;
     Analysis.store_analysis episode_id analysis_result ;;;
     Analysis.set_episode episode_id (Episode.set_status completed) ;;;
     Analysis.set_episode episode_id (Episode.set_processing_step None) ;;;
     commit ;;;
     ret (Finished (Return tt))).

(** From the answer of [transcription_service.transcribe] to the await of
    the analysis.  ([transcribe] has no await of its own, so the loop serves
    nothing at this point; the schedules that resume at once cover it.) *)
Definition after_transcribe (episode_id : Z) (audio_path : str)
  : World -> Coroutine * World :=
  stretch episode_id (Some audio_path)
    (transcript <- lift (transcribe audio_path) ;;
     Analysis.set_episode episode_id (Episode.set_transcript (Some transcript)) ;;;
     commit ;;;
     (* Analyze with structured output *)
     Analysis.set_episode episode_id
       (Episode.set_processing_step (Some (lit "analyzing"))) ;;;
     commit ;;;
     ret (Suspended (after_analyze episode_id audio_path transcript))).

(** From the answer of [audio_service.download_audio] to the await of the
    transcription. *)
Definition after_download (episode_id : Z) (audio_url : str)
  : World -> Coroutine * World :=
  match download_audio audio_url with
  | Raise e => stretch episode_id None (raise e)
  | Return audio_path =>
      stretch episode_id (Some audio_path)
        ((* Transcribe *)
         Analysis.set_episode episode_id
           (Episode.set_processing_step (Some (lit "transcribing"))) ;;;
         commit ;;;
         ret (Suspended (after_transcribe episode_id audio_path)))
  end.

(** [process_episode], from its start to the await of the download. *)
Definition process_episode (episode_id : Z) : World -> Coroutine * World :=
  fun w =>
    match find_episode episode_id (db w) with
    | None => (Finished (Return tt), w)
    | Some episode =>
        match (Analysis.set_episode episode_id (Episode.set_status processing) ;;;
               Analysis.set_episode episode_id
                 (Episode.set_processing_step (Some (lit "starting"))) ;;;
               commit ;;;
               lift services) w with
        | (Raise e, w') => (Finished (Raise e), w')
        | (Return _, w') =>
            stretch episode_id None
              ((* Download audio *)
               Analysis.set_episode episode_id
                 (Episode.set_processing_step (Some (lit "downloading"))) ;;;
               commit ;;;
               ret (Suspended
                      (after_download episode_id (Episode.audio_url episode))))
              w'
        end
    end.

End Task.

(** The three requests that write [status] or [processing_step]; none of
    them awaits, so each is served in one piece. *)
Inductive request : Type :=
| AnalyzeEpisode (podcast_id episode_id : Z)
| BatchAnalyze (now : datetime) (request : BatchAnalysisRequest)
| ResetStuck.

Definition serve (r : request) (w : World) : World :=
  match r with
  | AnalyzeEpisode podcast_id episode_id =>
      snd (Analysis.analyze_episode podcast_id episode_id w)
  | BatchAnalyze now request => snd (Analysis.batch_analyze now request w)
  | ResetStuck => snd (Analysis.reset_stuck_episodes w)
  end.

(** What the loop does next: serve a request, start a task, or resume the
    suspended task at position [i]. *)
Inductive event : Type :=
| Request (r : request)
| Start (services : result unit) (download_audio transcribe : str -> result str)
    (analyze : str -> result Summarizer.StructuredAnalysis) (episode_id : Z)
| Resume (i : nat).

Record Loop : Type := {
  world : World;
  waiting : list Coroutine        (* the suspended tasks *)
}.


Definition park (c : Coroutine) (others : list Coroutine) : list Coroutine :=
  match c with
  | Finished _ => others
  | Suspended _ => others ++ [c]
  end.

(** The element at position [i], and the others. *)
Fixpoint take (i : nat) (l : list Coroutine)
  : option (Coroutine * list Coroutine) :=
  match l, i with
  | [], _ => None
  | c :: rest, O => Some (c, rest)
  | c :: rest, S j =>
      match take j rest with
      | Some (x, others) => Some (x, c :: others)
      | None => None
      end
  end.

Definition step (ev : event) (l : Loop) : Loop :=
  match ev with
  | Request r => {| world := serve r (world l); waiting := waiting l |}
  | Start services download_audio transcribe analyze episode_id =>
      let '(c, w) :=
        process_episode services download_audio transcribe analyze
          episode_id (world l) in
      {| world := w; waiting := park c (waiting l) |}
  | Resume i =>
      match take i (waiting l) with
      | Some (Suspended resume, others) =>
          let '(c, w) := resume (world l) in
          {| world := w; waiting := park c others |}
      | _ => l
      end
  end.

Definition run (events : list event) (l : Loop) : Loop :=
  fold_left (fun l ev => step ev l) events l.

(** A task run without anything served in between. *)
Fixpoint finish (c : Coroutine) (w : World) : result unit * World :=
  match c with
  | Finished r => (r, w)
  | Suspended resume => let '(c', w') := resume w in finish c' w'
  end.

End EventLoop.

(* ================================================================== *)
(** * app/services/digest.py *)
(* ================================================================== *)

Module DigestService.
Import Py Models Session Session.Notations.

(** The palette of [generate_digest]: a name and a style description. *)
Definition ARTISTS : list (str * str) := [
  (lit "Wassily Kandinsky",
   lit "Bold geometric shapes, vibrant primary colours, hard-edged circles and diagonal lines, musical rhythm translated to pure abstract form, no representational imagery");
  (lit "Vincent van Gogh",
   lit "Thick swirling impasto brushstrokes, electric yellows and cobalt blues, the scene pulsing with emotional intensity, turbulent sky, heavy visible texture in every mark");
  (lit "Salvador Dali",
   lit "Hyper-realistic surrealist dreamscape, melting impossible objects, vast arid desert extending to infinity, photographic detail applied to absurd scenarios, deep chiaroscuro shadow");
  (lit "Katsushika Hokusai",
   lit "Japanese ukiyo-e woodblock print, bold flat black outlines, stylised ocean waves, graphic pattern fills, indigo and cream colour blocks, negative space as deliberate design element");
  (lit "Gustav Klimt",
   lit "Art Nouveau gold leaf, ornamental spiral patterns covering every surface, jewel-like mosaic tiles, Byzantine richness, figures dissolving into decorative abstraction, copper and burnished gold dominant");
  (lit "Jackson Pollock",
   lit "Abstract expressionist action painting, dense layered drips and splashes of industrial enamel, chaotic web of poured lines, raw canvas visible beneath, violent kinetic energy frozen in paint");
  (lit "Egon Schiele",
   lit "Viennese expressionism, raw angular contour lines, elongated distorted forms, sickly ochre and burnt sienna palette, scratchy gestural marks, claustrophobic psychological rawness");
  (lit "J.M.W. Turner",
   lit "Romantic sublime, atmosphere dissolving all solid forms into luminous vapour, golden apocalyptic light consuming the horizon, loose watercolour washes, barely legible forms emerging from radiant mist");
  (lit "Roy Lichtenstein",
   lit "Bold black comic-strip outlines, Ben-Day dot pattern fills, flat primary colours, dramatic close-up cropping, graphic mechanical reproduction aesthetic, ironic pop art sensibility");
  (lit "Edvard Munch",
   lit "Nordic expressionism, anxiety encoded in writhing undulating landscape lines, sickly green and blood-red sky, hollow-eyed figures, the horizon itself trembling with existential dread");
  (lit "Georges Seurat",
   lit "Pointillist technique, entire image built from thousands of tiny pure-colour dots, shimmering optical colour mixing, scientific colour theory applied methodically, rigid formal composition");
  (lit "Hieronymus Bosch",
   lit "Flemish Renaissance grotesque, teeming with impossible hybrid creatures, fantastical architectural structures, dense narrative detail in every corner, jewel-toned accents on earthy ground, medieval symbolism");
  (lit "Frida Kahlo",
   lit "Mexican folk art fused with surrealism, flat decorative style, dense tropical foliage, bold botanical colour, symbolic objects charged with intense personal meaning, naive directness");
  (lit "Mark Rothko",
   lit "Colour field abstraction, two or three luminous soft-edged rectangles of pure colour floating on canvas, emotional resonance through scale and hue relationship alone, meditative silence");
  (lit "Edward Hopper",
   lit "American realism, stark raking light cutting across architecture, profound urban loneliness, diner windows glowing at night, long afternoon shadows, psychological stillness");
  (lit "Utagawa Hiroshige",
   lit "Japanese woodblock landscape, flat colour planes divided by bold outlines, snow falling in diagonal lines, travellers tiny against monumental nature, deep indigo and terracotta palette");
  (lit "Paul Gauguin",
   lit "Post-impressionist palette, flat bold outlines, non-naturalistic saturated colour fills, figures simplified to monumental shapes, decorative pattern, tropical flora as charged backdrop");
  (lit "Umberto Boccioni",
   lit "Italian Futurism, dynamic force lines radiating outward, multiple simultaneous states of motion layered, fractured planes of colour, industrial energy and speed made visible");
  (lit "Alphonse Mucha",
   lit "Czech Art Nouveau, flowing curvilinear botanical borders, pearl and rose palette, mosaic-like halos, ornate floral frame surrounding the central image, decorative flat linework");
  (lit "Kazimir Malevich",
   lit "Russian Suprematism, pure geometric forms floating on white ground, black and red squares and rectangles, absolute reduction to essential form, zero reference to the natural world")
].

(** The dataclass [DigestResult]; a field holds whatever the decoded
    response carried under its key. *)
Record DigestResult : Type := {
  summary : json;
  common_themes : json;
  trends : json;
  predictions : json;
  recommendations : json;
  key_advice : json;
  action_items : json;
  image_url : option str;
  image_prompt : option str
}.

(** The dictionary [process_digest] builds for one episode. *)
Record EpisodeData : Type := {
  ed_title : str;
  ed_podcast_title : str;
  ed_published_at : option str;
  ed_overview : option str;
  ed_key_points : list str;
  ed_themes : list str;
  ed_predictions : list str;
  ed_recommendations : list str;
  ed_advice : list str
}.

(** ** The regular expressions of [_parse_json_response] *)

(** [x.startswith(p)], returning what follows the prefix. *)
Fixpoint strip_prefix (p x : str) : option str :=
  match p, x with
  | [], _ => Some x
  | a :: p', b :: x' => if Ascii.eqb a b then strip_prefix p' x' else None
  | _ :: _, [] => None
  end.

Definition fence : str := lit "```".

(** After the opening brace of a fenced block: the group ends at the first
    closing brace that is followed by optional white space and a fence.
    [acc] is the group read so far, last character first. *)
Fixpoint close_fence (acc : str) (x : str) : option str :=
  match x with
  | [] => None
  | c :: r =>
      if Ascii.eqb c "}" then
        match strip_prefix fence (drop_while is_space r) with
        | Some _ => Some (rev (c :: acc))
        | None => close_fence (c :: acc) r
        end
      else close_fence (c :: acc) r
  end.

Definition fence_body (x : str) : option str :=
  match drop_while is_space x with
  | "{"%char :: r => close_fence ["{"%char] r
  | _ => None
  end.

(** The pattern [```(?:json)?\s*(\{.*?\})\s*```] anchored at the start of
    [x]; the result is group 1. *)
Definition fence_at (x : str) : option str :=
  match strip_prefix fence x with
  | None => None
  | Some r =>
      match strip_prefix (lit "json") r with
      | Some r' =>
          match fence_body r' with
          | Some g => Some g
          | None => fence_body r
          end
      | None => fence_body r
      end
  end.

(** [re.search] of that pattern with [re.DOTALL]: the leftmost match. *)
Fixpoint fenced_block (x : str) : option str :=
  match fence_at x with
  | Some g => Some g
  | None =>
      match x with
      | [] => None
      | _ :: r => fenced_block r
      end
  end.

(** [re.search(r'\{.*\}', x, re.DOTALL)]: from the first opening brace to
    the last closing brace after it. *)
Definition brace_span (x : str) : option str :=
  match drop_while (fun c => negb (Ascii.eqb c "{")) x with
  | [] => None
  | c :: r =>
      match drop_while (fun c => negb (Ascii.eqb c "}")) (rev r) with
      | [] => None
      | l => Some (c :: rev l)
      end
  end.

Definition is_JSONDecodeError (e : exn) : bool :=
  match e with JSONDecodeError _ => true | _ => false end.

Section Service.

(** [json.loads]. *)
Variable json_loads : str -> result json.
(** The call to the language model, as a function of what the prompt is
    built from; it returns [message.content[0].text]. *)
Variable complete : list EpisodeData -> datetime -> datetime -> result str.
(** The configured key and the image service behind [_generate_image_gemini];
    [None] stands for every way the request can fail. *)
Variable google_api_key : option str.
Variable imagen : str -> option str.
(** The draw of [random.choice]. *)
Variable draw : nat.
(** How an f-string renders a JSON value that is not a string. *)
Variable repr : json -> str.

(** [try: return json.loads(x) / except json.JSONDecodeError: pass], then
    [rest]. *)
Definition try_loads (x : str) (rest : result json) : result json :=
  match json_loads x with
  | Return v => Return v
  | Raise e => if is_JSONDecodeError e then rest else Raise e
  end.

(** [DigestService._parse_json_response]. *)
Definition _parse_json_response (response : str) : result json :=
  try_loads response
    (let after_fence :=
       match brace_span response with
       | Some g => try_loads g (Return (JObj []))
       | None => Return (JObj [])
       end in
     match fenced_block response with
     | Some g => try_loads g after_fence
     | None => after_fence
     end).

(** [DigestService._generate_image_gemini]. *)
Definition _generate_image_gemini (prompt : str) : M (option str) :=
  match google_api_key with
  | Some (_ :: _) => record_image_call prompt ;;; ret (imagen prompt)
  | _ => ret None
  end.

Definition generate_image_for_prompt (prompt : str) : M (option str) :=
  _generate_image_gemini prompt.

Definition format_value (v : json) : str :=
  match v with JStr x => x | _ => repr v end.

Definition call (progress_callback : option (str -> M unit)) (detail : str)
  : M unit :=
  match progress_callback with
  | Some f => f detail
  | None => ret tt
  end.

(** The em dash of the progress text, as its UTF-8 bytes. *)
Definition dash : str := [ascii_of_nat 226; ascii_of_nat 128; ascii_of_nat 148].

(** [DigestService.generate_digest]. *)
Definition generate_digest (episodes_with_analysis : list EpisodeData)
  (period_start period_end : datetime) (generate_image : bool)
  (progress_callback : option (str -> M unit)) : M DigestResult :=
  match episodes_with_analysis with
  | [] =>
      ret {| summary := JStr (lit "No episodes to analyze.");
             common_themes := JArr []; trends := JArr [];
             predictions := JArr []; recommendations := JArr [];
             key_advice := JArr []; action_items := JArr [];
             image_url := None; image_prompt := None |}
  | _ =>
      count_llm_call ;;;
      text <- lift (complete episodes_with_analysis period_start period_end) ;;
      result <- lift (_parse_json_response text) ;;
      image <-
        (if generate_image then
           description <- lift (get result (lit "image_description") JNull) ;;
           if truthy description then
             call progress_callback
               (lit "Selecting artist and composing image prompt...") ;;;
             let '(artist_name, artist_style) :=
               random_choice draw ARTISTS ([], []) in
             let image_prompt :=
               lit "Painting in the style of " ++ artist_name ++ lit ". "
               ++ artist_style ++ lit ". Scene: " ++ format_value description
               ++ lit ". No text, no words, no letters." in
             call progress_callback
               (lit "Painting in the style of " ++ artist_name ++ lit " "
                ++ dash ++ lit " this takes ~30s...") ;;;
             image_url <- _generate_image_gemini image_prompt ;;
             ret (image_url, Some image_prompt)
           else ret (None, None)
         else ret (None, None)) ;;
      v_summary <- lift (get result (lit "summary") (JStr [])) ;;
      v_common_themes <- lift (get result (lit "common_themes") (JArr [])) ;;
      v_trends <- lift (get result (lit "trends") (JArr [])) ;;
      v_predictions <- lift (get result (lit "predictions") (JArr [])) ;;
      v_recommendations <- lift (get result (lit "recommendations") (JArr [])) ;;
      v_key_advice <- lift (get result (lit "key_advice") (JArr [])) ;;
      v_action_items <- lift (get result (lit "action_items") (JArr [])) ;;
      ret {| summary := v_summary; common_themes := v_common_themes;
             trends := v_trends; predictions := v_predictions;
             recommendations := v_recommendations;
             key_advice := v_key_advice; action_items := v_action_items;
             image_url := fst image; image_prompt := snd image |}
  end.

End Service.

End DigestService.

(* ================================================================== *)
(** * app/services/summarizer.py: the analysis itself *)
(* ================================================================== *)

Module SummarizerService.
Import Py.

(** ** The third pattern of [_parse_json_response] *)

(** The third pattern, after its opening brace.  It reads: an opening
    brace, characters other than braces, any number of inner pairs of braces
    (each holding and followed by characters other than braces), a closing
    brace.  So braces nest one level deep at most, and the match ends at the
    first closing brace outside an inner pair.  [inner] tells whether an
    inner pair is open; [acc] is the match read so far, last character
    first. *)
Fixpoint nested_scan (inner : bool) (acc : str) (x : str) : option str :=
  match x with
  | [] => None
  | c :: r =>
      if Ascii.eqb c "{" then
        if inner then None else nested_scan true (c :: acc) r
      else if Ascii.eqb c "}" then
        if inner then nested_scan false (c :: acc) r
        else Some (rev (c :: acc))
      else nested_scan inner (c :: acc) r
  end.

(** The pattern anchored at the start of [x]; the result is group 0. *)
Definition nested_at (x : str) : option str :=
  match x with
  | "{"%char :: r => nested_scan false ["{"%char] r
  | _ => None
  end.

(** [re.search] of that pattern: the leftmost match. *)
Fixpoint nested_object (x : str) : option str :=
  match nested_at x with
  | Some g => Some g
  | None =>
      match x with
      | [] => None
      | _ :: r => nested_object r
      end
  end.

(** What the constructor of [StructuredAnalysis] is given: the values the
    parsed response holds, of whatever JSON type. *)
Record Fields : Type := {
  f_overview : json;
  f_key_points : json;
  f_topics : json;
  f_themes : json;
  f_predictions : json;
  f_recommendations : json;
  f_advice : json;
  f_notable_quotes : json;
  f_raw_summary : json
}.

(** A request to the language model, by what its prompt is built from:
    the whole transcript, section [i] of [total], or the analyses of the
    sections. *)
Inductive Prompt : Type :=
| Whole (transcript : str)
| Section_ (i total : nat) (chunk : str)
| Combine (chunk_results : list json).

(** A computation that asks the model: its outcome and the prompts sent,
    in order. *)
Definition Ask (A : Type) : Type := result A * list Prompt.

Definition done {A} (a : A) : Ask A := (Return a, []).

Definition and_then {A B} (m : Ask A) (k : A -> Ask B) : Ask B :=
  match m with
  | (Return a, sent) => let '(r, sent') := k a in (r, sent ++ sent')
  | (Raise e, sent) => (Raise e, sent)
  end.

Definition of_result {A} (r : result A) : Ask A := (r, []).

Section Service.

(** [json.loads], and the model: [message.content[0].text] for a prompt. *)
Variable json_loads : str -> result json.
Variable complete : Prompt -> result str.

Definition ask (p : Prompt) : Ask str := (complete p, [p]).

(** The default structure. *)
Definition default_structure (response : str) : json :=
  JObj [(lit "overview",
         JStr (match response with
               | [] => lit "Analysis failed"
               | _ => slice_to 500 response
               end));
        (lit "key_points", JArr []);
        (lit "topics", JArr []);
        (lit "themes", JArr []);
        (lit "predictions", JArr []);
        (lit "recommendations", JArr []);
        (lit "advice", JArr []);
        (lit "notable_quotes", JArr []);
        (lit "summary", JStr response)].

(** [SummarizerService._parse_json_response]. *)
Definition _parse_json_response (response : str) : result json :=
  DigestService.try_loads json_loads response
    (let after_fence :=
       match nested_object response with
       | Some g =>
           DigestService.try_loads json_loads g
             (Return (default_structure response))
       | None => Return (default_structure response)
       end in
     match DigestService.fenced_block response with
     | Some g => DigestService.try_loads json_loads g after_fence
     | None => after_fence
     end).

(** The nine [result.get(...)] of [_analyze_single] and
    [_analyze_chunked]. *)
Definition fields_of (result : json) : Py.result Fields :=
  Py.bind (get result (lit "overview") (JStr [])) (fun v_overview =>
  Py.bind (get result (lit "key_points") (JArr [])) (fun v_key_points =>
  Py.bind (get result (lit "topics") (JArr [])) (fun v_topics =>
  Py.bind (get result (lit "themes") (JArr [])) (fun v_themes =>
  Py.bind (get result (lit "predictions") (JArr [])) (fun v_predictions =>
  Py.bind (get result (lit "recommendations") (JArr []))
    (fun v_recommendations =>
  Py.bind (get result (lit "advice") (JArr [])) (fun v_advice =>
  Py.bind (get result (lit "notable_quotes") (JArr []))
    (fun v_notable_quotes =>
  Py.bind (get result (lit "summary") (JStr [])) (fun v_summary =>
  Return {| f_overview := v_overview; f_key_points := v_key_points;
            f_topics := v_topics; f_themes := v_themes;
            f_predictions := v_predictions;
            f_recommendations := v_recommendations;
            f_advice := v_advice; f_notable_quotes := v_notable_quotes;
            f_raw_summary := v_summary |}))))))))).

(** [_analyze_single]. *)
Definition _analyze_single (transcript : str) : Ask Fields :=
  and_then (ask (Whole transcript)) (fun text =>
  and_then (of_result (_parse_json_response text)) (fun result =>
  of_result (fields_of result))).

(** The first pass of [_analyze_chunked]: [for i, chunk in
    enumerate(chunks)], from index [i]. *)
Fixpoint first_pass (total : nat) (i : nat) (chunks : list str)
  (chunk_results : list json) : Ask (list json) :=
  match chunks with
  | [] => done chunk_results
  | chunk :: rest =>
      and_then (ask (Section_ (i + 1) total chunk)) (fun text =>
      and_then (of_result (_parse_json_response text)) (fun parsed =>
      first_pass total (S i) rest (chunk_results ++ [parsed])))
  end.

(** [_analyze_chunked]. *)
Definition _analyze_chunked (chunks : list str) : Ask Fields :=
  and_then (first_pass (List.length chunks) 0 chunks []) (fun chunk_results =>
  and_then (ask (Combine chunk_results)) (fun text =>
  and_then (of_result (_parse_json_response text)) (fun result =>
  of_result (fields_of result)))).

(** [analyze]. *)
Definition analyze (transcript : str) : Ask Fields :=
  let chunks := Summarizer._chunk_transcript transcript in
  if (List.length chunks =? 1)%nat then _analyze_single transcript
  else _analyze_chunked chunks.

End Service.

End SummarizerService.

(* ================================================================== *)
(** * app/routers/digests.py *)
(* ================================================================== *)

Module Digests.
Import Py Models Session Session.Notations.

(** The palette of [regenerate_image]. *)
Definition ARTISTS : list str :=
  [lit "Kandinsky"; lit "Monet"; lit "Picasso"; lit "van Gogh"; lit "Dali";
   lit "Klee"].

(** ** The substitution of [regenerate_image] *)

Definition marker : str := lit "style of ".

(** The class [[\w\s]]. *)
Definition is_name_char (c : ascii) : bool := is_word c || is_space c.

(** The class [[.,]]. *)
Definition is_stop (c : ascii) : bool := Ascii.eqb c "." || Ascii.eqb c ",".

(** The longest prefix of name characters, and what follows it. *)
Fixpoint name_run (x : str) : str * str :=
  match x with
  | [] => ([], [])
  | c :: r =>
      if is_name_char c
      then let '(run, rest) := name_run r in (c :: run, rest)
      else ([], x)
  end.

(** The pattern [style of [\w\s]+?[.,]] anchored at the start of [x]: the
    number of characters it matches.  A name character is never a stop, so
    the lazy run ends exactly where the name characters end. *)
Definition match_style (x : str) : option nat :=
  match DigestService.strip_prefix marker x with
  | None => None
  | Some r =>
      let '(run, rest) := name_run r in
      match run, rest with
      | _ :: _, c :: _ =>
          if is_stop c
          then Some (List.length marker + List.length run + 1)%nat
          else None
      | _, _ => None
      end
  end.

(** [re.sub(pattern, repl, x)]: every match, left to right, without overlap.
    [skip] counts the characters of the current match still to be dropped. *)
Fixpoint sub_style (repl : str) (skip : nat) (x : str) : str :=
  match x with
  | [] => []
  | c :: r =>
      match skip with
      | S k => sub_style repl k r
      | O =>
          match match_style x with
          | Some n => repl ++ sub_style repl (Nat.pred n) r
          | None => c :: sub_style repl O r
          end
      end
  end.

(** [re.sub(r'style of [\w\s]+?[.,]', f'style of {new_artist}.', prompt)]. *)
Definition new_prompt_for (new_artist prompt : str) : str :=
  sub_style (marker ++ new_artist ++ lit ".") O prompt.

Section Service.

Variable json_loads : str -> result json.
Variable complete :
  list DigestService.EpisodeData -> datetime -> datetime -> result str.
Variable google_api_key : option str.
Variable imagen : str -> option str.
Variable draw : nat.
Variable repr : json -> str.
(** [datetime.isoformat]. *)
Variable isoformat : datetime -> str.

Definition set_digest (k : Z) (f : Digest.t -> Digest.t) : M unit :=
  modify (update_digest k f).

(** [_update_digest_progress]. *)
Definition _update_digest_progress (digest_id : Z) (step detail : str) : M unit :=
  set_digest digest_id (Digest.set_progress (Some step) (Some detail)) ;;;
  commit.

Definition or_empty (x : option (list str)) : list str :=
  match x with Some l => l | None => [] end.

(** The dictionary appended to [episodes_with_analysis] for an episode and
    its analysis. *)
Definition episode_data (d : Db) (ep : Episode.t) (analysis : EpisodeAnalysis.t)
  : DigestService.EpisodeData :=
  let podcast := find_podcast (Episode.podcast_id ep) d in
  {| DigestService.ed_title := Episode.title ep;
     DigestService.ed_podcast_title :=
       match podcast with
       | Some p => Podcast.title p
       | None => lit "Unknown"
       end;
     DigestService.ed_published_at :=
       option_map isoformat (Episode.published_at ep);
     DigestService.ed_overview := EpisodeAnalysis.overview analysis;
     DigestService.ed_key_points :=
       or_empty (EpisodeAnalysis.key_points analysis);
     DigestService.ed_themes := or_empty (EpisodeAnalysis.themes analysis);
     DigestService.ed_predictions :=
       or_empty (EpisodeAnalysis.predictions analysis);
     DigestService.ed_recommendations :=
       or_empty (EpisodeAnalysis.recommendations analysis);
     DigestService.ed_advice := or_empty (EpisodeAnalysis.advice analysis) |}.

(** The body of the collection loop, for the episode at index [i]. *)
Definition collect_one (digest_id : Z) (total : Z) (i : Z) (ep : Episode.t)
  (acc : list DigestService.EpisodeData) : M (list DigestService.EpisodeData) :=
  d <- get_db ;;
  match find_analysis (Episode.id ep) d with
  | None => ret acc
  | Some analysis =>
      let data := episode_data d ep analysis in
      (* Track episode in digest *)
      modify (fun d =>
                with_digest_episodes
                  (digest_episodes d
                   ++ [{| DigestEpisode.digest_id := digest_id;
                          DigestEpisode.episode_id := Episode.id ep |}]) d) ;;;
      _update_digest_progress digest_id (lit "collecting_episodes")
        (lit "Reading episode " ++ str_of_int (i + 1) ++ lit "/"
         ++ str_of_int total ++ lit ": " ++ slice_to 40 (Episode.title ep)
         ++ lit "...") ;;;
      ret (acc ++ [data])
  end.

(** [for i, ep in enumerate(episodes)]. *)
Fixpoint collect (digest_id : Z) (total : Z) (i : Z) (eps : list Episode.t)
  (acc : list DigestService.EpisodeData) : M (list DigestService.EpisodeData) :=
  match eps with
  | [] => ret acc
  | ep :: rest =>
      acc' <- collect_one digest_id total i ep acc ;;
      collect digest_id total (i + 1) rest acc'
  end.

(** The episodes of the period: completed, published inside it, and of one
    of the digest's podcasts when it names some.  The query has no
    [ORDER BY], so the database is free in the order of its answer; the rows
    are taken here as the table lists them, and what is stated about the
    links made from them is stated up to a permutation. *)
Definition period_episodes (digest : Digest.t) (d : Db) : list Episode.t :=
  let query :=
    filter (fun e =>
              Status_eqb (Episode.status e) completed
              && Analysis.sql_ge (Episode.published_at e) (Digest.period_start digest)
              && Analysis.sql_le (Episode.published_at e) (Digest.period_end digest))
      (episodes d) in
  match Digest.podcast_ids digest with
  | Some ((_ :: _) as ids) =>
      filter (fun e => Analysis.in_ids ids (Episode.podcast_id e)) query
  | _ => query
  end.

Definition no_episodes_message : str :=
  lit "No analyzed episodes found in this time period.".

Definition store_result (ep_count : Z) (r : DigestService.DigestResult)
  (g : Digest.t) : Digest.t :=
  {| Digest.id := Digest.id g; Digest.title := Digest.title g;
     Digest.period_start := Digest.period_start g;
     Digest.period_end := Digest.period_end g;
     Digest.podcast_ids := Digest.podcast_ids g;
     Digest.episode_count := ep_count;
     Digest.summary := DigestService.summary r;
     Digest.common_themes := DigestService.common_themes r;
     Digest.trends := DigestService.trends r;
     Digest.predictions := DigestService.predictions r;
     Digest.recommendations := DigestService.recommendations r;
     Digest.key_advice := DigestService.key_advice r;
     Digest.action_items := DigestService.action_items r;
     Digest.image_url := DigestService.image_url r;
     Digest.image_prompt := DigestService.image_prompt r;
     Digest.status := completed;
     Digest.processing_step := None;
     Digest.processing_detail := None |}.

(** [process_digest]: the background task. *)
Definition process_digest (digest_id : Z) : M unit :=
  d <- get_db ;;
  match find_digest digest_id d with
  | None => ret tt
  | Some digest =>
      set_digest digest_id (Digest.set_status processing) ;;;
      _update_digest_progress digest_id (lit "collecting_episodes")
        (lit "Finding analysed episodes...") ;;;
      try_except
        (d <- get_db ;;
         let eps := period_episodes digest d in
         let total := Z.of_nat (List.length eps) in
         _update_digest_progress digest_id (lit "collecting_episodes")
           (lit "Found " ++ str_of_int total
            ++ lit " episodes, reading analyses...") ;;;
         episodes_with_analysis <- collect digest_id total 0 eps [] ;;
         commit ;;;
         match episodes_with_analysis with
         | [] =>
             set_digest digest_id (Digest.set_status completed) ;;;
             set_digest digest_id (Digest.set_progress None None) ;;;
             set_digest digest_id (Digest.set_summary (JStr no_episodes_message)) ;;;
             set_digest digest_id (Digest.set_episode_count 0) ;;;
             commit
         | _ =>
             (* Generate digest via Claude *)
             let ep_count := Z.of_nat (List.length episodes_with_analysis) in
             _update_digest_progress digest_id (lit "generating_content")
               (lit "Claude is synthesising insights from "
                ++ str_of_int ep_count ++ lit " episodes...") ;;;
             result <-
               DigestService.generate_digest json_loads complete google_api_key
                 imagen draw repr episodes_with_analysis
                 (Digest.period_start digest) (Digest.period_end digest) true
                 (Some (fun detail =>
                          _update_digest_progress digest_id
                            (lit "generating_image") detail)) ;;
             (* Update digest with results *)
             set_digest digest_id (store_result ep_count result) ;;;
             commit
         end)
        (fun e =>
           set_digest digest_id (Digest.set_status failed) ;;;
           set_digest digest_id (Digest.set_progress None None) ;;;
           set_digest digest_id
             (Digest.set_summary (JStr (lit "Error: " ++ str_of_exn e))) ;;;
           commit ;;;
           raise e)
  end.

(** [regenerate_image]; it returns the new image and the new prompt. *)
Definition regenerate_image (digest_id : Z) : M (str * str) :=
  d <- get_db ;;
  match find_digest digest_id d with
  | None => raise (HTTPException 404 (lit "Digest not found"))
  | Some digest =>
      match Digest.image_prompt digest with
      | Some ((_ :: _) as image_prompt) =>
          let new_artist := random_choice draw ARTISTS [] in
          let new_prompt := new_prompt_for new_artist image_prompt in
          new_url <-
            DigestService.generate_image_for_prompt google_api_key imagen
              new_prompt ;;
          match new_url with
          | Some ((_ :: _) as url) =>
              set_digest digest_id
                (Digest.set_image (Some url) (Some new_prompt)) ;;;
              commit ;;;
              ret (url, new_prompt)
          | _ => raise (HTTPException 500 (lit "Image generation failed"))
          end
      | _ => raise (HTTPException 400 (lit "No image prompt available"))
      end
  end.

End Service.

Definition digest_not_found : exn :=
  HTTPException 404 (lit "Digest not found").

(** The relationship [Digest.digest_episodes]. *)
Definition links_of (digest_id : Z) (d : Db) : list DigestEpisode.t :=
  filter (fun l => DigestEpisode.digest_id l =? digest_id) (digest_episodes d).

(** [get_digest]. *)
Definition get_digest (digest_id : Z) : M Schemas.DigestDetail :=
  d <- get_db ;;
  match find_digest digest_id d with
  | None => raise digest_not_found
  | Some digest =>
      let episodes_info :=
        flat_map
          (fun de =>
             match find_episode (DigestEpisode.episode_id de) d with
             | Some ep =>
                 let podcast := find_podcast (Episode.podcast_id ep) d in
                 [{| Schemas.dei_id := Episode.id ep;
                     Schemas.dei_title := Episode.title ep;
                     Schemas.dei_podcast_id := Episode.podcast_id ep;
                     Schemas.dei_podcast_title :=
                       match podcast with
                       | Some p => Podcast.title p
                       | None => lit "Unknown"
                       end;
                     Schemas.dei_published_at := Episode.published_at ep |}]
             | None => []
             end)
          (links_of (Digest.id digest) d) in
      ret {| Schemas.dd_id := Digest.id digest;
             Schemas.dd_title := Digest.title digest;
             Schemas.dd_period_start := Digest.period_start digest;
             Schemas.dd_period_end := Digest.period_end digest;
             Schemas.dd_podcast_ids := Digest.podcast_ids digest;
             Schemas.dd_episode_count := Digest.episode_count digest;
             Schemas.dd_status := Digest.status digest;
             Schemas.dd_summary := Digest.summary digest;
             Schemas.dd_common_themes := Digest.common_themes digest;
             Schemas.dd_trends := Digest.trends digest;
             Schemas.dd_predictions := Digest.predictions digest;
             Schemas.dd_recommendations := Digest.recommendations digest;
             Schemas.dd_key_advice := Digest.key_advice digest;
             Schemas.dd_action_items := Digest.action_items digest;
             Schemas.dd_image_url := Digest.image_url digest;
             Schemas.dd_image_prompt := Digest.image_prompt digest;
             Schemas.dd_episodes := episodes_info |}
  end.

(** [delete_digest]: the row goes, and with it its links (the relationship
    cascades [all, delete-orphan]). *)
Definition delete_digest (digest_id : Z) : M unit :=
  d <- get_db ;;
  match find_digest digest_id d with
  | None => raise digest_not_found
  | Some digest =>
      modify (fun d =>
                with_digest_episodes
                  (filter (fun l => negb (DigestEpisode.digest_id l
                                          =? Digest.id digest))
                     (digest_episodes d))
                  (with_digests
                     (filter (fun g => negb (Digest.id g =? Digest.id digest))
                        (digests d)) d)) ;;;
      commit
  end.

End Digests.

(* ================================================================== *)
(** * Definitions used by the statements *)
(* ================================================================== *)

Import Py Models Session Schemas.

(** ** Duration parsing *)
(** [x] is an integer literal: [int(x)] returns. *)
Definition is_int_literal (x : str) : bool :=
  match int x with Return _ => true | Raise _ => false end.

(** [x] is two or three colon-separated integer literals. *)
Definition is_colon_ints (x : str) : bool :=
  let parts := split_on ":" x in
  ((List.length parts =? 2)%nat || (List.length parts =? 3)%nat)
  && forallb is_int_literal parts.

(** ** Chunking *)
Definition space : str := lit " ".

Definition is_word_text (w : str) : bool :=
  match w with [] => false | _ => forallb (fun c => negb (is_space c)) w end.

(** A transcript made of one word of 80001 characters. *)
Definition long_word : str := repeat "a"%char (Z.to_nat 80001).

(** ** The "latest per podcast" selection *)
Definition episode (id podcast_id : Z) (published_at : option datetime)
  : Episode.t :=
  {| Episode.id := id; Episode.podcast_id := podcast_id;
     Episode.title := lit "Episode"; Episode.audio_url := lit "http://a/e.mp3";
     Episode.published_at := published_at; Episode.status := pending;
     Episode.processing_step := None; Episode.transcript := None;
     Episode.summary := None |}.

Definition db_of (eps : list Episode.t) : Db :=
  {| podcasts := []; episodes := eps; episode_analyses := [];
     digests := []; digest_episodes := [] |}.

(** Podcast 10 published two episodes at the same instant; podcast 11 has
    one episode, whose feed gave no date. *)
Definition tie_db : Db :=
  db_of [episode 1 10 (Some 1700000000); episode 2 10 (Some 1700000000);
         episode 3 10 (Some 1600000000); episode 4 11 None].

Definition latest_request : BatchAnalysisRequest :=
  {| period := LATEST; start_date := None; end_date := None;
     podcast_ids := None |}.

(** ** Sample data *)
Definition sea_talk : Podcast.t :=
  {| Podcast.id := 10; Podcast.title := lit "Sea Talk" |}.

(** An episode nobody has asked to analyse yet. *)
Definition pending_episode : Episode.t :=
  {| Episode.id := 3; Episode.podcast_id := 10;
     Episode.title := lit "Harbors";
     Episode.audio_url := lit "https://example.org/harbors.mp3";
     Episode.published_at := Some 1700000000; Episode.status := pending;
     Episode.processing_step := None; Episode.transcript := None;
     Episode.summary := None |}.

Definition queue_db : Db :=
  {| podcasts := [sea_talk]; episodes := [pending_episode];
     episode_analyses := []; digests := []; digest_episodes := [] |}.

(** Services: the download and the transcription succeed, the analysis is
    refused. *)
Definition sample_download (url : str) : result str :=
  Return (lit "/tmp/harbors.mp3").

Definition sample_transcribe (path : str) : result str :=
  Return (lit "Welcome to Sea Talk.").

Definition failing_analyze (transcript : str)
  : result Summarizer.StructuredAnalysis :=
  Raise (Exception (lit "overloaded")).

(** The same episode once analysed, and a digest not yet processed. *)
Definition harbor_episode : Episode.t :=
  {| Episode.id := 3; Episode.podcast_id := 10;
     Episode.title := lit "Harbors";
     Episode.audio_url := lit "https://example.org/harbors.mp3";
     Episode.published_at := Some 1700000000; Episode.status := completed;
     Episode.processing_step := None;
     Episode.transcript := Some (lit "Welcome to Sea Talk.");
     Episode.summary := Some (lit "About harbors.") |}.

Definition harbor_analysis : EpisodeAnalysis.t :=
  {| EpisodeAnalysis.episode_id := 3;
     EpisodeAnalysis.overview := Some (lit "About harbors.");
     EpisodeAnalysis.key_points := Some [lit "Fog is common."];
     EpisodeAnalysis.topics := None; EpisodeAnalysis.themes := None;
     EpisodeAnalysis.predictions := None;
     EpisodeAnalysis.recommendations := None;
     EpisodeAnalysis.advice := None;
     EpisodeAnalysis.notable_quotes := None |}.

Definition new_digest : Digest.t :=
  {| Digest.id := 8; Digest.title := lit "Weekly Digest";
     Digest.period_start := 1699900000; Digest.period_end := 1700500000;
     Digest.podcast_ids := None; Digest.episode_count := 0;
     Digest.summary := JNull; Digest.common_themes := JNull;
     Digest.trends := JNull; Digest.predictions := JNull;
     Digest.recommendations := JNull; Digest.key_advice := JNull;
     Digest.action_items := JNull; Digest.image_url := None;
     Digest.image_prompt := None; Digest.status := pending;
     Digest.processing_step := None; Digest.processing_detail := None |}.

Definition library_db : Db :=
  {| podcasts := [sea_talk]; episodes := [harbor_episode];
     episode_analyses := [harbor_analysis]; digests := [new_digest];
     digest_episodes := [] |}.

(** The same tables before the episode was analysed. *)
Definition unanalysed_db : Db := with_episode_analyses [] library_db.

(** A model that answers with one JSON object, and a decoder that knows
    that answer. *)
Definition quoted (x : str) : str := [ascii_of_nat 34] ++ x ++ [ascii_of_nat 34].

Definition digest_text : str :=
  lit "{" ++ quoted (lit "summary") ++ lit ": "
  ++ quoted (lit "Harbors were discussed.") ++ lit ", "
  ++ quoted (lit "image_description") ++ lit ": "
  ++ quoted (lit "a foggy harbor") ++ lit "}".

Definition digest_items : list (str * json) :=
  [(lit "summary", JStr (lit "Harbors were discussed."));
   (lit "image_description", JStr (lit "a foggy harbor"))].

Definition sample_complete (eps : list DigestService.EpisodeData)
  (period_start period_end : datetime) : result str :=
  Return digest_text.

Definition sample_loads (x : str) : result json :=
  if str_eqb x digest_text then Return (JObj digest_items)
  else Raise (JSONDecodeError (lit "Expecting value")).

Definition failing_complete (eps : list DigestService.EpisodeData)
  (period_start period_end : datetime) : result str :=
  Raise (Exception (lit "overloaded")).

Definition no_image (prompt : str) : option str := None.

Definition sample_repr (v : json) : str := lit "<json>".

Definition sample_isoformat (t : datetime) : str := str_of_int t.

(** A digest whose artwork was painted after Monet. *)
Definition monet_prompt : str :=
  lit "Painting in the style of Monet. Soft morning light. Scene: a foggy harbor. No text, no words, no letters.".

Definition sample_digest : Digest.t :=
  {| Digest.id := 7; Digest.title := lit "Weekly Digest";
     Digest.period_start := 0; Digest.period_end := 604800;
     Digest.podcast_ids := None; Digest.episode_count := 2;
     Digest.summary := JStr (lit "Two episodes on harbors.");
     Digest.common_themes := JArr []; Digest.trends := JArr [];
     Digest.predictions := JArr []; Digest.recommendations := JArr [];
     Digest.key_advice := JArr []; Digest.action_items := JArr [];
     Digest.image_url := Some (lit "data:image/png;base64,AAAA");
     Digest.image_prompt := Some monet_prompt;
     Digest.status := completed; Digest.processing_step := None;
     Digest.processing_detail := None |}.

Definition sample_db : Db :=
  {| podcasts := []; episodes := []; episode_analyses := [];
     digests := [sample_digest]; digest_episodes := [] |}.

Definition sample_key : option str := Some (lit "key").

Definition sample_imagen (prompt : str) : option str :=
  Some (lit "data:image/png;base64,BBBB").

(** The prompt [generate_digest] composes for the eighth artist of its
    palette and the scene of the sample response. *)
Definition turner_prompt : str :=
  lit "Painting in the style of J.M.W. Turner. Romantic sublime, atmosphere dissolving all solid forms into luminous vapour, golden apocalyptic light consuming the horizon, loose watercolour washes, barely legible forms emerging from radiant mist. Scene: a foggy harbor. No text, no words, no letters.".

(** What [regenerate_image] makes of it when it draws Klee. *)
Definition turner_prompt_after_klee : str :=
  lit "Painting in the style of Klee.M.W. Turner. Romantic sublime, atmosphere dissolving all solid forms into luminous vapour, golden apocalyptic light consuming the horizon, loose watercolour washes, barely legible forms emerging from radiant mist. Scene: a foggy harbor. No text, no words, no letters.".

(** The state the digest task leaves when it draws that artist. *)
Definition turner_world : World :=
  snd (Digests.process_digest sample_loads sample_complete sample_key
         sample_imagen 7 sample_repr sample_isoformat 8 (init library_db)).

(** ** Digest synthesis on a response that holds no JSON *)
(** [json.loads(x)] raises [JSONDecodeError]. *)
Definition decode_fails (json_loads : str -> result json) (x : str) : Prop :=
  exists msg, json_loads x = Raise (JSONDecodeError msg).

(** The three attempts of [_parse_json_response] all fail on [response]. *)
Definition extraction_fails (json_loads : str -> result json) (response : str)
  : Prop :=
  decode_fails json_loads response
  /\ (forall g, DigestService.fenced_block response = Some g ->
                decode_fails json_loads g)
  /\ (forall g, DigestService.brace_span response = Some g ->
                decode_fails json_loads g).

(** What [generate_digest] returns then. *)
Definition degraded_result : DigestService.DigestResult :=
  {| DigestService.summary := JStr [];
     DigestService.common_themes := JArr [];
     DigestService.trends := JArr [];
     DigestService.predictions := JArr [];
     DigestService.recommendations := JArr [];
     DigestService.key_advice := JArr [];
     DigestService.action_items := JArr [];
     DigestService.image_url := None;
     DigestService.image_prompt := None |}.

Definition with_llm_call (w : World) : World :=
  {| db := db w; commits := commits w; removed := removed w; tasks := tasks w;
     llm_calls := S (llm_calls w); image_calls := image_calls w;
     audio_path := audio_path w |}.

(** A response that is plain prose, and a decoder that accepts nothing. *)
Definition prose_response : str := lit "I could not summarise these episodes.".

Definition reject_all (x : str) : result json :=
  Raise (JSONDecodeError (lit "Expecting value")).

Definition one_episode : list DigestService.EpisodeData :=
  [{| DigestService.ed_title := lit "Harbors";
      DigestService.ed_podcast_title := lit "Sea Talk";
      DigestService.ed_published_at := None;
      DigestService.ed_overview := Some (lit "About harbors.");
      DigestService.ed_key_points := []; DigestService.ed_themes := [];
      DigestService.ed_predictions := [];
      DigestService.ed_recommendations := [];
      DigestService.ed_advice := [] |}].

Definition empty_db : Db :=
  {| podcasts := []; episodes := []; episode_analyses := [];
     digests := []; digest_episodes := [] |}.

(** ** Definitions used by the digest theorems *)
Definition has_analysis (d : Db) (ep : Episode.t) : bool :=
  match find_analysis (Episode.id ep) d with
  | Some _ => true
  | None => false
  end.

(** What the collection loop gathers from a list of episodes. *)
Definition collected (isoformat : datetime -> str) (d : Db)
  (eps : list Episode.t) : list DigestService.EpisodeData :=
  flat_map
    (fun ep =>
       match find_analysis (Episode.id ep) d with
       | Some a => [Digests.episode_data isoformat d ep a]
       | None => []
       end) eps.

(** The link rows it adds. *)
Definition links (digest_id : Z) (d : Db) (eps : list Episode.t)
  : list DigestEpisode.t :=
  map (fun ep => {| DigestEpisode.digest_id := digest_id;
                    DigestEpisode.episode_id := Episode.id ep |})
    (filter (has_analysis d) eps).

(** Two digest rows that differ at most in [status], [processing_step] and
    [processing_detail]. *)
Definition same_content (g g' : Digest.t) : Prop :=
  forall st step detail,
    Digest.set_progress step detail (Digest.set_status st g)
    = Digest.set_progress step detail (Digest.set_status st g').


(** What the column [summary] of a digest, a [Text], takes: a string or
    NULL.  The driver refuses a list or a dictionary there. *)
Definition is_text (v : json) : bool :=
  match v with
  | JStr _ | JNull => true
  | _ => false
  end.

(** A model that answers with a JSON list, and a decoder that knows that
    answer. *)
Definition list_complete (eps : list DigestService.EpisodeData)
  (period_start period_end : datetime) : result str :=
  Return (lit "[]").

Definition list_loads (x : str) : result json :=
  if str_eqb x (lit "[]") then Return (JArr [])
  else Raise (JSONDecodeError (lit "Expecting value")).

(** The callback [process_digest] hands to [generate_digest]. *)
Definition image_progress (digest_id : Z) : option (str -> M unit) :=
  Some (fun detail =>
          Digests._update_digest_progress digest_id (lit "generating_image")
            detail).

(** What a run of the loop leaves behind. *)
Definition collect_post (digest_id : Z) (g : Digest.t)
  (added : list DigestEpisode.t) (w w' : World) : Prop :=
  (exists g', find_digest digest_id (db w') = Some g' /\ same_content g g')
  /\ podcasts (db w') = podcasts (db w)
  /\ episodes (db w') = episodes (db w)
  /\ episode_analyses (db w') = episode_analyses (db w)
  /\ digest_episodes (db w') = digest_episodes (db w) ++ added
  /\ llm_calls w' = llm_calls w
  /\ image_calls w' = image_calls w
  /\ (added = [] -> w' = w)
  /\ (added <> [] -> exists cs, commits w' = commits w ++ cs ++ [db w']).
















(** Two runs that end alike: the same result, the same tables and log, the
    same files removed and tasks queued. *)
Definition same_outcome (a b : result unit * World) : Prop :=
  fst a = fst b
  /\ db (snd a) = db (snd b)
  /\ commits (snd a) = commits (snd b)
  /\ removed (snd a) = removed (snd b)
  /\ tasks (snd a) = tasks (snd b)
  /\ llm_calls (snd a) = llm_calls (snd b)
  /\ image_calls (snd a) = image_calls (snd b).






(** [d'] is [d] with [F] applied to the rows of key [k]. *)
Definition touched (k : Z) (F : Episode.t -> Episode.t) (d d' : Db) : Prop :=
  episodes d' = map (fun e => if Episode.id e =? k then F e else e) (episodes d).







(** ** More on [process_episode] *)
(** The row [store_analysis] writes for a result. *)
Definition analysis_row (episode_id : Z) (r : Summarizer.StructuredAnalysis)
  : EpisodeAnalysis.t :=
  {| EpisodeAnalysis.episode_id := episode_id;
     EpisodeAnalysis.overview := Some (Summarizer.overview r);
     EpisodeAnalysis.key_points := Some (Summarizer.key_points r);
     EpisodeAnalysis.topics := Some (Summarizer.topics r);
     EpisodeAnalysis.themes := Some (Summarizer.themes r);
     EpisodeAnalysis.predictions := Some (Summarizer.predictions r);
     EpisodeAnalysis.recommendations := Some (Summarizer.recommendations r);
     EpisodeAnalysis.advice := Some (Summarizer.advice r);
     EpisodeAnalysis.notable_quotes := Some (Summarizer.notable_quotes r) |}.

(** The number of analysis rows of an episode. *)
Definition analysis_rows (k : Z) (d : Db) : nat :=
  List.length
    (filter (fun a => EpisodeAnalysis.episode_id a =? k) (episode_analyses d)).

(** What [if audio_path: cleanup(audio_path)] removes. *)
Definition cleaned (path : str) : list str :=
  match path with [] => [] | _ => [path] end.

Definition sample_analyze (transcript : str)
  : result Summarizer.StructuredAnalysis :=
  Return {| Summarizer.overview := lit "About harbors.";
            Summarizer.key_points := [lit "Fog is common."];
            Summarizer.topics := []; Summarizer.themes := [];
            Summarizer.predictions := []; Summarizer.recommendations := [];
            Summarizer.advice := []; Summarizer.notable_quotes := [];
            Summarizer.raw_summary := lit "A talk about harbors." |}.

Definition failing_download (url : str) : result str :=
  Raise (Exception (lit "404 Not Found")).

(** ** The requests of app/routers/analysis.py *)
(** The row a request for episode [episode_id] of podcast [podcast_id]
    reads. *)
Definition requested (podcast_id episode_id : Z) (d : Db) : option Episode.t :=
  find (fun e => (Episode.id e =? episode_id)
                 && (Episode.podcast_id e =? podcast_id)) (episodes d).

(** [analyze_episode] would start the analysis of this row. *)
Definition startable (e : Episode.t) : bool :=
  negb (Status_eqb (Episode.status e) processing)
  && negb (Status_eqb (Episode.status e) completed
           && Analysis.nonempty (Episode.summary e)).

Definition started (episode_id : Z) : AnalysisStatus :=
  {| as_episode_id := episode_id; as_status := processing;
     as_message := Some (lit "Analysis started") |}.

Definition in_progress (episode_id : Z) : AnalysisStatus :=
  {| as_episode_id := episode_id; as_status := processing;
     as_message := Some (lit "Analysis already in progress") |}.


Definition is_stuck (e : Episode.t) : bool :=
  Status_eqb (Episode.status e) processing
  || Status_eqb (Episode.status e) failed.

Definition reset_row (e : Episode.t) : Episode.t :=
  Episode.set_processing_step None (Episode.set_status pending e).

(** [f] applied to the rows whose key is in [ids]. *)
Definition on_ids (ids : list Z) (f : Episode.t -> Episode.t) (e : Episode.t)
  : Episode.t :=
  if Analysis.in_ids ids (Episode.id e) then f e else e.

(** What a loop over rows leaves: [f] on the rows of the keys [ids], the
    tasks [queued], and nothing else. *)
Definition rows_written (ids : list Z) (f : Episode.t -> Episode.t)
  (queued : list Z) (w w' : World) : Prop :=
  episodes (db w') = map (on_ids ids f) (episodes (db w))
  /\ podcasts (db w') = podcasts (db w)
  /\ episode_analyses (db w') = episode_analyses (db w)
  /\ digests (db w') = digests (db w)
  /\ digest_episodes (db w') = digest_episodes (db w)
  /\ commits w' = commits w
  /\ tasks w' = tasks w ++ queued.

(** Three rows: one being processed, one failed, one completed. *)
Definition episode_row (id : Z) (status : Status) (step : option str) : Episode.t :=
  {| Episode.id := id; Episode.podcast_id := 10;
     Episode.title := lit "Harbors";
     Episode.audio_url := lit "https://example.org/harbors.mp3";
     Episode.published_at := Some 1700000000; Episode.status := status;
     Episode.processing_step := step; Episode.transcript := None;
     Episode.summary := None |}.

Definition stuck_db : Db :=
  with_episodes
    [ episode_row 3 processing (Some (lit "transcribing")); episode_row 4 failed None;
      episode_row 5 completed None ]
    queue_db.

(** ** The episodes a batch request selects *)
(** The podcast filter of a request: absent or empty, it keeps every
    episode. *)
Definition wanted (request : BatchAnalysisRequest) (e : Episode.t) : bool :=
  match podcast_ids request with
  | Some ((_ :: _) as ids) => Analysis.in_ids ids (Episode.podcast_id e)
  | _ => true
  end.

(** The length in seconds of the fixed periods. *)
Definition window (p : TimePeriod) : option Z :=
  match p with
  | DAY => Some 86400
  | WEEK => Some 604800
  | TWO_WEEKS => Some 1209600
  | THREE_WEEKS => Some 1814400
  | MONTH => Some 2592000
  | LATEST | CUSTOM => None
  end.

(** [e] is dated, and no episode of its podcast in [all] is dated later. *)
Definition is_latest (all : list Episode.t) (e : Episode.t) : Prop :=
  exists t, Episode.published_at e = Some t
    /\ forall e' t', In e' all ->
         Episode.podcast_id e' = Episode.podcast_id e ->
         Episode.published_at e' = Some t' -> t' <= t.

Definition custom_request (start_date end_date : option datetime)
  : BatchAnalysisRequest :=
  {| period := CUSTOM; start_date := start_date; end_date := end_date;
     podcast_ids := None |}.

Definition week_request : BatchAnalysisRequest :=
  {| period := WEEK; start_date := None; end_date := None;
     podcast_ids := Some [10] |}.

(** ** What a task leaves alone *)
(** [m] relates every world it starts in to the world it ends in, whatever
    it returns or raises. *)
Definition keeps {A} (R : World -> World -> Prop) (m : M A) : Prop :=
  forall w, R w (snd (m w)).

Definition preorder (R : World -> World -> Prop) : Prop :=
  (forall w, R w w) /\ (forall a b c, R a b -> R b c -> R a c).

(** The rows of the other digests. *)
Definition other_digests (k : Z) (d : Db) : list Digest.t :=
  filter (fun g => negb (Digest.id g =? k)) (digests d).

(** The rows of the other episodes, and the analyses of the other
    episodes. *)
Definition other_episodes (k : Z) (d : Db) : list Episode.t :=
  filter (fun e => negb (Episode.id e =? k)) (episodes d).

Definition other_analyses (k : Z) (d : Db) : list EpisodeAnalysis.t :=
  filter (fun a => negb (EpisodeAnalysis.episode_id a =? k))
    (episode_analyses d).

(** What the work on digest [k] may change: the columns of that digest, and
    the links, by adding links of that digest at the end. *)
Definition digest_frame (k : Z) (w w' : World) : Prop :=
  podcasts (db w') = podcasts (db w)
  /\ episodes (db w') = episodes (db w)
  /\ episode_analyses (db w') = episode_analyses (db w)
  /\ map Digest.id (digests (db w')) = map Digest.id (digests (db w))
  /\ other_digests k (db w') = other_digests k (db w)
  /\ (exists added,
         digest_episodes (db w') = digest_episodes (db w) ++ added
         /\ Forall (fun l => DigestEpisode.digest_id l = k) added)
  /\ tasks w' = tasks w
  /\ removed w' = removed w.

(** What the work on episode [k] may change: the columns of that episode
    and its analysis. *)
Definition episode_frame (k : Z) (w w' : World) : Prop :=
  podcasts (db w') = podcasts (db w)
  /\ map Episode.id (episodes (db w')) = map Episode.id (episodes (db w))
  /\ other_episodes k (db w') = other_episodes k (db w)
  /\ other_analyses k (db w') = other_analyses k (db w)
  /\ digests (db w') = digests (db w)
  /\ digest_episodes (db w') = digest_episodes (db w)
  /\ tasks w' = tasks w
  /\ llm_calls w' = llm_calls w
  /\ image_calls w' = image_calls w.

(** *** A new image or nothing *)
(** The refusals of [regenerate_image]. *)
Definition refusals : list exn :=
  [HTTPException 404 (lit "Digest not found");
   HTTPException 400 (lit "No image prompt available");
   HTTPException 500 (lit "Image generation failed")].

(** ** Chunks at the edges *)
Definition blank_transcript : str := repeat " "%char (Z.to_nat 80001).

(** ** What the status request says after a task *)
(** The three awaited calls of a task, one after the other: the first
    exception ends them. *)
Definition stages (download_audio transcribe : str -> result str)
  (analyze : str -> result Summarizer.StructuredAnalysis) (audio_url : str)
  : result unit :=
  match download_audio audio_url with
  | Raise e => Raise e
  | Return path =>
      match transcribe path with
      | Raise e => Raise e
      | Return transcript =>
          match analyze transcript with
          | Raise e => Raise e
          | Return _ => Return tt
          end
      end
  end.

(** A task from its start to its end, nothing being served in between. *)
Definition whole_task (services : result unit)
  (download_audio transcribe : str -> result str)
  (analyze : str -> result Summarizer.StructuredAnalysis)
  (episode_id : Z) (w : World) : result unit * World :=
  EventLoop.finish
    (fst (EventLoop.process_episode services download_audio transcribe
            analyze episode_id w))
    (snd (EventLoop.process_episode services download_audio transcribe
            analyze episode_id w)).

(** The status reported for episode [episode_id] after a task whose
    services were built or not, and whose stages ended with [r]. *)
Definition reported (episode_id : Z) (services r : result unit)
  : AnalysisStatus :=
  match services with
  | Raise _ =>
      {| as_episode_id := episode_id; as_status := processing;
         as_message := Some (lit "Analysis in progress") |}
  | Return _ =>
      {| as_episode_id := episode_id;
         as_status :=
           match r with Return _ => completed | Raise _ => failed end;
         as_message :=
           Some (match r with
                 | Return _ => lit "Analysis complete"
                 | Raise e => lit "Error: " ++ str_of_exn e
                 end) |}
  end.

(** ** How the work on a digest ends *)
(** The summary of a returned result fits its column. *)
Definition stores_text (r : result DigestService.DigestResult) : bool :=
  match r with
  | Return x => is_text (DigestService.summary x)
  | Raise _ => true
  end.

(** What the response model [schemas.Digest] accepts in a list of strings,
    and in the list of trends. *)
Definition str_list (v : json) : bool :=
  match v with
  | JNull => true
  | JArr l => forallb (fun x => match x with JStr _ => true | _ => false end) l
  | _ => false
  end.

Definition dict_list (v : json) : bool :=
  match v with
  | JNull => true
  | JArr l => forallb (fun x => match x with JObj _ => true | _ => false end) l
  | _ => false
  end.

(** A digest row whose analysis fields are of the types the response model
    declares, so that [get_digest] can answer with it. *)
Definition presentable (g : Digest.t) : bool :=
  is_text (Digest.summary g)
  && str_list (Digest.common_themes g)
  && dict_list (Digest.trends g)
  && str_list (Digest.predictions g)
  && str_list (Digest.recommendations g)
  && str_list (Digest.key_advice g)
  && str_list (Digest.action_items g).

Definition presentable_at (k : Z) (d : Db) : bool :=
  match find_digest k d with
  | Some g => presentable g
  | None => true
  end.

(** What the synthesis may change besides the columns of digest rows: it may
    commit. *)
Definition progress_only (w w' : World) : Prop :=
  podcasts (db w') = podcasts (db w)
  /\ episodes (db w') = episodes (db w)
  /\ episode_analyses (db w') = episode_analyses (db w)
  /\ digest_episodes (db w') = digest_episodes (db w)
  /\ map Digest.id (digests (db w')) = map Digest.id (digests (db w))
  /\ exists cs, commits w' = commits w ++ cs.

(** ** Reading a digest after its task *)
(** The entry of an episode in the response of [get_digest]. *)
Definition episode_info (d : Db) (ep : Episode.t) : DigestEpisodeInfo :=
  {| dei_id := Episode.id ep;
     dei_title := Episode.title ep;
     dei_podcast_id := Episode.podcast_id ep;
     dei_podcast_title :=
       match find_podcast (Episode.podcast_id ep) d with
       | Some p => Podcast.title p
       | None => lit "Unknown"
       end;
     dei_published_at := Episode.published_at ep |}.

(** ** Durations written with colons *)
Definition colon : ascii := ":"%char.

Definition no_colon (x : str) : bool :=
  forallb (fun c => negb (Ascii.eqb c colon)) x.

(** ** A JSON object inside a response *)
Definition lacks (c : ascii) (x : str) : bool :=
  forallb (fun a => negb (Ascii.eqb a c)) x.

Definition open_brace : ascii := "{"%char.

Definition close_brace : ascii := "}"%char.

Definition backtick : ascii := "`"%char.

Definition sample_prose : str := lit "Here is the digest: ".

(** The tag after the opening fence: none, or [json]. *)
Definition is_tag (tag : str) : bool :=
  str_eqb tag [] || str_eqb tag (lit "json").

Definition newline : str := [ascii_of_nat 10].

(** ** The analysis of a transcript *)
(** [json_loads] rejects the text, when there is one. *)
Definition undecodable (json_loads : str -> result json) (x : option str)
  : Prop :=
  match x with
  | Some g => exists msg, json_loads g = Raise (JSONDecodeError msg)
  | None => True
  end.

(** What an analysis degrades to. *)
Definition degraded_fields (response : str) : SummarizerService.Fields :=
  {| SummarizerService.f_overview :=
       JStr (match response with
             | [] => lit "Analysis failed"
             | _ => slice_to 500 response
             end);
     SummarizerService.f_key_points := JArr [];
     SummarizerService.f_topics := JArr [];
     SummarizerService.f_themes := JArr [];
     SummarizerService.f_predictions := JArr [];
     SummarizerService.f_recommendations := JArr [];
     SummarizerService.f_advice := JArr [];
     SummarizerService.f_notable_quotes := JArr [];
     SummarizerService.f_raw_summary := JStr response |}.

(** The requests for the sections, numbered from [i + 1]. *)
Fixpoint sections (total i : nat) (chunks : list str)
  : list SummarizerService.Prompt :=
  match chunks with
  | [] => []
  | chunk :: rest =>
      SummarizerService.Section_ (i + 1) total chunk
      :: sections total (S i) rest
  end.

(** The characters the chunking loop counts for a list of words. *)
Definition counted (words : list str) : Z :=
  fold_right (fun w n => len w + 1 + n) 0 words.

Definition refuse_all (x : str) : result json :=
  Raise (JSONDecodeError (lit "Expecting value")).

Definition prose_model (p : SummarizerService.Prompt) : result str :=
  Return (lit "I cannot analyse this.").

Definition padded_transcript : str :=
  lit "harbor" ++ repeat " "%char (Z.to_nat 80000).

(** ** The object the analysis reads in a response *)
(** The inside of an object whose braces nest one level deep at most:
    every opening brace is closed before the next one opens.  [inner] tells
    whether a pair is open. *)
Fixpoint shallow (inner : bool) (x : str) : bool :=
  match x with
  | [] => negb inner
  | c :: r =>
      if Ascii.eqb c "{" then negb inner && shallow true r
      else if Ascii.eqb c "}" then inner && shallow false r
      else shallow inner r
  end.

Definition nested_text : str :=
  quoted (lit "summary") ++ lit ": " ++ quoted (lit "Harbors.") ++ lit ", "
  ++ quoted (lit "meta") ++ lit ": {" ++ quoted (lit "n") ++ lit ": 1}".

Definition nested_loads (x : str) : result json :=
  if str_eqb x (lit "{" ++ nested_text ++ lit "}")
  then Return (JObj [(lit "summary", JStr (lit "Harbors."));
                     (lit "meta", JObj [(lit "n", JNum 1)])])
  else Raise (JSONDecodeError (lit "Expecting value")).

(** ** The audio of a feed entry *)
(** The enclosure or link declares an audio type. *)
Definition is_audio (d : FeedParser.Attrs) : bool :=
  startswith (FeedParser.get_or d (lit "type") []) (lit "audio/").

(** The address ends, whatever its case, with one of the audio
    extensions. *)
Definition has_audio_extension (href : str) : bool :=
  existsb (fun ext => FeedParser.endswith (FeedParser.lower href) ext)
    FeedParser.audio_extensions.

(** An entry whose enclosure declares audio but gives no address, and
    whose link points to an audio file. *)
Definition bare_enclosure_entry : FeedParser.Entry :=
  {| FeedParser.enclosures := Some [[(lit "type", lit "audio/mpeg")]];
     FeedParser.links :=
       Some [[(lit "href", lit "https://example.org/harbors.mp3")]] |}.

Definition shouting_entry : FeedParser.Entry :=
  {| FeedParser.enclosures := Some [[(lit "type", lit "image/png");
                                     (lit "href", lit "cover.png")]];
     FeedParser.links :=
       Some [[(lit "rel", lit "alternate");
              (lit "href", lit "https://example.org/page")];
             [(lit "href", lit "HTTPS://EXAMPLE.ORG/HARBORS.MP3")]] |}.

(* ================================================================== *)
(** * Theorems *)
(* ================================================================== *)

Lemma int_raises_ValueError (x : str) (e : exn) :
  int x = Raise e -> is_ValueError e = true.
Proof.
  unfold int.
  destruct (match int_strip x with
            | "+"%char :: r => (1, r)
            | "-"%char :: r => (-1, r)
            | _ => (1, int_strip x)
            end) as [sign digits].
  destruct (int_digits AtStart 0 0%N digits) as [[v n]|].
  - destruct (int_max_str_digits <? n)%N; intros H; inversion H; reflexivity.
  - intros H; inversion H; reflexivity.
Qed.

Lemma is_int_literal_false (x : str) :
  is_int_literal x = false -> exists e, int x = Raise e /\ is_ValueError e = true.
Proof.
  unfold is_int_literal. destruct (int x) as [n|e] eqn:E; [discriminate|].
  intros _. exists e. split; [reflexivity|]. eapply int_raises_ValueError; eauto.
Qed.

Lemma mapM_int_raises (l : list str) :
  forallb is_int_literal l = false ->
  exists e, mapM int l = Raise e /\ is_ValueError e = true.
Proof.
  induction l as [|a l IH]; simpl; [discriminate|].
  unfold is_int_literal at 1.
  destruct (int a) as [n|e] eqn:E; simpl.
  - intros H. destruct (IH H) as [e [-> He]]. simpl. eauto.
  - intros _. exists e. split; [reflexivity|]. eapply int_raises_ValueError; eauto.
Qed.

Lemma mapM_int_length (l : list str) (r : list Z) :
  mapM int l = Return r -> List.length r = List.length l.
Proof.
  revert r. induction l as [|a l IH]; simpl; intros r H.
  - inversion H. reflexivity.
  - destruct (int a); simpl in H; [|discriminate].
    destruct (mapM int l); simpl in H; [|discriminate].
    inversion H. simpl. f_equal. apply IH. reflexivity.
Qed.

Lemma mapM_int_cases (l : list str) :
  (exists r, mapM int l = Return r /\ List.length r = List.length l)
  \/ (exists e, mapM int l = Raise e /\ is_ValueError e = true).
Proof.
  destruct (forallb is_int_literal l) eqn:F.
  - left. induction l as [|a l IH]; simpl in *.
    + eauto.
    + apply andb_prop in F. destruct F as [Fa Fl].
      unfold is_int_literal in Fa. destruct (int a) as [n|]; [|discriminate].
      destruct (IH Fl) as [r [-> L]]. simpl. eexists; split; [reflexivity|].
      simpl. congruence.
  - right. apply mapM_int_raises. exact F.
Qed.

Lemma parse_duration_returns (x : str) :
  exists r, FeedParser.parse_duration x = Return r.
Proof.
  unfold FeedParser.parse_duration.
  destruct x as [|c x]; [eauto|].
  set (y := c :: x).
  unfold try_except_ValueError at 1.
  destruct (int y) as [n|e] eqn:E; unfold Py.bind at 1; [eauto|].
  rewrite (int_raises_ValueError _ _ E).
  destruct (split_on ":" y) as [|a [|b [|c' [|d l]]]];
    unfold try_except_ValueError, Py.bind; eauto.
  - destruct (mapM_int_cases [a; b]) as [[r [-> L]]|[e' [-> He]]].
    + destruct r as [|m [|s0 [|? ?]]]; simpl in L; try discriminate. eauto.
    + rewrite He. eauto.
  - destruct (mapM_int_cases [a; b; c']) as [[r [-> L]]|[e' [-> He]]].
    + destruct r as [|h [|m [|s0 [|? ?]]]]; simpl in L; try discriminate. eauto.
    + rewrite He. eauto.
Qed.

Lemma parse_duration_invalid (x : str) :
  is_int_literal x = false -> is_colon_ints x = false ->
  FeedParser.parse_duration x = Return None.
Proof.
  intros Hi Hc.
  unfold FeedParser.parse_duration.
  destruct x as [|c x]; [reflexivity|].
  set (y := c :: x) in *.
  destruct (is_int_literal_false _ Hi) as [e [E He]].
  unfold try_except_ValueError at 1. rewrite E. unfold Py.bind at 1. rewrite He.
  unfold is_colon_ints in Hc.
  destruct (split_on ":" y) as [|a [|b [|c' [|d l]]]];
    unfold try_except_ValueError, Py.bind; try reflexivity.
  - simpl in Hc.
    destruct (mapM_int_raises [a; b]) as [e' [-> He']]; [exact Hc|].
    rewrite He'. reflexivity.
  - simpl in Hc.
    destruct (mapM_int_raises [a; b; c']) as [e' [-> He']]; [exact Hc|].
    rewrite He'. reflexivity.
Qed.

(** C9.  [parse_duration] maps ["125"] to 125, ["02:05"] to 125 and
    ["01:02:05"] to 3725; it returns [None] on every string that is neither
    an integer literal nor two or three colon-separated integer literals;
    and it returns, without raising, on every string. *)
Theorem parse_duration_spec :
  FeedParser.parse_duration (s"125") = Return (Some 125)
  /\ FeedParser.parse_duration (s"02:05") = Return (Some 125)
  /\ FeedParser.parse_duration (s"01:02:05") = Return (Some 3725)
  /\ (forall x, is_int_literal x = false -> is_colon_ints x = false ->
             FeedParser.parse_duration x = Return None)
  /\ (forall x, exists r, FeedParser.parse_duration x = Return r).
Proof.
  split; [vm_compute; reflexivity|].
  split; [vm_compute; reflexivity|].
  split; [vm_compute; reflexivity|].
  split; [exact parse_duration_invalid | exact parse_duration_returns].
Qed.

Lemma len_app (a b : str) : len (a ++ b) = len a + len b.
Proof. unfold len. rewrite length_app. lia. Qed.

Lemma len_nonneg (a : str) : 0 <= len a.
Proof. unfold len. lia. Qed.

Lemma join_snoc (cur : list str) (w : str) :
  join space (cur ++ [w]) =
  match cur with [] => w | _ => join space cur ++ space ++ w end.
Proof.
  induction cur as [|a cur IH]; [reflexivity|].
  destruct cur as [|b cur].
  - reflexivity.
  - change (join space ((a :: b :: cur) ++ [w]))
      with (a ++ space ++ join space ((b :: cur) ++ [w])).
    rewrite IH.
    change (join space (a :: b :: cur)) with (a ++ space ++ join space (b :: cur)).
    rewrite <- !app_assoc. reflexivity.
Qed.

(** The loop only ever closes a chunk on a group of whole words. *)
Lemma chunk_loop_groups (cs : Z) (words chunks cur : list str) (cl : Z) :
  exists groups,
    fst (Summarizer.chunk_loop cs words chunks cur cl)
      = chunks ++ map (join space) groups
    /\ List.concat groups ++ snd (Summarizer.chunk_loop cs words chunks cur cl)
      = cur ++ words.
Proof.
  revert chunks cur cl.
  induction words as [|word rest IH]; intros chunks cur cl;
    cbn [Summarizer.chunk_loop].
  - exists []. simpl. rewrite !app_nil_r. auto.
  - fold space. destruct (cl + (len word + 1) >? cs).
    + destruct (IH (chunks ++ [join space cur]) [word] (len word + 1))
        as [gs [H1 H2]].
      exists (cur :: gs). split.
      * rewrite H1. rewrite <- app_assoc. reflexivity.
      * cbn [List.concat]. rewrite <- app_assoc. rewrite H2. reflexivity.
    + destruct (IH chunks (cur ++ [word]) (cl + (len word + 1))) as [gs [H1 H2]].
      exists gs. split; [exact H1|].
      rewrite H2. rewrite <- app_assoc. reflexivity.
Qed.

Lemma chunk_transcript_groups (cs : Z) (transcript : str) :
  cs < len transcript ->
  exists groups,
    Summarizer.chunk_transcript_with cs transcript = map (join space) groups
    /\ List.concat groups = split_ws transcript.
Proof.
  intros Hlong. unfold Summarizer.chunk_transcript_with.
  destruct (len transcript <=? cs) eqn:E; [apply Z.leb_le in E; lia|].
  destruct (chunk_loop_groups cs (split_ws transcript) [] [] 0) as [gs [H1 H2]].
  destruct (Summarizer.chunk_loop cs (split_ws transcript) [] [] 0)
    as [chunks cur]. cbn [fst snd app] in H1, H2.
  destruct cur as [|w cur].
  - exists gs. rewrite app_nil_r in H2. auto.
  - exists (gs ++ [w :: cur]). split.
    + rewrite H1, map_app. reflexivity.
    + rewrite List.concat_app. cbn [List.concat]. rewrite app_nil_r. exact H2.
Qed.

(** What [split] returns are words: not empty, no white space inside. *)
Lemma split_ws_aux_words (cur x : str) :
  forallb (fun c => negb (is_space c)) cur = true ->
  Forall (fun w => is_word_text w = true) (split_ws_aux cur x).
Proof.
  revert cur. induction x as [|c r IH]; intros cur Hcur; simpl.
  - destruct cur as [|a cur]; [constructor|].
    constructor; [|constructor].
    unfold is_word_text.
    assert (forallb (fun c => negb (is_space c)) (rev (a :: cur)) = true) as H.
    { apply forallb_forall. intros y Hy. apply in_rev in Hy.
      eapply forallb_forall in Hcur; eauto. }
    destruct (rev (a :: cur)) eqn:R; [|exact H].
    apply (f_equal (@List.length _)) in R. rewrite length_rev in R. discriminate.
  - destruct (is_space c) eqn:S.
    + destruct cur as [|a cur]; [apply IH; reflexivity|].
      constructor; [|apply IH; reflexivity].
      unfold is_word_text.
      assert (forallb (fun c => negb (is_space c)) (rev (a :: cur)) = true) as H.
      { apply forallb_forall. intros y Hy. apply in_rev in Hy.
        eapply forallb_forall in Hcur; eauto. }
      destruct (rev (a :: cur)) eqn:R; [|exact H].
      apply (f_equal (@List.length _)) in R. rewrite length_rev in R. discriminate.
    + apply IH. simpl. rewrite S. exact Hcur.
Qed.

Lemma split_ws_words (x : str) :
  Forall (fun w => is_word_text w = true) (split_ws x).
Proof. apply split_ws_aux_words. reflexivity. Qed.

Lemma split_ws_aux_app (w cur rest : str) :
  forallb (fun c => negb (is_space c)) w = true ->
  split_ws_aux cur (w ++ rest) = split_ws_aux (rev w ++ cur) rest.
Proof.
  revert cur. induction w as [|c w IH]; intros cur H; simpl in *; [reflexivity|].
  apply andb_prop in H. destruct H as [Hc Hw].
  apply negb_true_iff in Hc. rewrite Hc. rewrite IH by exact Hw.
  rewrite <- app_assoc. reflexivity.
Qed.

Lemma is_word_text_inv (w : str) :
  is_word_text w = true ->
  w <> [] /\ forallb (fun c => negb (is_space c)) w = true.
Proof. destruct w; simpl; [discriminate|]. intros H. split; [discriminate|exact H]. Qed.

(** Joining words with one space and splitting again gives the words back. *)
Lemma split_ws_join (g : list str) :
  Forall (fun w => is_word_text w = true) g ->
  split_ws (join space g) = g.
Proof.
  induction g as [|w g IH]; intros H; [reflexivity|].
  inversion H as [|? ? Hw Hg]; subst.
  destruct (is_word_text_inv _ Hw) as [Hne Hns].
  unfold split_ws in *.
  destruct g as [|w' g].
  - simpl. rewrite <- (app_nil_r w) at 1.
    rewrite split_ws_aux_app by exact Hns. simpl. rewrite app_nil_r.
    destruct (rev w) eqn:R.
    + apply (f_equal (@rev _)) in R. rewrite rev_involutive in R. contradiction.
    + rewrite <- R, rev_involutive. reflexivity.
  - change (join space (w :: w' :: g)) with (w ++ space ++ join space (w' :: g)).
    rewrite split_ws_aux_app by exact Hns. rewrite app_nil_r.
    simpl. 
    destruct (rev w) eqn:R.
    + apply (f_equal (@rev _)) in R. rewrite rev_involutive in R. contradiction.
    + rewrite <- R, rev_involutive. f_equal. apply IH. exact Hg.
Qed.

Lemma Forall_concat_inv {A} (P : A -> Prop) (gs : list (list A)) :
  Forall P (List.concat gs) -> Forall (Forall P) gs.
Proof.
  induction gs as [|g gs IH]; simpl; intros H; [constructor|].
  apply Forall_app in H. destruct H. constructor; auto.
Qed.

Lemma chunk_words_preserved (cs : Z) (transcript : str) :
  cs < len transcript ->
  List.concat (map split_ws (Summarizer.chunk_transcript_with cs transcript))
  = split_ws transcript.
Proof.
  intros Hlong.
  destruct (chunk_transcript_groups cs transcript Hlong) as [gs [-> Hc]].
  rewrite <- Hc.
  assert (Forall (Forall (fun w => is_word_text w = true)) gs) as Hgs.
  { apply Forall_concat_inv. rewrite Hc. apply split_ws_words. }
  clear Hc. induction gs as [|g gs IH]; [reflexivity|].
  inversion Hgs; subst. simpl. rewrite split_ws_join by assumption.
  f_equal. apply IH. assumption.
Qed.

Lemma len_join_snoc (cur : list str) (w : str) :
  len (join space (cur ++ [w])) =
  match cur with [] => len w | _ => len (join space cur) + 1 + len w end.
Proof.
  rewrite join_snoc. destruct cur; [reflexivity|].
  rewrite !len_app. change (len space) with 1. lia.
Qed.

(** The loop keeps every closed chunk, and the open one, within the
    threshold as long as no single word exceeds it. *)
Lemma chunk_loop_bound (cs : Z) (words chunks cur : list str) (cl : Z) :
  Forall (fun w => len w <= cs) words ->
  Forall (fun c => len c <= cs) chunks ->
  len (join space cur) <= cs ->
  cl = match cur with [] => 0 | _ => len (join space cur) + 1 end ->
  Forall (fun c => len c <= cs)
    (fst (Summarizer.chunk_loop cs words chunks cur cl))
  /\ len (join space (snd (Summarizer.chunk_loop cs words chunks cur cl))) <= cs.
Proof.
  revert chunks cur cl.
  induction words as [|word rest IH]; intros chunks cur cl Hw Hc Hcur Hcl;
    cbn [Summarizer.chunk_loop].
  - auto.
  - fold space. apply Forall_cons_iff in Hw. destruct Hw as [Hword Hrest].
    destruct (cl + (len word + 1) >? cs) eqn:E.
    + apply IH; auto.
      apply Forall_app. split; [exact Hc|]. constructor; [exact Hcur|constructor].
    + assert (cl + (len word + 1) <= cs) as Hle.
      { destruct (Z.gtb_spec (cl + (len word + 1)) cs); [discriminate|lia]. }
      pose proof (len_join_snoc cur word) as Hs.
      apply IH; auto.
      * destruct cur; cbv iota in Hs, Hcl; lia.
      * destruct cur as [|a cur]; cbn [app]; cbv iota in Hs, Hcl |- *.
        -- change (join space [word]) with word. lia.
        -- change ((a :: cur) ++ [word]) with (a :: cur ++ [word]) in Hs. lia.
Qed.

Lemma chunk_transcript_bound (cs : Z) (transcript : str) :
  Forall (fun w => len w <= cs) (split_ws transcript) ->
  Forall (fun c => len c <= cs) (Summarizer.chunk_transcript_with cs transcript).
Proof.
  intros Hw. unfold Summarizer.chunk_transcript_with.
  destruct (len transcript <=? cs) eqn:E.
  - apply Z.leb_le in E. constructor; [exact E|constructor].
  - destruct (split_ws transcript) as [|w ws] eqn:W; [constructor|].
    rewrite <- W in *.
    assert (0 <= cs) as Hcs.
    { rewrite W in Hw. apply Forall_cons_iff in Hw. destruct Hw as [Hw0 _].
      pose proof (len_nonneg w). lia. }
    destruct (chunk_loop_bound cs (split_ws transcript) [] [] 0) as [H1 H2]; auto.
    destruct (Summarizer.chunk_loop cs (split_ws transcript) [] [] 0)
      as [chunks cur]. cbn [fst snd] in *.
    destruct cur as [|w' cur]; [exact H1|].
    apply Forall_app. split; [exact H1|]. constructor; [exact H2|constructor].
Qed.

(** A transcript that is one word longer than the threshold: the loop closes
    the still empty chunk and then keeps the word whole. *)
Lemma chunk_single_word (cs : Z) (w : str) :
  is_word_text w = true -> cs < len w ->
  Summarizer.chunk_transcript_with cs w = [[]; w].
Proof.
  intros Hw Hlong.
  assert (split_ws w = [w]) as Hs.
  { apply (split_ws_join [w]). constructor; [exact Hw|constructor]. }
  unfold Summarizer.chunk_transcript_with.
  destruct (len w <=? cs) eqn:E; [apply Z.leb_le in E; lia|].
  rewrite Hs. cbn [Summarizer.chunk_loop].
  destruct (0 + (len w + 1) >? cs) eqn:G.
  - reflexivity.
  - destruct (Z.gtb_spec (0 + (len w + 1)) cs); [discriminate|lia].
Qed.

(** C4 as stated fails: a transcript that is one word of 80001 characters
    yields a chunk longer than the threshold. *)
Lemma chunk_exceeds_threshold :
  exists c, In c (Summarizer._chunk_transcript long_word)
            /\ Summarizer.CHUNK_SIZE < len c.
Proof.
  assert (Summarizer.CHUNK_SIZE < len long_word) as Hlong
    by (apply Z.ltb_lt; vm_compute; reflexivity).
  exists long_word. split; [|exact Hlong].
  unfold Summarizer._chunk_transcript.
  rewrite chunk_single_word; [right; left; reflexivity| |exact Hlong].
  vm_compute. reflexivity.
Qed.

(** C4, as the code has it.  A transcript not longer than the threshold is
    returned as the single chunk.  A longer one is cut between words only:
    the chunks are groups of whole words joined by one space, and the words
    of the chunks, in order, are the words of the transcript.  When no word
    is longer than the threshold, no chunk is. *)
Theorem chunk_transcript_spec (transcript : str) :
  (len transcript <= Summarizer.CHUNK_SIZE ->
     Summarizer._chunk_transcript transcript = [transcript])
  /\ (Summarizer.CHUNK_SIZE < len transcript ->
        (exists groups,
            Summarizer._chunk_transcript transcript = map (join (lit " ")) groups
            /\ List.concat groups = split_ws transcript)
        /\ List.concat (map split_ws (Summarizer._chunk_transcript transcript))
           = split_ws transcript)
  /\ (Forall (fun w => len w <= Summarizer.CHUNK_SIZE) (split_ws transcript) ->
        Forall (fun c => len c <= Summarizer.CHUNK_SIZE)
          (Summarizer._chunk_transcript transcript)).
Proof.
  unfold Summarizer._chunk_transcript. repeat split.
  - intros H. unfold Summarizer.chunk_transcript_with.
    apply Z.leb_le in H. rewrite H. reflexivity.
  - apply chunk_transcript_groups; assumption.
  - apply chunk_words_preserved; assumption.
  - apply chunk_transcript_bound.
Qed.

(** C5 fails on a tie: when two episodes of a podcast share the latest
    publication date the selection returns both, and a podcast whose
    episodes have no date contributes none. *)
Lemma latest_selection_on_tie :
  map (fun e => (Episode.podcast_id e, Episode.id e))
      (Analysis.batch_query 1700000500 latest_request tie_db)
  = [(10, 1); (10, 2)].
Proof. vm_compute. reflexivity. Qed.

(** ** Artwork regeneration *)
Lemma strip_prefix_app (p y : str) :
  DigestService.strip_prefix p (p ++ y) = Some y.
Proof.
  induction p as [|a p IH]; simpl; [destruct y; reflexivity|].
  rewrite Ascii.eqb_refl. exact IH.
Qed.

Ltac run_session :=
  cbv beta iota zeta delta
    [Session.bind Session.ret Session.raise Session.lift Session.get_db
     Session.modify Session.commit Session.add_task Session.cleanup
     Session.count_llm_call Session.record_image_call
     Session.assign_audio_path Session.read_audio_path
     Session.try_except Session.try_finally];
  cbn [Session.db Session.commits Session.removed Session.tasks
       Session.llm_calls Session.image_calls Session.audio_path].

(** C2 fails on a prompt of the digest service itself.  For J.M.W. Turner,
    the eighth artist of its palette, [generate_digest] writes
    [style of J.M.W. Turner.]; the pattern of [regenerate_image] ends at the
    first full stop, after the initial J, so the new prompt reads
    [style of Klee.M.W. Turner.]: the old artist's name is still in it.  And
    the draw is not kept from the artist the prompt already names: on a
    prompt after Monet it can select Monet, and the new prompt is the old
    one. *)
Theorem regenerate_image_keeps_initials :
  (* the digest task draws Turner and stores the prompt it composed *)
  fst (random_choice 7 DigestService.ARTISTS ([], [])) = lit "J.M.W. Turner"
  /\ fst (Digests.process_digest sample_loads sample_complete sample_key
            sample_imagen 7 sample_repr sample_isoformat 8 (init library_db))
     = Return tt
  /\ option_map Digest.status (find_digest 8 (db turner_world))
     = Some completed
  /\ option_map Digest.image_prompt (find_digest 8 (db turner_world))
     = Some (Some turner_prompt)
  (* regeneration draws Klee and replaces the first initial only *)
  /\ random_choice 5 Digests.ARTISTS [] = lit "Klee"
  /\ fst (Digests.regenerate_image sample_key sample_imagen 5 8 turner_world)
     = Return (lit "data:image/png;base64,BBBB", turner_prompt_after_klee)
  /\ option_map Digest.image_prompt
       (find_digest 8
          (db (snd (Digests.regenerate_image sample_key sample_imagen 5 8
                      turner_world))))
     = Some (Some turner_prompt_after_klee)
  (* regeneration may draw the artist the prompt already names *)
  /\ Digest.image_prompt sample_digest = Some monet_prompt
  /\ random_choice 1 Digests.ARTISTS [] = lit "Monet"
  /\ fst (Digests.regenerate_image sample_key sample_imagen 1 7
            (init sample_db))
     = Return (lit "data:image/png;base64,BBBB", monet_prompt).
Proof. repeat split; vm_compute; reflexivity. Qed.

Lemma try_loads_fails json_loads (x : str) (rest : result json) :
  decode_fails json_loads x ->
  DigestService.try_loads json_loads x rest = rest.
Proof.
  intros [msg H]. unfold DigestService.try_loads. rewrite H. reflexivity.
Qed.

Lemma parse_json_response_fails json_loads (response : str) :
  extraction_fails json_loads response ->
  DigestService._parse_json_response json_loads response = Return (JObj []).
Proof.
  intros [H1 [H2 H3]]. unfold DigestService._parse_json_response.
  rewrite try_loads_fails by exact H1.
  assert (match DigestService.brace_span response with
          | Some g => DigestService.try_loads json_loads g (Return (JObj []))
          | None => Return (JObj [])
          end = Return (JObj [])) as Hb.
  { destruct (DigestService.brace_span response) as [g|]; [|reflexivity].
    apply try_loads_fails. apply H3. reflexivity. }
  rewrite Hb.
  destruct (DigestService.fenced_block response) as [g|]; [|reflexivity].
  apply try_loads_fails. apply H2. reflexivity.
Qed.

(** C3, as the code has it.  When the model's response decodes neither
    directly, nor through its fenced block, nor through its brace span,
    [_parse_json_response] returns the empty dictionary and
    [generate_digest] returns without raising, after one model call: the
    summary is the empty string, every list is empty and there is no
    image. *)
Theorem generate_digest_degrades
  (json_loads : str -> result json)
  (complete : list DigestService.EpisodeData -> datetime -> datetime -> result str)
  (google_api_key : option str) (imagen : str -> option str) (draw : nat)
  (repr : json -> str)
  (episodes_with_analysis : list DigestService.EpisodeData)
  (period_start period_end : datetime) (generate_image : bool)
  (progress_callback : option (str -> M unit)) (response : str) (w : World) :
  episodes_with_analysis <> [] ->
  complete episodes_with_analysis period_start period_end = Return response ->
  extraction_fails json_loads response ->
  DigestService._parse_json_response json_loads response = Return (JObj [])
  /\ DigestService.generate_digest json_loads complete google_api_key imagen
       draw repr episodes_with_analysis period_start period_end generate_image
       progress_callback w
     = (Return degraded_result, with_llm_call w).
Proof.
  intros Hne Hc Hf.
  pose proof (parse_json_response_fails json_loads response Hf) as Hp.
  split; [exact Hp|].
  unfold DigestService.generate_digest.
  destruct episodes_with_analysis as [|ep eps]; [contradiction|].
  run_session. rewrite Hc, Hp.
  destruct generate_image; reflexivity.
Qed.

(** The theorem of C3 on a response in plain prose. *)
Lemma generate_digest_degrades_witness :
  DigestService.generate_digest reject_all (fun _ _ _ => Return prose_response)
    None (fun _ => None) 0 (fun _ => []) one_episode 0 604800 true None
    (init empty_db)
  = (Return degraded_result, with_llm_call (init empty_db)).
Proof.
  apply (generate_digest_degrades reject_all (fun _ _ _ => Return prose_response)
           None (fun _ => None) 0%nat (fun _ => []) one_episode 0 604800 true
           None prose_response (init empty_db)).
  - discriminate.
  - reflexivity.
  - split; [|split].
    + exists (lit "Expecting value"). reflexivity.
    + intros g H. exists (lit "Expecting value"). reflexivity.
    + intros g H. exists (lit "Expecting value"). reflexivity.
Defined.

(** The summary of the degraded result is the empty string, whatever the
    decoder, as soon as it rejects the prose. *)
(** C3 as stated fails: the summary of the degraded result is the empty
    string, not the (truncated) text of the response. *)
Lemma degraded_summary_is_empty :
  DigestService.fenced_block prose_response = None
  /\ DigestService.brace_span prose_response = None
  /\ forall json_loads complete google_api_key imagen draw repr w,
       decode_fails json_loads prose_response ->
       complete one_episode 0 604800 = Return prose_response ->
       exists r w',
         DigestService.generate_digest json_loads complete google_api_key
           imagen draw repr one_episode 0 604800 true None w = (Return r, w')
         /\ DigestService.summary r = JStr []
         /\ forall n, (0 < n)%nat ->
                      DigestService.summary r <> JStr (slice_to n prose_response).
Proof.
  split; [vm_compute; reflexivity|]. split; [vm_compute; reflexivity|].
  intros json_loads complete key imagen draw repr w Hd Hc.
  assert (extraction_fails json_loads prose_response) as Hf.
  { split; [exact Hd|]. split; intros g H; vm_compute in H; discriminate. }
  exists degraded_result, (with_llm_call w). split.
  { unfold DigestService.generate_digest, one_episode. run_session.
    fold one_episode. rewrite Hc, (parse_json_response_fails _ _ Hf).
    reflexivity. }
  split; [reflexivity|].
  intros n Hn. destruct n as [|n]; [lia|]. discriminate.
Qed.

Ltac run_steps :=
  cbv beta iota zeta delta
    [Session.bind Session.ret Session.raise Session.lift Session.get_db
     Session.modify Session.commit Session.add_task Session.cleanup
     Session.count_llm_call Session.record_image_call
     Session.assign_audio_path Session.read_audio_path
     Session.try_except Session.try_finally
     Session.db Session.commits Session.removed Session.tasks
     Session.llm_calls Session.image_calls Session.audio_path].

(** ** Rows and their updates *)
Lemma find_episode_update (k : Z) (f : Episode.t -> Episode.t) (d : Db) :
  (forall e, Episode.id (f e) = Episode.id e) ->
  find_episode k (update_episode k f d) = option_map f (find_episode k d).
Proof.
  intros Hid. unfold find_episode, update_episode, with_episodes.
  cbn [episodes].
  induction (episodes d) as [|e l IH]; [reflexivity|].
  cbn [map find].
  destruct (Episode.id e =? k) eqn:E.
  - rewrite Hid, E. reflexivity.
  - rewrite E. exact IH.
Qed.

Ltac find_updates :=
  repeat (rewrite find_episode_update by (intros; reflexivity)).

(** ** A failure of the analysis stage *)
(** C7.  When the download and the transcription succeed and the analysis
    raises [e], [process_episode] re-raises [e] and the episode ends
    [failed], with no step, with summary ["Error: " ++ str(e)] and with the
    transcript; the transcript was committed on its own, at the end of the
    transcription stage, and the final state is committed too. *)
Theorem analysis_failure_keeps_transcript
  (download_audio transcribe : str -> result str)
  (analyze : str -> result Summarizer.StructuredAnalysis)
  (w : World) (episode_id : Z) (episode : Episode.t)
  (path transcript : str) (e : exn) :
  find_episode episode_id (db w) = Some episode ->
  download_audio (Episode.audio_url episode) = Return path ->
  transcribe path = Return transcript ->
  analyze transcript = Raise e ->
  exists w' final,
    Analysis.process_episode download_audio transcribe analyze episode_id w
      = (Raise e, w')
    /\ find_episode episode_id (db w') = Some final
    /\ Episode.status final = failed
    /\ Episode.processing_step final = None
    /\ Episode.summary final = Some (lit "Error: " ++ str_of_exn e)
    /\ Episode.transcript final = Some transcript
    /\ (exists before stored after at_save,
           commits w' = commits w ++ before ++ stored :: after ++ [db w']
           /\ find_episode episode_id stored = Some at_save
           /\ Episode.transcript at_save = Some transcript
           /\ Episode.status at_save = processing
           /\ Episode.processing_step at_save = Some (lit "transcribing")).
Proof.
  intros Hfind Hd Ht Ha. destruct w as [d cs rm ts lc ic ap]. cbn [db] in Hfind.
  unfold Analysis.process_episode, Analysis.set_episode. run_steps.
  rewrite Hfind. run_steps. rewrite Hd. run_steps. rewrite Ht. run_steps.
  rewrite Ha. run_steps.
  destruct path as [|c path]; run_steps.
  all: eexists; eexists; split; [reflexivity|]; cbn [db commits].
  all: find_updates; rewrite Hfind; cbn [option_map].
  all: split; [reflexivity|].
  all: do 4 (split; [reflexivity|]).
  all: repeat rewrite <- app_assoc; cbn [app].
  all: eexists [_; _; _]; eexists; eexists [_]; eexists.
  all: cbn [app]; split; [reflexivity|].
  all: find_updates; rewrite Hfind; cbn [option_map].
  all: repeat split; reflexivity.
Qed.

(** The theorem of C7 on an analysis service that is overloaded. *)
Lemma analysis_failure_witness :
  exists w' final,
    Analysis.process_episode sample_download sample_transcribe failing_analyze
      3 (init queue_db)
    = (Raise (Exception (lit "overloaded")), w')
    /\ find_episode 3 (db w') = Some final
    /\ Episode.status final = failed
    /\ Episode.summary final = Some (lit "Error: overloaded")
    /\ Episode.transcript final = Some (lit "Welcome to Sea Talk.").
Proof.
  destruct (analysis_failure_keeps_transcript sample_download
              sample_transcribe failing_analyze (init queue_db) 3
              pending_episode (lit "/tmp/harbors.mp3")
              (lit "Welcome to Sea Talk.") (Exception (lit "overloaded"))
              eq_refl eq_refl eq_refl eq_refl)
    as (w' & final & H1 & H2 & H3 & _ & H5 & H6 & _).
  exists w', final. repeat split; assumption.
Defined.

(** ** Digest rows *)
Lemma find_digest_update (k : Z) (f : Digest.t -> Digest.t) (d : Db) :
  (forall g, Digest.id (f g) = Digest.id g) ->
  find_digest k (update_digest k f d) = option_map f (find_digest k d).
Proof.
  intros Hid. unfold find_digest, update_digest, with_digests.
  cbn [digests].
  induction (digests d) as [|g l IH]; [reflexivity|].
  cbn [map find].
  destruct (Digest.id g =? k) eqn:E.
  - rewrite Hid, E. reflexivity.
  - rewrite E. exact IH.
Qed.

Lemma find_digest_with_digest_episodes (k : Z) (v : list DigestEpisode.t)
  (d : Db) :
  find_digest k (with_digest_episodes v d) = find_digest k d.
Proof. reflexivity. Qed.

Ltac find_digests :=
  repeat (rewrite find_digest_update by (intros; reflexivity)).

Lemma same_content_refl (g : Digest.t) : same_content g g.
Proof. intros st step detail. reflexivity. Qed.

Lemma same_content_trans (a b c : Digest.t) :
  same_content a b -> same_content b c -> same_content a c.
Proof. intros H1 H2 st step detail. rewrite H1. apply H2. Qed.

Lemma same_content_progress (g : Digest.t) (step detail : option str) :
  same_content g (Digest.set_progress step detail g).
Proof. intros st step' detail'. reflexivity. Qed.

Lemma same_content_status (g : Digest.t) (st : Status) :
  same_content g (Digest.set_status st g).
Proof. intros st' step' detail'. reflexivity. Qed.

(** ** The collection loop *)
Lemma collected_ext (isoformat : datetime -> str) (d d' : Db)
  (eps : list Episode.t) :
  podcasts d' = podcasts d ->
  episode_analyses d' = episode_analyses d ->
  collected isoformat d' eps = collected isoformat d eps.
Proof.
  intros Hp Ha. unfold collected, Digests.episode_data, find_analysis, find_podcast.
  rewrite Hp, Ha. reflexivity.
Qed.

Lemma links_ext (digest_id : Z) (d d' : Db) (eps : list Episode.t) :
  episode_analyses d' = episode_analyses d ->
  links digest_id d' eps = links digest_id d eps.
Proof.
  intros Ha. unfold links, has_analysis, find_analysis. rewrite Ha. reflexivity.
Qed.

Lemma collected_length (isoformat : datetime -> str) (d : Db)
  (eps : list Episode.t) :
  List.length (collected isoformat d eps)
  = List.length (filter (has_analysis d) eps).
Proof.
  unfold collected, has_analysis.
  induction eps as [|ep eps IH]; [reflexivity|].
  cbn [flat_map filter].
  destruct (find_analysis (Episode.id ep) d); cbn [List.length app]; rewrite IH;
    reflexivity.
Qed.

Lemma collected_cons (isoformat : datetime -> str) (d : Db) (ep : Episode.t)
  (eps : list Episode.t) :
  collected isoformat d (ep :: eps)
  = match find_analysis (Episode.id ep) d with
    | Some a => [Digests.episode_data isoformat d ep a]
    | None => []
    end ++ collected isoformat d eps.
Proof. reflexivity. Qed.

Lemma links_cons (digest_id : Z) (d : Db) (ep : Episode.t)
  (eps : list Episode.t) :
  links digest_id d (ep :: eps)
  = match find_analysis (Episode.id ep) d with
    | Some _ => [{| DigestEpisode.digest_id := digest_id;
                    DigestEpisode.episode_id := Episode.id ep |}]
    | None => []
    end ++ links digest_id d eps.
Proof.
  unfold links, has_analysis. cbn [filter].
  destruct (find_analysis (Episode.id ep) d); reflexivity.
Qed.

Lemma collect_spec (isoformat : datetime -> str) (digest_id total : Z)
  (eps : list Episode.t) :
  forall (i : Z) (acc : list DigestService.EpisodeData) (w : World) (g : Digest.t),
    find_digest digest_id (db w) = Some g ->
    exists w',
      Digests.collect isoformat digest_id total i eps acc w
      = (Return (acc ++ collected isoformat (db w) eps), w')
      /\ collect_post digest_id g (links digest_id (db w) eps) w w'.
Proof.
  induction eps as [|ep eps IH]; intros i acc w g Hg.
  - exists w. cbn [Digests.collect collected flat_map links filter map].
    rewrite app_nil_r. split; [reflexivity|].
    unfold collect_post. rewrite app_nil_r.
    repeat split; try reflexivity.
    + exists g. split; [exact Hg | apply same_content_refl].
    + intros H. contradiction.
  - destruct w as [d cs rm ts lc ic ap]. cbn [db] in Hg.
    cbn [Digests.collect db]. rewrite collected_cons, links_cons.
    unfold Digests.collect_one.
    unfold Digests._update_digest_progress, Digests.set_digest.
    run_steps.
    destruct (find_analysis (Episode.id ep) d) as [a|] eqn:Ea.
    + run_steps.
      match goal with
      | |- context [Digests.collect _ _ _ _ _ _ ?w1] =>
          destruct (IH (i + 1) (acc ++ [Digests.episode_data isoformat d ep a])
                      w1 (Digest.set_progress
                            (Some (lit "collecting_episodes"))
                            (Some (lit "Reading episode " ++ str_of_int (i + 1)
                                   ++ lit "/" ++ str_of_int total ++ lit ": "
                                   ++ slice_to 40 (Episode.title ep)
                                   ++ lit "...")) g))
            as (w' & Hrun & Hpost)
      end.
      { cbn [db]. rewrite find_digest_update by (intros; reflexivity).
        rewrite find_digest_with_digest_episodes, Hg. reflexivity. }
      exists w'. split.
      * rewrite Hrun. cbn [db].
        rewrite (collected_ext isoformat d) by reflexivity.
        rewrite <- app_assoc. reflexivity.
      * destruct Hpost as ((g' & Hg' & Hs) & Hp & He & Ha & Hde & Hl & Hi & Hnil & Hcs).
        cbn [db llm_calls image_calls commits] in *.
        rewrite (links_ext digest_id d) in * by reflexivity.
        unfold collect_post. cbn [db llm_calls image_calls commits app].
        repeat split.
        -- exists g'. split; [exact Hg'|].
           eapply same_content_trans; [apply same_content_progress | exact Hs].
        -- exact Hp.
        -- exact He.
        -- exact Ha.
        -- rewrite Hde. cbn [update_digest with_digests with_digest_episodes
                              digest_episodes].
           rewrite <- app_assoc. reflexivity.
        -- exact Hl.
        -- exact Hi.
        -- intros H. discriminate H.
        -- intros _.
           destruct (links digest_id d eps) as [|l0 ls] eqn:El.
           ++ rewrite (Hnil eq_refl). cbn [commits db]. exists []. reflexivity.
           ++ destruct Hcs as (cs' & Hcs'); [discriminate|].
              rewrite Hcs'. eexists (_ :: cs'). rewrite <- app_assoc.
              reflexivity.
    + destruct (IH (i + 1) acc
                  {| db := d; commits := cs; removed := rm; tasks := ts;
                     llm_calls := lc; image_calls := ic; audio_path := ap |}
                  g Hg) as (w' & Hrun & Hpost).
      exists w'. split; [exact Hrun | exact Hpost].
Qed.

Lemma period_episodes_update_digest (g : Digest.t) (k : Z)
  (f : Digest.t -> Digest.t) (d : Db) :
  Digests.period_episodes g (update_digest k f d) = Digests.period_episodes g d.
Proof. reflexivity. Qed.

Lemma collected_update_digest (isoformat : datetime -> str) (k : Z)
  (f : Digest.t -> Digest.t) (d : Db) (eps : list Episode.t) :
  collected isoformat (update_digest k f d) eps = collected isoformat d eps.
Proof. apply collected_ext; reflexivity. Qed.

Lemma links_update_digest (digest_id k : Z) (f : Digest.t -> Digest.t) (d : Db)
  (eps : list Episode.t) :
  links digest_id (update_digest k f d) eps = links digest_id d eps.
Proof. apply links_ext; reflexivity. Qed.

Lemma collected_none (isoformat : datetime -> str) (d : Db)
  (eps : list Episode.t) :
  (forall ep, In ep eps -> find_analysis (Episode.id ep) d = None) ->
  collected isoformat d eps = [] /\ forall k, links k d eps = [].
Proof.
  induction eps as [|ep eps IH]; intros H; [split; reflexivity|].
  destruct IH as [IH1 IH2]; [intros e He; apply H; right; exact He|].
  split; [|intros k]; rewrite ?collected_cons, ?links_cons, ?IH1, ?IH2,
    (H ep (or_introl eq_refl)); reflexivity.
Qed.

(** Runs the collection loop of the goal with [collect_spec]. *)
Ltac run_collect Hfind w2 Hrun Hpost :=
  match goal with
  | |- context [Digests.collect ?iso ?k ?total ?i ?eps ?acc ?w1] =>
      edestruct (collect_spec iso k total eps i acc w1) as (w2 & Hrun & Hpost);
      [ cbn [db]; find_digests; rewrite Hfind; reflexivity | ];
      cbn [db llm_calls image_calls commits app] in Hrun, Hpost;
      rewrite ?period_episodes_update_digest in Hrun, Hpost;
      rewrite ?collected_update_digest in Hrun;
      rewrite ?links_update_digest in Hpost;
      rewrite ?period_episodes_update_digest
  end.

(** ** No episode to digest *)
(** C6.  When no episode of the digest's period (after the podcast filter)
    has an analysis, [process_digest] returns normally and leaves the digest
    [completed] with [episode_count = 0], the fixed summary, no step and no
    detail; the language model and the image service are not called, no
    link row is added, and the final state is committed. *)
Theorem no_episodes_short_circuit
  (json_loads : str -> result json)
  (complete : list DigestService.EpisodeData -> datetime -> datetime -> result str)
  (google_api_key : option str) (imagen : str -> option str) (draw : nat)
  (repr : json -> str) (isoformat : datetime -> str)
  (w : World) (digest_id : Z) (digest : Digest.t) :
  find_digest digest_id (db w) = Some digest ->
  (forall ep, In ep (Digests.period_episodes digest (db w)) ->
              find_analysis (Episode.id ep) (db w) = None) ->
  exists w' final,
    Digests.process_digest json_loads complete google_api_key imagen draw repr
      isoformat digest_id w = (Return tt, w')
    /\ find_digest digest_id (db w') = Some final
    /\ Digest.status final = completed
    /\ Digest.episode_count final = 0
    /\ Digest.summary final = JStr Digests.no_episodes_message
    /\ Digest.processing_step final = None
    /\ Digest.processing_detail final = None
    /\ llm_calls w' = llm_calls w
    /\ image_calls w' = image_calls w
    /\ digest_episodes (db w') = digest_episodes (db w)
    /\ exists before, commits w' = commits w ++ before ++ [db w'].
Proof.
  intros Hfind Hnone. destruct w as [d cs rm ts lc ic ap].
  cbn [db llm_calls image_calls commits] in *.
  destruct (collected_none isoformat d _ Hnone) as [Hc Hl].
  unfold Digests.process_digest, Digests._update_digest_progress,
    Digests.set_digest.
  run_steps. rewrite Hfind. run_steps.
  run_collect Hfind w2 Hrun Hpost.
  rewrite Hc in Hrun. rewrite Hl in Hpost.
  destruct Hpost as (_ & _ & _ & _ & _ & _ & _ & Hsame & _).
  rewrite (Hsame eq_refl) in Hrun. rewrite Hrun.
  eexists. eexists. split; [reflexivity|]. cbn [db llm_calls image_calls commits].
  find_digests. rewrite Hfind. cbn [option_map].
  split; [reflexivity|].
  do 8 (split; [reflexivity|]).
  repeat rewrite <- app_assoc. eexists [_; _; _]. reflexivity.
Qed.

(** ** A failure of the synthesis *)
Lemma links_length (isoformat : datetime -> str) (digest_id : Z) (d : Db)
  (eps : list Episode.t) :
  List.length (links digest_id d eps) = List.length (collected isoformat d eps).
Proof. unfold links. rewrite length_map, collected_length. reflexivity. Qed.

Lemma links_nonempty (isoformat : datetime -> str) (digest_id : Z) (d : Db)
  (eps : list Episode.t) :
  collected isoformat d eps <> [] -> links digest_id d eps <> [].
Proof.
  intros H E. apply H. apply length_zero_iff_nil.
  rewrite <- (links_length isoformat digest_id), E. reflexivity.
Qed.

Lemma same_content_failed (g g' : Digest.t) (x : json) :
  same_content g g' ->
  Digest.set_summary x (Digest.set_progress None None (Digest.set_status failed g'))
  = Digest.set_summary x (Digest.set_progress None None (Digest.set_status failed g)).
Proof. intros H. rewrite (H failed None None). reflexivity. Qed.


(** The outcome of [generate_digest] is the same in every state: either it
    raises, before anything but the call to the model is recorded, or it
    returns. *)
Lemma generate_digest_uniform
  (json_loads : str -> result json)
  (complete : list DigestService.EpisodeData -> datetime -> datetime -> result str)
  (google_api_key : option str) (imagen : str -> option str) (draw : nat)
  (repr : json -> str) (digest_id : Z)
  (x : DigestService.EpisodeData) (xs : list DigestService.EpisodeData)
  (period_start period_end : datetime) :
  (exists e, forall w,
      DigestService.generate_digest json_loads complete google_api_key imagen
        draw repr (x :: xs) period_start period_end true
        (image_progress digest_id) w
      = (Raise e, snd (count_llm_call w)))
  \/ (exists r, forall w,
         fst (DigestService.generate_digest json_loads complete google_api_key
                imagen draw repr (x :: xs) period_start period_end true
                (image_progress digest_id) w)
         = Return r).
Proof.
  unfold DigestService.generate_digest, image_progress,
    Digests._update_digest_progress, Digests.set_digest.
  destruct (complete (x :: xs) period_start period_end) as [text|e] eqn:Etext.
  2: { left. exists e. intros [d cs rm ts lc ic ap]. run_steps.
       rewrite ?Etext. reflexivity. }
  destruct (DigestService._parse_json_response json_loads text)
    as [result|e] eqn:Eparse.
  2: { left. exists e. intros [d cs rm ts lc ic ap]. run_steps.
       rewrite ?Etext. run_steps. rewrite ?Eparse. reflexivity. }
  destruct result as [|b|n|y|l|items].
  1-5: left; eexists; intros [d cs rm ts lc ic ap]; run_steps;
       rewrite ?Etext; run_steps; rewrite ?Eparse; reflexivity.
  right.
  destruct (truthy match assoc (lit "image_description") items with
                   | Some v => v
                   | None => JNull
                   end) eqn:Edesc.
  - destruct (random_choice draw DigestService.ARTISTS ([], []))
      as [artist_name artist_style] eqn:Eartist.
    destruct google_api_key as [[|c key]|].
    all: eexists; intros [d cs rm ts lc ic ap]; run_steps;
         rewrite ?Etext; run_steps; rewrite ?Eparse; run_steps; cbn [get];
         run_steps; rewrite ?Edesc; unfold DigestService.call;
         rewrite ?Eartist; unfold DigestService._generate_image_gemini;
         run_steps; reflexivity.
  - eexists. intros [d cs rm ts lc ic ap]. run_steps.
    rewrite ?Etext. run_steps. rewrite ?Eparse. run_steps. cbn [get].
    run_steps. rewrite ?Edesc. reflexivity.
Qed.

(** C10.  When [generate_digest] raises [e] on a non-empty collection,
    whatever raises in it (the model call, the decoding, or reading a
    decoded response that is not a dictionary; its outcome does not depend
    on the state it is called in), [process_digest] re-raises [e]; the
    digest row differs from the initial one only in [status] (failed), the
    cleared step and detail, and the summary ["Error: " ++ str(e)], so
    [episode_count] is what it was; the link rows added during the
    collection are still there, one per episode collected, and the final
    state is committed. *)
Theorem synthesis_failure_keeps_links
  (json_loads : str -> result json)
  (complete : list DigestService.EpisodeData -> datetime -> datetime -> result str)
  (google_api_key : option str) (imagen : str -> option str) (draw : nat)
  (repr : json -> str) (isoformat : datetime -> str)
  (w : World) (digest_id : Z) (digest : Digest.t) (e : exn) :
  find_digest digest_id (db w) = Some digest ->
  collected isoformat (db w) (Digests.period_episodes digest (db w)) <> [] ->
  fst (DigestService.generate_digest json_loads complete google_api_key imagen
         draw repr
         (collected isoformat (db w) (Digests.period_episodes digest (db w)))
         (Digest.period_start digest) (Digest.period_end digest) true
         (image_progress digest_id) w)
  = Raise e ->
  exists w' final added,
    Digests.process_digest json_loads complete google_api_key imagen draw repr
      isoformat digest_id w = (Raise e, w')
    /\ find_digest digest_id (db w') = Some final
    /\ final = Digest.set_summary (JStr (lit "Error: " ++ str_of_exn e))
                 (Digest.set_progress None None
                    (Digest.set_status failed digest))
    /\ Digest.episode_count final = Digest.episode_count digest
    /\ digest_episodes (db w') = digest_episodes (db w) ++ added
    /\ Permutation added
         (links digest_id (db w) (Digests.period_episodes digest (db w)))
    /\ added <> []
    /\ exists before, commits w' = commits w ++ before ++ [db w'].
Proof.
  intros Hfind Hne Hraise. destruct w as [d cs rm ts lc ic ap].
  cbn [db llm_calls image_calls commits] in *.
  pose proof (links_nonempty isoformat digest_id d _ Hne) as Hlinks.
  unfold Digests.process_digest, Digests._update_digest_progress,
    Digests.set_digest.
  run_steps. rewrite Hfind. run_steps.
  run_collect Hfind w2 Hrun Hpost.
  rewrite Hrun.
  destruct Hpost as ((g' & Hg' & Hs) & _ & _ & _ & Hde & _ & _ & _ & Hcs).
  destruct (Hcs Hlinks) as (cs' & Hcs').
  destruct w2 as [d2 cs2 rm2 ts2 lc2 ic2 ap2].
  cbn [db llm_calls image_calls commits] in *.
  destruct (collected isoformat d (Digests.period_episodes digest d))
    as [|x xs] eqn:Ecol; [contradiction|].
  destruct (generate_digest_uniform json_loads complete google_api_key imagen
              draw repr digest_id x xs (Digest.period_start digest)
              (Digest.period_end digest)) as [(e' & Hgen)|(r & Hgen)].
  2: { rewrite Hgen in Hraise. discriminate Hraise. }
  rewrite Hgen in Hraise. cbn [fst] in Hraise.
  injection Hraise as ->.
  run_steps.
  match goal with
  | |- context [DigestService.generate_digest ?jl ?c ?k ?im ?dr ?rp ?data
                  ?ps ?pe ?gi ?cbo ?w3] =>
      change (DigestService.generate_digest jl c k im dr rp data ps pe gi
                cbo w3)
        with (DigestService.generate_digest jl c k im dr rp data ps pe gi
                (image_progress digest_id) w3);
      rewrite (Hgen w3)
  end.
  run_steps. cbn [snd]. run_steps.
  eexists. eexists. exists (links digest_id d (Digests.period_episodes digest d)).
  split; [reflexivity|].
  cbn [db llm_calls image_calls commits].
  find_digests. rewrite Hg'. cbn [option_map].
  split; [reflexivity|].
  assert (forall a b x,
             Digest.set_summary x
               (Digest.set_progress None None
                  (Digest.set_status failed (Digest.set_progress a b g')))
             = Digest.set_summary x
                 (Digest.set_progress None None
                    (Digest.set_status failed digest))) as Hfinal.
  { intros a b y. exact (same_content_failed _ g' y Hs). }
  rewrite Hfinal.
  split; [reflexivity|].
  split; [reflexivity|].
  split; [exact Hde|].
  split; [apply Permutation_refl|].
  split; [exact Hlinks|].
  rewrite Hcs'. repeat rewrite <- app_assoc. cbn [app].
  eexists (_ :: _ :: cs' ++ [_; _; _]).
  cbn [app]. repeat rewrite <- app_assoc. reflexivity.
Qed.


(** ** The three digest theorems at work *)
(** The theorem of C6 on a digest whose only episode has no analysis. *)
Lemma no_episodes_witness :
  exists w' final,
    Digests.process_digest sample_loads sample_complete None no_image 0
      sample_repr sample_isoformat 8 (init unanalysed_db) = (Return tt, w')
    /\ find_digest 8 (db w') = Some final
    /\ Digest.status final = completed
    /\ Digest.episode_count final = 0
    /\ Digest.summary final = JStr Digests.no_episodes_message
    /\ llm_calls w' = 0%nat.
Proof.
  destruct (no_episodes_short_circuit sample_loads sample_complete None
              no_image 0%nat sample_repr sample_isoformat
              (init unanalysed_db) 8 new_digest eq_refl
              (fun ep _ => eq_refl))
    as (w' & final & H1 & H2 & H3 & H4 & H5 & _ & _ & H8 & _).
  exists w', final. repeat split; assumption.
Defined.

(** The theorem of C10 on a new digest ([episode_count = 0]) with one
    analysed episode and a model that answers with a JSON list. *)
Lemma synthesis_failure_witness :
  exists w' final,
    Digests.process_digest list_loads list_complete None no_image 0
      sample_repr sample_isoformat 8 (init library_db)
    = (Raise (AttributeError (lit "'list' object has no attribute 'get'")), w')
    /\ find_digest 8 (db w') = Some final
    /\ Digest.status final = failed
    /\ Digest.summary final
       = JStr (lit "Error: 'list' object has no attribute 'get'")
    /\ Digest.episode_count final = 0
    /\ digest_episodes (db w')
       = [{| DigestEpisode.digest_id := 8; DigestEpisode.episode_id := 3 |}].
Proof.
  destruct (synthesis_failure_keeps_links list_loads list_complete None
              no_image 0%nat sample_repr sample_isoformat
              (init library_db) 8 new_digest
              (AttributeError (lit "'list' object has no attribute 'get'"))
              eq_refl)
    as (w' & final & added & H1 & H2 & H3 & H4 & H5 & H6 & _).
  - discriminate.
  - reflexivity.
  - exists w', final. subst final.
    change (links 8 (db (init library_db))
              (Digests.period_episodes new_digest (db (init library_db))))
      with [{| DigestEpisode.digest_id := 8; DigestEpisode.episode_id := 3 |}]
      in H6.
    apply Permutation_sym, Permutation_length_1_inv in H6. subst added.
    repeat split; assumption.
Defined.


(** ** Rows after an update *)
Lemma touched_refl (k : Z) (d : Db) : touched k (fun e => e) d d.
Proof.
  unfold touched. rewrite <- (map_id (episodes d)) at 1.
  apply map_ext. intros e. destruct (Episode.id e =? k); reflexivity.
Qed.

Lemma touched_update (k : Z) (f F : Episode.t -> Episode.t) (d d' : Db) :
  touched k F d d' ->
  (forall e, Episode.id (F e) = Episode.id e) ->
  touched k (fun e => f (F e)) d (update_episode k f d').
Proof.
  unfold touched. intros H Hid. cbn [update_episode with_episodes episodes].
  rewrite H, map_map. apply map_ext. intros e.
  destruct (Episode.id e =? k) eqn:E; [rewrite Hid|]; rewrite E; reflexivity.
Qed.

Lemma touched_update_analysis (k k' : Z) (F : Episode.t -> Episode.t)
  (g : EpisodeAnalysis.t -> EpisodeAnalysis.t) (d d' : Db) :
  touched k F d d' -> touched k F d (update_analysis k' g d').
Proof. intros H. exact H. Qed.

Lemma touched_with_analyses (k : Z) (F : Episode.t -> Episode.t)
  (v : list EpisodeAnalysis.t) (d d' : Db) :
  touched k F d d' -> touched k F d (with_episode_analyses v d').
Proof. intros H. exact H. Qed.


(** Finds the function that takes [d] to a chain of updates of [d]. *)
Ltac touch :=
  lazymatch goal with
  | |- touched _ _ ?d ?d => apply touched_refl
  | |- touched _ _ _ (update_episode _ _ _) =>
      eapply touched_update; [ touch | intros; reflexivity ]
  | |- touched _ _ _ (update_analysis _ _ _) =>
      eapply touched_update_analysis; touch
  | |- touched _ _ _ (with_episode_analyses _ _) =>
      eapply touched_with_analyses; touch
  | |- _ => apply touched_refl
  end.





























(** ** The stretches of a task *)
Ltac run_stretch :=
  unfold EventLoop.stretch, EventLoop.on_error, EventLoop.on_exit,
    Analysis.set_episode, Analysis.store_analysis;
  run_steps.



























(** ** A task nothing interrupts *)
(** Run to its end at once, and with its services built, the coroutine does
    what [Analysis.process_episode] does. *)
Lemma finish_process_episode
  (download_audio transcribe : str -> result str)
  (analyze : str -> result Summarizer.StructuredAnalysis)
  (k : Z) (w : World) :
  same_outcome
    (EventLoop.finish
       (fst (EventLoop.process_episode (Return tt) download_audio transcribe
               analyze k w))
       (snd (EventLoop.process_episode (Return tt) download_audio transcribe
               analyze k w)))
    (Analysis.process_episode download_audio transcribe analyze k w).
Proof.
  destruct w as [d cs rm ts lc ic ap].
  unfold same_outcome, EventLoop.process_episode, Analysis.process_episode,
    EventLoop.after_download, EventLoop.after_transcribe,
    EventLoop.after_analyze.
  run_stretch.
  destruct (find_episode k d) as [episode|];
    [|cbn [fst snd EventLoop.finish]; repeat split; reflexivity].
  run_stretch. cbn [fst snd EventLoop.finish].
  destruct (download_audio (Episode.audio_url episode)) as [path|e1];
    run_stretch; cbn [fst snd EventLoop.finish].
  2: repeat split; reflexivity.
  destruct (transcribe path) as [transcript|e2];
    run_stretch; cbn [fst snd EventLoop.finish].
  2: destruct path as [|c path]; run_steps; cbn [fst snd];
     repeat split; reflexivity.
  destruct (analyze transcript) as [r|e3];
    run_stretch; cbn [fst snd EventLoop.finish].
  1: match goal with
     | |- context [find_analysis ?k ?d'] => destruct (find_analysis k d')
     end; run_steps.
  all: destruct path as [|c path]; run_steps; cbn [fst snd];
    repeat split; reflexivity.
Qed.




Lemma find_analysis_update_episode (k k' : Z) (f : Episode.t -> Episode.t)
  (d : Db) :
  find_analysis k (update_episode k' f d) = find_analysis k d.
Proof. reflexivity. Qed.

Lemma find_analysis_overwrite (k : Z) (row : EpisodeAnalysis.t) (d : Db) :
  EpisodeAnalysis.episode_id row = k ->
  find_analysis k (update_analysis k (fun _ => row) d)
  = option_map (fun _ => row) (find_analysis k d).
Proof.
  intros Hk. unfold find_analysis, update_analysis, with_episode_analyses.
  cbn [episode_analyses].
  induction (episode_analyses d) as [|a l IH]; [reflexivity|].
  cbn [map find].
  destruct (EpisodeAnalysis.episode_id a =? k) eqn:E.
  - rewrite Hk, Z.eqb_refl. reflexivity.
  - rewrite E. exact IH.
Qed.

Lemma find_analysis_append (k : Z) (row : EpisodeAnalysis.t) (d : Db) :
  EpisodeAnalysis.episode_id row = k ->
  find_analysis k d = None ->
  find_analysis k (with_episode_analyses (episode_analyses d ++ [row]) d)
  = Some row.
Proof.
  intros Hk. unfold find_analysis, with_episode_analyses.
  cbn [episode_analyses].
  induction (episode_analyses d) as [|a l IH]; cbn [app find]; intros Hn.
  - rewrite Hk, Z.eqb_refl. reflexivity.
  - destruct (EpisodeAnalysis.episode_id a =? k); [discriminate|].
    exact (IH Hn).
Qed.

Lemma analysis_rows_overwrite (k : Z) (row : EpisodeAnalysis.t) (d : Db) :
  EpisodeAnalysis.episode_id row = k ->
  analysis_rows k (update_analysis k (fun _ => row) d) = analysis_rows k d.
Proof.
  intros Hk. unfold analysis_rows, update_analysis, with_episode_analyses.
  cbn [episode_analyses].
  induction (episode_analyses d) as [|a l IH]; [reflexivity|].
  cbn [map filter].
  destruct (EpisodeAnalysis.episode_id a =? k) eqn:E.
  - rewrite Hk, Z.eqb_refl. cbn [List.length]. rewrite IH. reflexivity.
  - rewrite E. exact IH.
Qed.

Lemma analysis_rows_append (k : Z) (row : EpisodeAnalysis.t) (d : Db) :
  EpisodeAnalysis.episode_id row = k ->
  find_analysis k d = None ->
  analysis_rows k (with_episode_analyses (episode_analyses d ++ [row]) d)
  = 1%nat.
Proof.
  intros Hk. unfold analysis_rows, find_analysis, with_episode_analyses.
  cbn [episode_analyses].
  induction (episode_analyses d) as [|a l IH]; cbn [app find filter]; intros Hn.
  - rewrite Hk, Z.eqb_refl. reflexivity.
  - destruct (EpisodeAnalysis.episode_id a =? k); [discriminate|].
    exact (IH Hn).
Qed.

Lemma analysis_rows_found (k : Z) (d : Db) (a : EpisodeAnalysis.t) :
  find_analysis k d = Some a -> (1 <= analysis_rows k d)%nat.
Proof.
  unfold analysis_rows, find_analysis.
  induction (episode_analyses d) as [|b l IH]; cbn [find filter]; [discriminate|].
  destruct (EpisodeAnalysis.episode_id b =? k); cbn [List.length]; intros H.
  - lia.
  - exact (IH H).
Qed.

Lemma analysis_rows_none (k : Z) (d : Db) :
  find_analysis k d = None -> analysis_rows k d = 0%nat.
Proof.
  unfold analysis_rows, find_analysis.
  induction (episode_analyses d) as [|b l IH]; [reflexivity|].
  cbn [find filter].
  destruct (EpisodeAnalysis.episode_id b =? k); [discriminate | exact IH].
Qed.

Lemma analysis_rows_update_episode (k k' : Z) (f : Episode.t -> Episode.t)
  (d : Db) :
  analysis_rows k (update_episode k' f d) = analysis_rows k d.
Proof. reflexivity. Qed.

Lemma find_episode_update_analysis (k k' : Z)
  (g : EpisodeAnalysis.t -> EpisodeAnalysis.t) (d : Db) :
  find_episode k (update_analysis k' g d) = find_episode k d.
Proof. reflexivity. Qed.

Lemma find_episode_with_analyses (k : Z) (v : list EpisodeAnalysis.t) (d : Db) :
  find_episode k (with_episode_analyses v d) = find_episode k d.
Proof. reflexivity. Qed.

Ltac find_rows :=
  repeat first [ rewrite find_episode_update by (intros; reflexivity)
               | rewrite find_episode_update_analysis
               | rewrite find_episode_with_analyses ].

(** X1. When the download, the transcription and the analysis all return,
    process_episode returns and leaves the episode completed with no
    step, the transcript and the summary stored, exactly one analysis
    row for the episode holding the analysis (overwritten if one
    existed, added otherwise), a non-empty audio path removed, and its
    last commit holding the final state. *)
Theorem process_episode_success
  (download_audio transcribe : str -> result str)
  (analyze : str -> result Summarizer.StructuredAnalysis)
  (w : World) (episode_id : Z) (episode : Episode.t)
  (path transcript : str) (r : Summarizer.StructuredAnalysis) :
  find_episode episode_id (db w) = Some episode ->
  download_audio (Episode.audio_url episode) = Return path ->
  transcribe path = Return transcript ->
  analyze transcript = Return r ->
  exists w' final,
    Analysis.process_episode download_audio transcribe analyze episode_id w
      = (Return tt, w')
    /\ find_episode episode_id (db w') = Some final
    /\ Episode.status final = completed
    /\ Episode.processing_step final = None
    /\ Episode.transcript final = Some transcript
    /\ Episode.summary final = Some (Summarizer.raw_summary r)
    /\ find_analysis episode_id (db w') = Some (analysis_row episode_id r)
    /\ analysis_rows episode_id (db w')
       = Nat.max 1 (analysis_rows episode_id (db w))
    /\ removed w' = removed w ++ cleaned path
    /\ exists before, commits w' = commits w ++ before ++ [db w'].
Proof.
  intros Hfind Hd Ht Ha. destruct w as [d cs rm ts lc ic ap].
  cbn [db commits removed] in *.
  unfold Analysis.process_episode, Analysis.set_episode, Analysis.store_analysis.
  run_steps. rewrite Hfind. run_steps. rewrite Hd. run_steps.
  rewrite Ht. run_steps. rewrite Ha. run_steps.
  fold (analysis_row episode_id r).
  rewrite !find_analysis_update_episode.
  destruct (find_analysis episode_id d) as [a|] eqn:Ea; run_steps.
  all: destruct path as [|c path]; run_steps.
  all: eexists; eexists; split; [reflexivity|]; cbn [db commits removed cleaned].
  all: find_rows; rewrite Hfind; cbn [option_map].
  all: split; [reflexivity|].
  all: do 4 (split; [reflexivity|]).
  all: rewrite !find_analysis_update_episode, !analysis_rows_update_episode.
  1,2: rewrite find_analysis_overwrite, analysis_rows_overwrite by reflexivity.
  1,2: rewrite !find_analysis_update_episode, Ea.
  1,2: pose proof (analysis_rows_found _ _ _ Ea) as Hrows.
  3,4: rewrite find_analysis_append, analysis_rows_append
         by (try reflexivity; rewrite ?find_analysis_update_episode; exact Ea).
  3,4: pose proof (analysis_rows_none _ _ Ea) as Hrows.
  all: split; [reflexivity|].
  all: split; [rewrite ?analysis_rows_update_episode; lia|].
  all: rewrite ?app_nil_r; split; [reflexivity|].
  all: repeat rewrite <- app_assoc; cbn [app].
  all: eexists [_; _; _; _; _]; reflexivity.
Qed.

Lemma process_episode_success_witness :
  exists w' final,
    Analysis.process_episode sample_download sample_transcribe sample_analyze
      3 (init queue_db) = (Return tt, w')
    /\ find_episode 3 (db w') = Some final
    /\ Episode.status final = completed
    /\ Episode.summary final = Some (lit "A talk about harbors.")
    /\ analysis_rows 3 (db w') = 1%nat
    /\ removed w' = [lit "/tmp/harbors.mp3"].
Proof.
  destruct (process_episode_success sample_download sample_transcribe
              sample_analyze (init queue_db) 3 pending_episode
              (lit "/tmp/harbors.mp3") (lit "Welcome to Sea Talk.") _
              eq_refl eq_refl eq_refl eq_refl)
    as (w' & final & H1 & H2 & H3 & _ & _ & H6 & _ & H8 & H9 & _).
  exists w', final. repeat split; assumption.
Defined.

(** X2. For an episode that exists, process_episode removes the downloaded
    audio file (when its path is non-empty) whatever happens after the
    download, and removes nothing when the download itself fails. *)
Theorem audio_file_always_removed
  (download_audio transcribe : str -> result str)
  (analyze : str -> result Summarizer.StructuredAnalysis)
  (w : World) (episode_id : Z) (episode : Episode.t) :
  find_episode episode_id (db w) = Some episode ->
  removed (snd (Analysis.process_episode download_audio transcribe analyze
                  episode_id w))
  = removed w
    ++ match download_audio (Episode.audio_url episode) with
       | Return path => cleaned path
       | Raise _ => []
       end.
Proof.
  intros Hfind. destruct w as [d cs rm ts lc ic ap].
  cbn [db removed] in *.
  unfold Analysis.process_episode, Analysis.set_episode, Analysis.store_analysis.
  run_steps. rewrite Hfind. run_steps.
  destruct (download_audio (Episode.audio_url episode)) as [path|e1]; run_steps.
  1: destruct (transcribe path) as [transcript|e2]; run_steps.
  1: destruct (analyze transcript) as [r|e3]; run_steps.
  1: match goal with
     | |- context [find_analysis ?k ?d'] => destruct (find_analysis k d')
     end; run_steps.
  1-4: destruct path as [|c path]; run_steps.
  all: cbn [snd removed cleaned]; rewrite ?app_nil_r; reflexivity.
Qed.

Lemma audio_file_always_removed_witness :
  removed (snd (Analysis.process_episode sample_download sample_transcribe
                  failing_analyze 3 (init queue_db)))
  = [lit "/tmp/harbors.mp3"].
Proof.
  exact (audio_file_always_removed sample_download sample_transcribe
           failing_analyze (init queue_db) 3 pending_episode eq_refl).
Defined.

(** X3. When the download or the transcription raises e, process_episode re-
    raises e and commits the episode as failed with no step and the
    summary 'Error: ' followed by the text of e; the transcript column
    and the analysis rows are left as they were. *)
Theorem early_failure_keeps_columns
  (download_audio transcribe : str -> result str)
  (analyze : str -> result Summarizer.StructuredAnalysis)
  (w : World) (episode_id : Z) (episode : Episode.t) (e : exn) :
  find_episode episode_id (db w) = Some episode ->
  download_audio (Episode.audio_url episode) = Raise e
  \/ (exists path, download_audio (Episode.audio_url episode) = Return path
                   /\ transcribe path = Raise e) ->
  exists w' final,
    Analysis.process_episode download_audio transcribe analyze episode_id w
      = (Raise e, w')
    /\ find_episode episode_id (db w') = Some final
    /\ final = Episode.set_summary (Some (lit "Error: " ++ str_of_exn e))
                 (Episode.set_processing_step None
                    (Episode.set_status failed episode))
    /\ Episode.transcript final = Episode.transcript episode
    /\ episode_analyses (db w') = episode_analyses (db w)
    /\ exists before, commits w' = commits w ++ before ++ [db w'].
Proof.
  intros Hfind Hfail. destruct w as [d cs rm ts lc ic ap].
  cbn [db commits] in *.
  unfold Analysis.process_episode, Analysis.set_episode.
  run_steps. rewrite Hfind. run_steps.
  destruct Hfail as [Hd | (path & Hd & Ht)]; rewrite Hd; run_steps.
  2: rewrite Ht; run_steps; destruct path as [|c path]; run_steps.
  all: eexists; eexists; split; [reflexivity|]; cbn [db commits].
  all: find_rows; rewrite Hfind; cbn [option_map].
  all: split; [reflexivity|].
  all: do 3 (split; [reflexivity|]).
  all: repeat rewrite <- app_assoc; cbn [app].
  1: eexists [_; _]; reflexivity.
  all: eexists [_; _; _]; reflexivity.
Qed.

Lemma early_failure_witness :
  exists w' final,
    Analysis.process_episode failing_download sample_transcribe sample_analyze
      3 (init queue_db) = (Raise (Exception (lit "404 Not Found")), w')
    /\ find_episode 3 (db w') = Some final
    /\ Episode.status final = failed
    /\ Episode.transcript final = None.
Proof.
  destruct (early_failure_keeps_columns failing_download sample_transcribe
              sample_analyze (init queue_db) 3 pending_episode
              (Exception (lit "404 Not Found")) eq_refl
              (or_introl eq_refl))
    as (w' & final & H1 & H2 & H3 & H4 & _).
  exists w', final. subst final. repeat split; assumption.
Defined.

Lemma requested_update (p k : Z) (f : Episode.t -> Episode.t) (d : Db) :
  (forall e, Episode.id (f e) = Episode.id e) ->
  (forall e, Episode.podcast_id (f e) = Episode.podcast_id e) ->
  requested p k (update_episode k f d) = option_map f (requested p k d).
Proof.
  intros Hid Hp. unfold requested, update_episode, with_episodes.
  cbn [episodes].
  induction (episodes d) as [|e l IH]; [reflexivity|].
  cbn [map find].
  destruct (Episode.id e =? k) eqn:E.
  - rewrite Hid, Hp, E. cbn [andb].
    destruct (Episode.podcast_id e =? p); [reflexivity | exact IH].
  - rewrite E. cbn [andb]. exact IH.
Qed.

(** X4. Asking twice for the analysis of an episode that is neither
    processing nor completed with a summary queues one task only: the
    first request marks the episode processing, commits and answers
    'Analysis started'; the second answers 'Analysis already in
    progress' and changes nothing. *)
Theorem analyze_episode_twice (podcast_id episode_id : Z) (w : World)
  (episode : Episode.t) :
  requested podcast_id episode_id (db w) = Some episode ->
  startable episode = true ->
  exists w',
    Analysis.analyze_episode podcast_id episode_id w
      = (Return (started episode_id), w')
    /\ Analysis.analyze_episode podcast_id episode_id w'
       = (Return (in_progress episode_id), w')
    /\ tasks w' = tasks w ++ [episode_id]
    /\ commits w' = commits w ++ [db w']
    /\ requested podcast_id episode_id (db w')
       = Some (Episode.set_status processing episode).
Proof.
  intros Hreq Hstart. destruct w as [d cs rm ts lc ic ap].
  cbn [db commits tasks] in *.
  unfold startable in Hstart. apply andb_prop in Hstart.
  destruct Hstart as [H1 H2].
  apply negb_true_iff in H1. apply negb_true_iff in H2.
  unfold Analysis.analyze_episode at 1. run_steps.
  fold (requested podcast_id episode_id d). rewrite Hreq, H1, H2.
  run_steps. eexists. split; [reflexivity|].
  assert (requested podcast_id episode_id
            (update_episode episode_id (Episode.set_status processing) d)
          = Some (Episode.set_status processing episode)) as Hnext.
  { rewrite requested_update by (intros; reflexivity).
    rewrite Hreq. reflexivity. }
  split.
  - unfold Analysis.analyze_episode. run_steps.
    fold (requested podcast_id episode_id
            (update_episode episode_id (Episode.set_status processing) d)).
    rewrite Hnext. reflexivity.
  - cbn [db commits tasks]. repeat split; try reflexivity. exact Hnext.
Qed.

Lemma analyze_episode_twice_witness :
  exists w',
    Analysis.analyze_episode 10 3 (init queue_db) = (Return (started 3), w')
    /\ Analysis.analyze_episode 10 3 w' = (Return (in_progress 3), w')
    /\ tasks w' = [3].
Proof.
  destruct (analyze_episode_twice 10 3 (init queue_db) pending_episode
              eq_refl eq_refl) as (w' & H1 & H2 & H3 & _).
  exists w'. repeat split; assumption.
Defined.

(** ** The loops of [batch_analyze] and [reset_stuck_episodes] *)
Lemma on_ids_cons (f : Episode.t -> Episode.t) (k : Z) (ids : list Z)
  (e : Episode.t) :
  (forall x, Episode.id (f x) = Episode.id x) ->
  (forall x, f (f x) = f x) ->
  on_ids ids f (if Episode.id e =? k then f e else e) = on_ids (k :: ids) f e.
Proof.
  intros Hid Hff. unfold on_ids, Analysis.in_ids. cbn [existsb].
  rewrite (Z.eqb_sym k (Episode.id e)).
  destruct (Episode.id e =? k); cbn [orb].
  - rewrite Hid, Hff. destruct (existsb _ ids); reflexivity.
  - reflexivity.
Qed.

Lemma on_ids_nil (f : Episode.t -> Episode.t) (l : list Episode.t) :
  map (on_ids [] f) l = l.
Proof. unfold on_ids. cbn. apply map_id. Qed.

Lemma rows_written_step (k : Z) (ids : list Z) (f : Episode.t -> Episode.t)
  (q1 q2 : list Z) (w w1 w' : World) :
  (forall x, Episode.id (f x) = Episode.id x) ->
  (forall x, f (f x) = f x) ->
  touched k f (db w) (db w1) ->
  podcasts (db w1) = podcasts (db w) ->
  episode_analyses (db w1) = episode_analyses (db w) ->
  digests (db w1) = digests (db w) ->
  digest_episodes (db w1) = digest_episodes (db w) ->
  commits w1 = commits w ->
  tasks w1 = tasks w ++ q1 ->
  rows_written ids f q2 w1 w' ->
  rows_written (k :: ids) f (q1 ++ q2) w w'.
Proof.
  intros Hid Hff Ht Hp Ha Hg Hl Hc Hq (He & Hp' & Ha' & Hg' & Hl' & Hc' & Hq').
  unfold rows_written, touched in *.
  rewrite He, Ht, map_map, Hp', Hp, Ha', Ha, Hg', Hg, Hl', Hl, Hc', Hc, Hq', Hq.
  repeat split; try reflexivity.
  - apply map_ext. intros e. apply on_ids_cons; assumption.
  - rewrite app_assoc. reflexivity.
Qed.


Lemma reset_loop (stuck : list Episode.t) :
  forall w,
  exists w',
    for_each stuck
      (fun ep =>
         Session.bind
           (modify (update_episode (Episode.id ep)
                      (Episode.set_status pending)))
           (fun _ =>
              modify (update_episode (Episode.id ep)
                        (Episode.set_processing_step None)))) w
    = (Return tt, w')
    /\ rows_written (map Episode.id stuck) reset_row [] w w'.
Proof.
  induction stuck as [|ep rest IH]; intros w.
  - exists w. split; [reflexivity|]. cbn [map].
    unfold rows_written. rewrite on_ids_nil, app_nil_r.
    repeat split; reflexivity.
  - cbn [for_each].
    match goal with
    | |- context [for_each rest ?b] => set (loop := for_each rest b) in *
    end.
    destruct w as [d cs rm ts lc ic ap]. run_steps.
    match goal with
    | |- context [loop ?w1] => destruct (IH w1) as (w' & E & H)
    end.
    exists w'. rewrite E. split; [reflexivity|].
    cbn [map].
    refine (rows_written_step (Episode.id ep) _ _ [] []
              (Build_World d cs rm ts lc ic ap) _ w' _ _ _ _ _ _ _ _ _ H);
      try (intros; reflexivity).
    + cbn [db]. unfold reset_row. touch.
    + cbn [tasks]. rewrite app_nil_r. reflexivity.
Qed.


Lemma in_ids_In (ids : list Z) (k : Z) :
  Analysis.in_ids ids k = true <-> In k ids.
Proof.
  unfold Analysis.in_ids. rewrite existsb_exists. split.
  - intros (i & Hi & E). apply Z.eqb_eq in E. subst. exact Hi.
  - intros H. exists k. split; [exact H | apply Z.eqb_refl].
Qed.

Lemma in_ids_filter (p : Episode.t -> bool) (l : list Episode.t)
  (e : Episode.t) :
  NoDup (map Episode.id l) -> In e l ->
  Analysis.in_ids (map Episode.id (filter p l)) (Episode.id e) = p e.
Proof.
  intros Hnd Hin.
  destruct (p e) eqn:P.
  - apply in_ids_In. apply in_map. apply filter_In. split; assumption.
  - destruct (Analysis.in_ids _ _) eqn:E; [|reflexivity].
    apply in_ids_In in E. apply in_map_iff in E.
    destruct E as (x & Hx & Hf). apply filter_In in Hf. destruct Hf as [Hxl Px].
    assert (x = e) as ->; [|congruence].
    clear P Px. induction l as [|a l IH]; [contradiction|].
    cbn [map] in Hnd. inversion Hnd as [|? ? Hna Hnd']; subst.
    destruct Hxl as [Hxa|Hxl], Hin as [Hea|Hin].
    + congruence.
    + exfalso. apply Hna. subst a. rewrite Hx. apply in_map. exact Hin.
    + exfalso. apply Hna. subst a. rewrite <- Hx. apply in_map. exact Hxl.
    + apply IH; assumption.
Qed.

(** X6. With distinct episode ids, reset_stuck_episodes puts every
    processing or failed episode back to pending with no step, leaves
    every other row as it is, queues no task, commits once and returns
    the number of rows it reset; afterwards no episode is processing or
    failed. *)
Theorem reset_stuck_episodes_effect (w : World) :
  NoDup (map Episode.id (episodes (db w))) ->
  exists w',
    Analysis.reset_stuck_episodes w
      = (Return (Z.of_nat (List.length (filter is_stuck (episodes (db w))))),
         w')
    /\ episodes (db w')
       = map (fun e => if is_stuck e then reset_row e else e)
           (episodes (db w))
    /\ forallb (fun e => negb (is_stuck e)) (episodes (db w')) = true
    /\ tasks w' = tasks w
    /\ commits w' = commits w ++ [db w'].
Proof.
  intros Hnd.
  unfold Analysis.reset_stuck_episodes.
  unfold Session.bind at 1. unfold Session.get_db at 1.
  unfold Session.bind at 1.
  change (fun e => Status_eqb (Episode.status e) processing
                   || Status_eqb (Episode.status e) failed) with is_stuck.
  destruct (reset_loop (filter is_stuck (episodes (db w))) w)
    as (w1 & E & He & _ & _ & _ & _ & Hc & Hq).
  rewrite E. destruct w1 as [d1 cs1 rm1 ts1 lc1 ic1 ap1].
  cbn [db commits tasks] in *. run_steps.
  eexists. split; [reflexivity|].
  cbn [db commits tasks].
  assert (episodes d1
          = map (fun e => if is_stuck e then reset_row e else e)
              (episodes (db w))) as Hrows.
  { rewrite He. apply map_ext_in. intros e Hin. unfold on_ids.
    rewrite (in_ids_filter is_stuck _ _ Hnd Hin). reflexivity. }
  split; [exact Hrows|]. split.
  - rewrite Hrows. apply forallb_forall. intros x Hx.
    apply in_map_iff in Hx. destruct Hx as (e & <- & _).
    destruct (is_stuck e) eqn:S; [reflexivity|]. rewrite S. reflexivity.
  - rewrite Hc, Hq, app_nil_r. split; reflexivity.
Qed.

Lemma reset_stuck_episodes_witness :
  exists w',
    Analysis.reset_stuck_episodes (init stuck_db) = (Return 2, w')
    /\ map Episode.status (episodes (db w')) = [pending; pending; completed]
    /\ map Episode.processing_step (episodes (db w')) = [None; None; None].
Proof.
  assert (NoDup (map Episode.id (episodes (db (init stuck_db))))) as Hnd.
  { cbn. repeat constructor; cbn; intuition discriminate. }
  destruct (reset_stuck_episodes_effect (init stuck_db) Hnd)
    as (w' & H1 & H2 & _).
  exists w'. split; [exact H1|]. rewrite H2. split; reflexivity.
Defined.

Lemma podcast_filter (request : BatchAnalysisRequest) (d : Db) :
  match podcast_ids request with
  | Some ((_ :: _) as ids) =>
      filter (fun e => Analysis.in_ids ids (Episode.podcast_id e)) (episodes d)
  | _ => episodes d
  end = filter (wanted request) (episodes d).
Proof.
  unfold wanted. destruct (podcast_ids request) as [[|i ids]|].
  - symmetry. apply forallb_filter_id. apply forallb_forall. reflexivity.
  - reflexivity.
  - symmetry. apply forallb_filter_id. apply forallb_forall. reflexivity.
Qed.

Lemma in_window (st en : datetime) (l : list Episode.t) (e : Episode.t) :
  In e (filter (fun e => Analysis.sql_le (Episode.published_at e) en)
          (filter (fun e => Analysis.sql_ge (Episode.published_at e) st) l))
  <-> In e l /\ exists t, Episode.published_at e = Some t /\ st <= t <= en.
Proof.
  rewrite !filter_In. unfold Analysis.sql_le, Analysis.sql_ge.
  destruct (Episode.published_at e) as [t|].
  - rewrite Z.leb_le, Z.leb_le. split.
    + intros [[H1 H2] H3]. split; [exact H1|]. exists t. split; [reflexivity|lia].
    + intros [H1 (t' & E & H2)]. inversion E; subst. repeat split; try lia.
      exact H1.
  - split.
    + intros [[_ H] _]. discriminate.
    + intros [_ (t & E & _)]. discriminate.
Qed.

(** X7. For a fixed period (day, week, two weeks, three weeks, month) a
    batch request selects exactly the episodes of the wanted podcasts
    whose publication date is set and lies between now minus the length
    of the period and now, both ends included. *)
Theorem batch_query_window (now : datetime) (request : BatchAnalysisRequest)
  (d : Db) (n : Z) (e : Episode.t) :
  window (period request) = Some n ->
  In e (Analysis.batch_query now request d)
  <-> In e (episodes d) /\ wanted request e = true
      /\ exists t, Episode.published_at e = Some t /\ now - n <= t <= now.
Proof.
  intros Hw. unfold Analysis.batch_query. rewrite podcast_filter.
  destruct (period request); cbn in Hw; inversion Hw; subst; cbn -[filter];
    rewrite in_window, filter_In; unfold Analysis.days;
    (split; [intros [[H1 H2] H3] | intros [H1 [H2 H3]]]);
    repeat split; try assumption.
Qed.

Lemma batch_query_window_witness :
  In pending_episode (Analysis.batch_query 1700000500 week_request queue_db).
Proof.
  apply (batch_query_window 1700000500 week_request queue_db 604800
           pending_episode eq_refl).
  split; [left; reflexivity|]. split; [reflexivity|].
  exists 1700000000. split; [reflexivity | lia].
Defined.

(** X8. For a custom period with a start date a batch request selects
    exactly the episodes of the wanted podcasts dated from the start
    date to the end date, and to now when no end date is given. *)
Theorem batch_query_custom (now : datetime) (request : BatchAnalysisRequest)
  (d : Db) (start : datetime) (e : Episode.t) :
  period request = CUSTOM ->
  start_date request = Some start ->
  In e (Analysis.batch_query now request d)
  <-> In e (episodes d) /\ wanted request e = true
      /\ exists t, Episode.published_at e = Some t
           /\ start <= t
              <= match end_date request with Some en => en | None => now end.
Proof.
  intros Hp Hs. unfold Analysis.batch_query. rewrite podcast_filter.
  rewrite Hp, Hs. cbn -[filter]. rewrite in_window, filter_In.
  split; [intros [[H1 H2] H3] | intros [H1 [H2 H3]]];
    repeat split; assumption.
Qed.

Lemma batch_query_custom_witness :
  In pending_episode
    (Analysis.batch_query 1800000000
       (custom_request (Some 1600000000) None) queue_db)
  /\ ~ In pending_episode
       (Analysis.batch_query 1800000000
          (custom_request (Some 1600000000) (Some 1650000000)) queue_db).
Proof.
  split.
  - apply (batch_query_custom 1800000000
             (custom_request (Some 1600000000) None) queue_db 1600000000
             pending_episode eq_refl eq_refl).
    split; [left; reflexivity|]. split; [reflexivity|].
    exists 1700000000. split; [reflexivity | cbn; lia].
  - intros H.
    apply (batch_query_custom 1800000000
             (custom_request (Some 1600000000) (Some 1650000000)) queue_db
             1600000000 pending_episode eq_refl eq_refl) in H.
    destruct H as (_ & _ & t & E & H). inversion E; subst. cbn in H. lia.
Defined.

(** X9. For a custom period without a start date a batch request filters no
    date at all: the end date is ignored and every episode of the wanted
    podcasts is selected, undated ones included. *)
Theorem batch_query_custom_no_start (now : datetime)
  (request : BatchAnalysisRequest) (d : Db) :
  period request = CUSTOM ->
  start_date request = None ->
  Analysis.batch_query now request d = filter (wanted request) (episodes d).
Proof.
  intros Hp Hs. unfold Analysis.batch_query. rewrite podcast_filter.
  rewrite Hp, Hs. reflexivity.
Qed.

Lemma batch_query_custom_no_start_witness :
  Analysis.batch_query 1800000000 (custom_request None (Some 5)) tie_db
  = episodes tie_db.
Proof.
  rewrite (batch_query_custom_no_start 1800000000
             (custom_request None (Some 5)) tie_db eq_refl eq_refl).
  reflexivity.
Defined.

(** *** Latest per podcast *)
Lemma sql_max_fold (vals : list (option datetime)) :
  forall acc,
  match fold_left
          (fun acc v =>
             match v, acc with
             | None, _ => acc
             | Some x, None => Some x
             | Some x, Some m => Some (Z.max m x)
             end) vals acc with
  | Some m =>
      (acc = Some m \/ In (Some m) vals)
      /\ (forall x, acc = Some x -> x <= m)
      /\ (forall x, In (Some x) vals -> x <= m)
  | None => acc = None /\ forall x, ~ In (Some x) vals
  end.
Proof.
  induction vals as [|v vals IH]; intros acc; cbn [fold_left].
  - destruct acc as [m|].
    + split; [left; reflexivity|]. split.
      * intros x E. inversion E. lia.
      * intros x [].
    + split; [reflexivity|]. intros x [].
  - destruct v as [x|].
    + destruct acc as [m|].
      * specialize (IH (Some (Z.max m x))).
        destruct (fold_left _ vals _) as [r|].
        -- destruct IH as ([E|Hin] & Hacc & Hall). 
           ++ inversion E; subst. split.
              ** destruct (Z.max_spec m x) as [[_ ->]|[_ ->]];
                   [right; left; reflexivity | left; reflexivity].
              ** split.
                 --- intros y Ey. inversion Ey. lia.
                 --- intros y [Ey|Hy]; [inversion Ey; lia | auto].
           ++ split; [right; right; exact Hin|]. split.
              ** intros y Ey. inversion Ey; subst.
                 specialize (Hacc _ eq_refl). lia.
              ** intros y [Ey|Hy]; [|auto]. inversion Ey; subst.
                 specialize (Hacc _ eq_refl). lia.
        -- destruct IH as [E _]. discriminate.
      * specialize (IH (Some x)).
        destruct (fold_left _ vals _) as [r|].
        -- destruct IH as ([E|Hin] & Hacc & Hall).
           ++ inversion E; subst. split; [right; left; reflexivity|]. split.
              ** intros y Ey. discriminate.
              ** intros y [Ey|Hy]; [inversion Ey; lia | auto].
           ++ split; [right; right; exact Hin|]. split.
              ** intros y Ey. discriminate.
              ** intros y [Ey|Hy]; [|auto]. inversion Ey; subst.
                 apply Hacc. reflexivity.
        -- destruct IH as [E _]. discriminate.
    + specialize (IH acc).
      destruct (fold_left _ vals _) as [r|].
      * destruct IH as ([E|Hin] & Hacc & Hall).
        -- split; [left; exact E|]. split; [exact Hacc|].
           intros y [Ey|Hy]; [discriminate | auto].
        -- split; [right; right; exact Hin|]. split; [exact Hacc|].
           intros y [Ey|Hy]; [discriminate | auto].
      * destruct IH as [E Hall]. split; [exact E|].
        intros y [Ey|Hy]; [discriminate | exact (Hall y Hy)].
Qed.

Lemma sql_max_Some (vals : list (option datetime)) (m : datetime) :
  Analysis.sql_max vals = Some m <->
  In (Some m) vals /\ forall x, In (Some x) vals -> x <= m.
Proof.
  unfold Analysis.sql_max. pose proof (sql_max_fold vals None) as H.
  match type of H with
  | match ?x with _ => _ end => destruct x as [r|]
  end.
  - destruct H as ([E|Hin] & _ & Hall); [discriminate|]. split.
    + intros E. inversion E; subst. split; assumption.
    + intros [Hm Hup]. f_equal. apply Z.le_antisymm; auto.
  - destruct H as [_ Hnone]. split; [discriminate|].
    intros [Hm _]. exfalso. exact (Hnone m Hm).
Qed.

Lemma in_latest_join (query : list Episode.t)
  (subquery : list (Z * option datetime)) (e : Episode.t) :
  In e (Analysis.latest_join query subquery)
  <-> In e query
      /\ exists r, In r subquery
           /\ (Episode.podcast_id e =? fst r)
              && Analysis.sql_eq (Episode.published_at e) (snd r) = true.
Proof.
  unfold Analysis.latest_join. rewrite in_flat_map. split.
  - intros (x & Hx & Hin). apply in_map_iff in Hin.
    destruct Hin as (r & <- & Hr). apply filter_In in Hr.
    split; [exact Hx|]. exists r. exact Hr.
  - intros (Hq & r & Hr & Hm). exists e. split; [exact Hq|].
    apply in_map_iff. exists r. split; [reflexivity|].
    apply filter_In. split; assumption.
Qed.

Lemma in_latest_subquery (all : list Episode.t) (r : Z * option datetime) :
  In r (Analysis.latest_subquery all)
  <-> In (fst r) (map Episode.podcast_id all)
      /\ snd r = Analysis.sql_max
                   (map Episode.published_at
                      (filter (fun e => Episode.podcast_id e =? fst r) all)).
Proof.
  unfold Analysis.latest_subquery. rewrite in_map_iff. split.
  - intros (pid & <- & Hp). apply nodup_In in Hp. split; [exact Hp|reflexivity].
  - intros [Hp Hs]. exists (fst r). split.
    + destruct r as [a b]. cbn in *. rewrite Hs. reflexivity.
    + apply nodup_In. exact Hp.
Qed.

(** X10. For the period 'latest' a batch request selects exactly the
    episodes of the wanted podcasts that have a publication date and
    that no episode of the same podcast (wanted or not) follows in date;
    an undated episode is never selected. *)
Theorem batch_query_latest (now : datetime) (request : BatchAnalysisRequest)
  (d : Db) (e : Episode.t) :
  period request = LATEST ->
  In e (Analysis.batch_query now request d)
  <-> In e (episodes d) /\ wanted request e = true
      /\ is_latest (episodes d) e.
Proof.
  intros Hp. unfold Analysis.batch_query. rewrite podcast_filter, Hp.
  cbn -[filter]. rewrite in_latest_join, filter_In. unfold is_latest. split.
  - intros ([Hin Hw] & r & Hr & Hm). split; [exact Hin|]. split; [exact Hw|].
    apply andb_prop in Hm. destruct Hm as [Hpid Heq].
    apply Z.eqb_eq in Hpid. apply in_latest_subquery in Hr.
    destruct Hr as [_ Hs]. unfold Analysis.sql_eq in Heq.
    destruct (Episode.published_at e) as [t|]; [|discriminate].
    destruct (snd r) as [m|] eqn:Em; [|discriminate].
    apply Z.eqb_eq in Heq. subst m. exists t. split; [reflexivity|].
    intros e' t' Hin' Hpid' Hpub'. symmetry in Hs.
    apply sql_max_Some in Hs. destruct Hs as [_ Hup]. apply Hup.
    rewrite <- Hpub'. apply in_map. apply filter_In. split; [exact Hin'|].
    apply Z.eqb_eq. congruence.
  - intros (Hin & Hw & t & Hpub & Hup). split; [split; assumption|].
    exists (Episode.podcast_id e, Some t). split.
    + apply in_latest_subquery. cbn [fst snd]. split.
      * apply in_map. exact Hin.
      * symmetry. apply sql_max_Some. split.
        -- rewrite <- Hpub. apply in_map. apply filter_In.
           split; [exact Hin | apply Z.eqb_refl].
        -- intros x Hx. apply in_map_iff in Hx.
           destruct Hx as (e' & Hpub' & Hf). apply filter_In in Hf.
           destruct Hf as [Hin' Hpid']. apply Z.eqb_eq in Hpid'.
           exact (Hup e' x Hin' Hpid' Hpub').
    + cbn [fst snd]. rewrite Z.eqb_refl, Hpub. cbn. apply Z.eqb_refl.
Qed.

Lemma batch_query_latest_witness :
  In (episode 2 10 (Some 1700000000))
    (Analysis.batch_query 1700000500 latest_request tie_db)
  /\ ~ In (episode 4 11 None)
       (Analysis.batch_query 1700000500 latest_request tie_db).
Proof.
  split.
  - apply (batch_query_latest 1700000500 latest_request tie_db _ eq_refl).
    split; [right; left; reflexivity|]. split; [reflexivity|].
    exists 1700000000. split; [reflexivity|].
    intros e' t' Hin _ Hpub.
    cbn in Hin. destruct Hin as [<-|[<-|[<-|[<-|[]]]]]; cbn in Hpub;
      inversion Hpub; lia.
  - intros H.
    apply (batch_query_latest 1700000500 latest_request tie_db _ eq_refl) in H.
    destruct H as (_ & _ & t & E & _). discriminate.
Defined.

(** *** No episode is selected twice *)
Lemma distinct_ids_filter (keep : Episode.t -> bool) (rows : list Episode.t) :
  NoDup (map Episode.id rows) -> NoDup (map Episode.id (filter keep rows)).
Proof.
  induction rows as [|e rows IH]; cbn [map filter]; intros H; [constructor|].
  inversion H as [|? ? Hn Hl]; subst.
  destruct (keep e); [|auto]. cbn [map]. constructor; [|auto].
  intros Hin. apply Hn. apply in_map_iff in Hin.
  destruct Hin as (x & E & Hx). apply filter_In in Hx.
  rewrite <- E. apply in_map. tauto.
Qed.

Lemma filter_none {A} (p : A -> bool) (l : list A) :
  (forall x, In x l -> p x = false) -> filter p l = [].
Proof.
  induction l as [|a l IH]; intros H; [reflexivity|].
  cbn [filter]. rewrite (H a (or_introl eq_refl)).
  apply IH. intros x Hx. apply H. right. exact Hx.
Qed.

Lemma one_row_per_podcast (sub : list (Z * option datetime)) (pid : Z)
  (c : Z * option datetime -> bool) :
  NoDup (map fst sub) ->
  (List.length (filter (fun r => (pid =? fst r)%Z && c r) sub) <= 1)%nat.
Proof.
  induction sub as [|a sub IH]; cbn [map filter]; intros H; [cbn; lia|].
  inversion H as [|? ? Hn Hl]; subst.
  destruct ((pid =? fst a) && c a) eqn:E; [|auto].
  apply andb_prop in E. destruct E as [E _]. apply Z.eqb_eq in E.
  assert (filter (fun r => (pid =? fst r) && c r) sub = []) as ->.
  { apply filter_none. intros r Hr.
    destruct (pid =? fst r) eqn:Er; [|reflexivity].

    apply Z.eqb_eq in Er. exfalso. apply Hn. rewrite <- E, Er.
    apply in_map. exact Hr. }
  cbn. lia.
Qed.

Lemma latest_join_filter (query : list Episode.t)
  (sub : list (Z * option datetime)) :
  NoDup (map fst sub) ->
  exists p, Analysis.latest_join query sub = filter p query.
Proof.
  intros Hnd.
  exists (fun e =>
            negb (Nat.eqb
                    (List.length
                       (filter (fun r => (Episode.podcast_id e =? fst r)
                                  && Analysis.sql_eq (Episode.published_at e)
                                       (snd r)) sub)) 0)).
  unfold Analysis.latest_join.
  induction query as [|e q IH]; [reflexivity|].
  cbn [flat_map filter]. rewrite IH.
  pose proof (one_row_per_podcast sub (Episode.podcast_id e)
                (fun r => Analysis.sql_eq (Episode.published_at e) (snd r))
                Hnd) as H1.
  cbv beta in H1.
  destruct (filter _ sub) as [|r [|r' rest]]; cbn in H1 |- *;
    [reflexivity | reflexivity | lia].
Qed.

Lemma latest_subquery_keys (all : list Episode.t) :
  NoDup (map fst (Analysis.latest_subquery all)).
Proof.
  unfold Analysis.latest_subquery. rewrite map_map. cbn [fst].
  rewrite map_id. apply NoDup_nodup.
Qed.

(** X11. When the episodes of the table have distinct ids, the episodes a
    batch request selects have distinct ids too, for every period: the
    join with the per-podcast maximum never repeats a row. *)
Theorem batch_query_distinct (now : datetime) (request : BatchAnalysisRequest)
  (d : Db) :
  NoDup (map Episode.id (episodes d)) ->
  NoDup (map Episode.id (Analysis.batch_query now request d)).
Proof.
  intros Hnd. unfold Analysis.batch_query. rewrite podcast_filter.
  destruct (Analysis.get_period_dates _ _ _ _) as [st en].
  assert (NoDup (map Episode.id (filter (wanted request) (episodes d))))
    as Hq by (apply distinct_ids_filter; exact Hnd).
  destruct (period request);
    try (destruct st as [st|]; [destruct en as [en|]|];
         repeat (first [exact Hq | apply distinct_ids_filter]); fail).
  destruct (latest_join_filter (filter (wanted request) (episodes d))
              (Analysis.latest_subquery (episodes d))
              (latest_subquery_keys _)) as [p ->].
  apply distinct_ids_filter. exact Hq.
Qed.

Lemma batch_query_distinct_witness :
  NoDup (map Episode.id
           (Analysis.batch_query 1700000500 latest_request tie_db)).
Proof.
  apply (batch_query_distinct 1700000500 latest_request tie_db).
  cbn. repeat constructor; cbn; intuition discriminate.
Defined.

Lemma keeps_ret {A} (R : World -> World -> Prop) (a : A) :
  preorder R -> keeps R (ret a).
Proof. intros [Hr _] w. apply Hr. Qed.

Lemma keeps_raise {A} (R : World -> World -> Prop) (e : exn) :
  preorder R -> keeps R (@raise A e).
Proof. intros [Hr _] w. apply Hr. Qed.

Lemma keeps_lift {A} (R : World -> World -> Prop) (r : result A) :
  preorder R -> keeps R (lift r).
Proof. intros [Hr _] w. apply Hr. Qed.

Lemma keeps_get_db (R : World -> World -> Prop) :
  preorder R -> keeps R get_db.
Proof. intros [Hr _] w. apply Hr. Qed.

Lemma keeps_read_audio_path (R : World -> World -> Prop) :
  preorder R -> keeps R read_audio_path.
Proof. intros [Hr _] w. apply Hr. Qed.

Lemma keeps_bind {A B} (R : World -> World -> Prop) (m : M A) (k : A -> M B) :
  preorder R -> keeps R m -> (forall a, keeps R (k a)) ->
  keeps R (Session.bind m k).
Proof.
  intros [_ Ht] Hm Hk w. unfold Session.bind.
  specialize (Hm w). destruct (m w) as [[a|e] w1]; cbn [snd] in *.
  - exact (Ht _ _ _ Hm (Hk a w1)).
  - exact Hm.
Qed.

Lemma keeps_try_except {A} (R : World -> World -> Prop) (body : M A)
  (handler : exn -> M A) :
  preorder R -> keeps R body -> (forall e, keeps R (handler e)) ->
  keeps R (try_except body handler).
Proof.
  intros [_ Ht] Hm Hk w. unfold try_except.
  specialize (Hm w). destruct (body w) as [[a|e] w1]; cbn [snd] in *.
  - exact Hm.
  - exact (Ht _ _ _ Hm (Hk e w1)).
Qed.

Lemma keeps_try_finally {A} (R : World -> World -> Prop) (body : M A)
  (fin : M unit) :
  preorder R -> keeps R body -> keeps R fin ->
  keeps R (try_finally body fin).
Proof.
  intros [_ Ht] Hm Hf w. unfold try_finally.
  specialize (Hm w). destruct (body w) as [r w1]; cbn [snd] in *.
  specialize (Hf w1). destruct (fin w1) as [[u|e] w2]; cbn [snd] in *;
    exact (Ht _ _ _ Hm Hf).
Qed.

(** *** The frame of a digest *)
Lemma digest_frame_preorder (k : Z) : preorder (digest_frame k).
Proof.
  split.
  - intros w. unfold digest_frame. repeat split; try reflexivity.
    exists []. rewrite app_nil_r. split; [reflexivity | constructor].
  - intros a b c (P1 & E1 & A1 & I1 & O1 & (l1 & L1 & F1) & T1 & R1)
      (P2 & E2 & A2 & I2 & O2 & (l2 & L2 & F2) & T2 & R2).
    unfold digest_frame.
    rewrite P2, E2, A2, I2, O2, T2, R2.
    repeat split; try assumption.
    exists (l1 ++ l2). rewrite L2, L1, app_assoc. split; [reflexivity|].
    apply Forall_app. split; assumption.
Qed.

Lemma update_digest_ids (k : Z) (f : Digest.t -> Digest.t) (d : Db) :
  (forall g, Digest.id (f g) = Digest.id g) ->
  map Digest.id (digests (update_digest k f d)) = map Digest.id (digests d).
Proof.
  intros Hid. unfold update_digest, with_digests. cbn [digests].
  rewrite map_map. apply map_ext. intros g.
  destruct (Digest.id g =? k); [apply Hid | reflexivity].
Qed.

Lemma update_digest_others (k : Z) (f : Digest.t -> Digest.t) (d : Db) :
  (forall g, Digest.id (f g) = Digest.id g) ->
  other_digests k (update_digest k f d) = other_digests k d.
Proof.
  intros Hid. unfold other_digests, update_digest, with_digests.
  cbn [digests].
  induction (digests d) as [|g l IH]; [reflexivity|].
  cbn [map filter]. destruct (Digest.id g =? k) eqn:E.
  - rewrite Hid, E. cbn [negb]. exact IH.
  - rewrite E. cbn [negb]. rewrite IH. reflexivity.
Qed.

Lemma keeps_set_digest (k : Z) (f : Digest.t -> Digest.t) :
  (forall g, Digest.id (f g) = Digest.id g) ->
  keeps (digest_frame k) (modify (update_digest k f)).
Proof.
  intros Hid w. unfold modify, digest_frame. cbn [snd db tasks removed].
  rewrite update_digest_ids, update_digest_others by exact Hid.
  repeat split; try reflexivity.
  exists []. rewrite app_nil_r. split; [reflexivity | constructor].
Qed.

Lemma keeps_link (k episode_id : Z) :
  keeps (digest_frame k)
    (modify (fun d =>
               with_digest_episodes
                 (digest_episodes d
                  ++ [{| DigestEpisode.digest_id := k;
                         DigestEpisode.episode_id := episode_id |}]) d)).
Proof.
  intros w. unfold modify, digest_frame. cbn [snd db tasks removed].
  repeat split; try reflexivity.
  eexists. split; [reflexivity|]. constructor; [reflexivity | constructor].
Qed.

Lemma digest_frame_same_db (k : Z) (w w' : World) :
  db w' = db w -> tasks w' = tasks w -> removed w' = removed w ->
  digest_frame k w w'.
Proof.
  intros Hd Ht Hr. unfold digest_frame. rewrite Hd, Ht, Hr.
  repeat split; try reflexivity.
  exists []. rewrite app_nil_r. split; [reflexivity | constructor].
Qed.

Lemma keeps_commit_digest (k : Z) : keeps (digest_frame k) commit.
Proof. intros w. apply digest_frame_same_db; reflexivity. Qed.

Lemma keeps_count_llm_call (k : Z) : keeps (digest_frame k) count_llm_call.
Proof. intros w. apply digest_frame_same_db; reflexivity. Qed.

Lemma keeps_record_image_call (k : Z) (prompt : str) :
  keeps (digest_frame k) (record_image_call prompt).
Proof. intros w. apply digest_frame_same_db; reflexivity. Qed.

(** One step of a proof that a task keeps the frame of digest [k]. *)
Ltac digest_step k :=
  lazymatch goal with
  | |- keeps _ (Session.bind _ _) =>
      apply keeps_bind; [apply digest_frame_preorder | | intros ?]
  | |- keeps _ (Session.ret _) => apply keeps_ret, digest_frame_preorder
  | |- keeps _ (Session.raise _) => apply keeps_raise, digest_frame_preorder
  | |- keeps _ (Session.lift _) => apply keeps_lift, digest_frame_preorder
  | |- keeps _ Session.get_db => apply keeps_get_db, digest_frame_preorder
  | |- keeps _ Session.commit => apply keeps_commit_digest
  | |- keeps _ Session.count_llm_call => apply keeps_count_llm_call
  | |- keeps _ (Session.record_image_call _) => apply keeps_record_image_call
  | |- keeps _ (Session.try_except _ _) =>
      apply keeps_try_except; [apply digest_frame_preorder | | intros ?]
  | |- keeps _ (Session.modify (update_digest _ _)) =>
      apply keeps_set_digest; intros; reflexivity
  | |- keeps _ (Session.modify _) => apply keeps_link
  | |- keeps _ (match ?x with _ => _ end) => destruct x
  end.

Lemma keeps_image (R : World -> World -> Prop) (google_api_key : option str)
  (imagen : str -> option str) (prompt : str) :
  preorder R -> (forall p, keeps R (record_image_call p)) ->
  keeps R (DigestService._generate_image_gemini google_api_key imagen prompt).
Proof.
  intros HR Hrec. unfold DigestService._generate_image_gemini.
  destruct google_api_key as [[|c key]|]; try (apply keeps_ret; exact HR).
  apply keeps_bind; [exact HR | apply Hrec | intros ?].
  apply keeps_ret. exact HR.
Qed.

Lemma keeps_progress (k : Z) (step detail : str) :
  keeps (digest_frame k) (Digests._update_digest_progress k step detail).
Proof.
  unfold Digests._update_digest_progress, Digests.set_digest.
  repeat digest_step k.
Qed.

Lemma keeps_collect (isoformat : datetime -> str) (k total : Z)
  (eps : list Episode.t) :
  forall i acc,
    keeps (digest_frame k) (Digests.collect isoformat k total i eps acc).
Proof.
  induction eps as [|ep eps IH]; intros i acc; cbn [Digests.collect].
  - apply keeps_ret, digest_frame_preorder.
  - apply keeps_bind; [apply digest_frame_preorder | | intros ?; apply IH].
    unfold Digests.collect_one.
    apply keeps_bind; [apply digest_frame_preorder | | intros d].
    + apply keeps_get_db, digest_frame_preorder.
    + destruct (find_analysis (Episode.id ep) d).
      * apply keeps_bind; [apply digest_frame_preorder | | intros ?].
        -- apply keeps_link.
        -- apply keeps_bind; [apply digest_frame_preorder | | intros ?].
           ++ apply keeps_progress.
           ++ apply keeps_ret, digest_frame_preorder.
      * apply keeps_ret, digest_frame_preorder.
Qed.

(** The synthesis keeps whatever its calls and its progress reports keep. *)
Lemma keeps_generate_digest (R : World -> World -> Prop)
  (json_loads : str -> result json)
  (complete : list DigestService.EpisodeData -> datetime -> datetime -> result str)
  (google_api_key : option str) (imagen : str -> option str) (draw : nat)
  (repr : json -> str) (data : list DigestService.EpisodeData)
  (period_start period_end : datetime) (generate_image : bool)
  (progress_callback : str -> M unit) :
  preorder R ->
  keeps R count_llm_call ->
  (forall p, keeps R (record_image_call p)) ->
  (forall detail, keeps R (progress_callback detail)) ->
  keeps R
    (DigestService.generate_digest json_loads complete google_api_key imagen
       draw repr data period_start period_end generate_image
       (Some progress_callback)).
Proof.
  intros HR Hllm Hrec Hcb.
  unfold DigestService.generate_digest, DigestService.call.
  destruct data as [|x xs].
  - apply keeps_ret. exact HR.
  - apply keeps_bind; [exact HR | exact Hllm | intros ?].
    apply keeps_bind; [exact HR | apply keeps_lift; exact HR | intros text].
    apply keeps_bind; [exact HR | apply keeps_lift; exact HR | intros result].
    apply keeps_bind; [exact HR | | intros image].
    + destruct generate_image; [|apply keeps_ret; exact HR].
      apply keeps_bind;
        [exact HR | apply keeps_lift; exact HR | intros description].
      destruct (truthy description); [|apply keeps_ret; exact HR].
      apply keeps_bind; [exact HR | apply Hcb | intros ?].
      destruct (random_choice draw DigestService.ARTISTS ([], []))
        as [artist_name artist_style].
      apply keeps_bind; [exact HR | apply Hcb | intros ?].
      apply keeps_bind;
        [exact HR | apply keeps_image; assumption | intros ?].
      apply keeps_ret. exact HR.
    + repeat (apply keeps_bind;
                [exact HR | apply keeps_lift; exact HR | intros ?]).
      apply keeps_ret. exact HR.
Qed.

Lemma keeps_process_digest
  (json_loads : str -> result json)
  (complete : list DigestService.EpisodeData -> datetime -> datetime -> result str)
  (google_api_key : option str) (imagen : str -> option str) (draw : nat)
  (repr : json -> str) (isoformat : datetime -> str) (digest_id : Z) :
  keeps (digest_frame digest_id)
    (Digests.process_digest json_loads complete google_api_key imagen draw
       repr isoformat digest_id).
Proof.
  unfold Digests.process_digest, Digests.set_digest.
  apply keeps_bind; [apply digest_frame_preorder | | intros d].
  { apply keeps_get_db, digest_frame_preorder. }
  destruct (find_digest digest_id d) as [digest|];
    [|apply keeps_ret, digest_frame_preorder].
  apply keeps_bind; [apply digest_frame_preorder | | intros ?].
  { apply keeps_set_digest. intros; reflexivity. }
  apply keeps_bind; [apply digest_frame_preorder | | intros ?].
  { apply keeps_progress. }
  apply keeps_try_except; [apply digest_frame_preorder | | intros e].
  - apply keeps_bind; [apply digest_frame_preorder | | intros d'].
    { apply keeps_get_db, digest_frame_preorder. }
    apply keeps_bind; [apply digest_frame_preorder | | intros ?].
    { apply keeps_progress. }
    apply keeps_bind; [apply digest_frame_preorder | | intros data].
    { apply keeps_collect. }
    apply keeps_bind; [apply digest_frame_preorder | | intros ?].
    { apply keeps_commit_digest. }
    destruct data as [|x xs].
    + repeat digest_step digest_id.
    + apply keeps_bind; [apply digest_frame_preorder | | intros ?].
      { apply keeps_progress. }
      apply keeps_bind; [apply digest_frame_preorder | | intros r].
      { apply keeps_generate_digest.
        - apply digest_frame_preorder.
        - apply keeps_count_llm_call.
        - apply keeps_record_image_call.
        - intros detail. apply keeps_progress. }
      repeat digest_step digest_id.
  - repeat digest_step digest_id.
Qed.

(** X12. Whatever its outcome, process_digest changes no podcast, episode or
    analysis row, adds and removes no digest row, leaves the rows of all
    other digests unchanged, only appends links and only links of its
    own digest, and queues no task. *)
Theorem process_digest_frame
  (json_loads : str -> result json)
  (complete : list DigestService.EpisodeData -> datetime -> datetime -> result str)
  (google_api_key : option str) (imagen : str -> option str) (draw : nat)
  (repr : json -> str) (isoformat : datetime -> str)
  (digest_id : Z) (w : World) :
  digest_frame digest_id w
    (snd (Digests.process_digest json_loads complete google_api_key imagen
            draw repr isoformat digest_id w)).
Proof. apply keeps_process_digest. Qed.

(** *** The frame of an episode *)
Lemma episode_frame_preorder (k : Z) : preorder (episode_frame k).
Proof.
  split.
  - intros w. unfold episode_frame. repeat split; reflexivity.
  - intros a b c (P1 & I1 & O1 & A1 & G1 & L1 & T1 & C1 & M1)
      (P2 & I2 & O2 & A2 & G2 & L2 & T2 & C2 & M2).
    unfold episode_frame.
    rewrite P2, I2, O2, A2, G2, L2, T2, C2, M2.
    repeat split; assumption.
Qed.

Lemma update_episode_ids (k : Z) (f : Episode.t -> Episode.t) (d : Db) :
  (forall e, Episode.id (f e) = Episode.id e) ->
  map Episode.id (episodes (update_episode k f d)) = map Episode.id (episodes d).
Proof.
  intros Hid. unfold update_episode, with_episodes. cbn [episodes].
  rewrite map_map. apply map_ext. intros e.
  destruct (Episode.id e =? k); [apply Hid | reflexivity].
Qed.

Lemma update_episode_others (k : Z) (f : Episode.t -> Episode.t) (d : Db) :
  (forall e, Episode.id (f e) = Episode.id e) ->
  other_episodes k (update_episode k f d) = other_episodes k d.
Proof.
  intros Hid. unfold other_episodes, update_episode, with_episodes.
  cbn [episodes].
  induction (episodes d) as [|e l IH]; [reflexivity|].
  cbn [map filter]. destruct (Episode.id e =? k) eqn:E.
  - rewrite Hid, E. cbn [negb]. exact IH.
  - rewrite E. cbn [negb]. rewrite IH. reflexivity.
Qed.

Lemma update_analysis_others (k : Z) (row : EpisodeAnalysis.t) (d : Db) :
  EpisodeAnalysis.episode_id row = k ->
  other_analyses k (update_analysis k (fun _ => row) d) = other_analyses k d.
Proof.
  intros Hrow. unfold other_analyses, update_analysis, with_episode_analyses.
  cbn [episode_analyses].
  induction (episode_analyses d) as [|a l IH]; [reflexivity|].
  cbn [map filter]. destruct (EpisodeAnalysis.episode_id a =? k) eqn:E.
  - rewrite Hrow, Z.eqb_refl. cbn [negb]. exact IH.
  - rewrite E. cbn [negb]. rewrite IH. reflexivity.
Qed.

Lemma append_analysis_others (k : Z) (row : EpisodeAnalysis.t) (d : Db) :
  EpisodeAnalysis.episode_id row = k ->
  other_analyses k (with_episode_analyses (episode_analyses d ++ [row]) d)
  = other_analyses k d.
Proof.
  intros Hrow. unfold other_analyses, with_episode_analyses.
  cbn [episode_analyses]. rewrite filter_app. cbn [filter].
  rewrite Hrow, Z.eqb_refl. cbn [negb]. apply app_nil_r.
Qed.

Lemma keeps_set_episode (k : Z) (f : Episode.t -> Episode.t) :
  (forall e, Episode.id (f e) = Episode.id e) ->
  keeps (episode_frame k) (modify (update_episode k f)).
Proof.
  intros Hid w. unfold modify, episode_frame.
  cbn [snd db tasks llm_calls image_calls].
  rewrite update_episode_ids, update_episode_others by exact Hid.
  repeat split; reflexivity.
Qed.

Lemma episode_frame_same_db (k : Z) (w w' : World) :
  db w' = db w -> tasks w' = tasks w -> llm_calls w' = llm_calls w ->
  image_calls w' = image_calls w ->
  episode_frame k w w'.
Proof.
  intros Hd Ht Hl Hi. unfold episode_frame. rewrite Hd, Ht, Hl, Hi.
  repeat split; reflexivity.
Qed.

Lemma keeps_store_analysis (k : Z) (r : Summarizer.StructuredAnalysis) :
  keeps (episode_frame k) (Analysis.store_analysis k r).
Proof.
  intros w. unfold Analysis.store_analysis, Session.bind, get_db, modify.
  destruct (find_analysis k (db w)); unfold episode_frame;
    cbn [snd db tasks llm_calls image_calls].
  - rewrite update_analysis_others by reflexivity. repeat split; reflexivity.
  - rewrite append_analysis_others by reflexivity. repeat split; reflexivity.
Qed.

Ltac episode_step :=
  lazymatch goal with
  | |- keeps _ (Session.bind _ _) =>
      apply keeps_bind; [apply episode_frame_preorder | | intros ?]
  | |- keeps _ (Session.ret _) => apply keeps_ret, episode_frame_preorder
  | |- keeps _ (Session.raise _) => apply keeps_raise, episode_frame_preorder
  | |- keeps _ (Session.lift _) => apply keeps_lift, episode_frame_preorder
  | |- keeps _ Session.get_db => apply keeps_get_db, episode_frame_preorder
  | |- keeps _ Session.read_audio_path =>
      apply keeps_read_audio_path, episode_frame_preorder
  | |- keeps _ Session.commit =>
      intros ?; apply episode_frame_same_db; reflexivity
  | |- keeps _ (Session.assign_audio_path _) =>
      intros ?; apply episode_frame_same_db; reflexivity
  | |- keeps _ (Session.cleanup _) =>
      intros ?; apply episode_frame_same_db; reflexivity
  | |- keeps _ (Session.try_except _ _) =>
      apply keeps_try_except; [apply episode_frame_preorder | | intros ?]
  | |- keeps _ (Session.try_finally _ _) =>
      apply keeps_try_finally; [apply episode_frame_preorder | | ]
  | |- keeps _ (Session.modify (update_episode _ _)) =>
      apply keeps_set_episode; intros; reflexivity
  | |- keeps _ (Analysis.store_analysis _ _) => apply keeps_store_analysis
  | |- keeps _ (match ?x with _ => _ end) => destruct x
  end.

(** X13. Whatever its outcome, process_episode changes no podcast, digest or
    link, adds and removes no episode row, leaves the rows and the
    analyses of all other episodes unchanged, and queues no task. *)
Theorem process_episode_frame
  (download_audio transcribe : str -> result str)
  (analyze : str -> result Summarizer.StructuredAnalysis)
  (episode_id : Z) (w : World) :
  episode_frame episode_id w
    (snd (Analysis.process_episode download_audio transcribe analyze
            episode_id w)).
Proof.
  revert w. change (keeps (episode_frame episode_id)
                      (Analysis.process_episode download_audio transcribe
                         analyze episode_id)).
  unfold Analysis.process_episode, Analysis.set_episode.
  repeat episode_step.
Qed.

(** X14. regenerate_image either returns a non-empty image, stores it with
    the prompt it was generated from in one commit and has called the
    image service with exactly that prompt, or raises one of three HTTP
    errors (404, 400, 500) and leaves the tables and the commits
    untouched. *)
Theorem regenerate_image_all_or_nothing
  (google_api_key : option str) (imagen : str -> option str) (draw : nat)
  (digest_id : Z) (w : World) :
  match Digests.regenerate_image google_api_key imagen draw digest_id w with
  | (Return (url, prompt), w') =>
      url <> []
      /\ imagen prompt = Some url
      /\ db w' = update_digest digest_id
                   (Digest.set_image (Some url) (Some prompt)) (db w)
      /\ commits w' = commits w ++ [db w']
      /\ image_calls w' = image_calls w ++ [prompt]
  | (Raise e, w') =>
      In e refusals /\ db w' = db w /\ commits w' = commits w
  end.
Proof.
  destruct w as [d cs rm ts lc ic ap].
  unfold Digests.regenerate_image, DigestService.generate_image_for_prompt,
    DigestService._generate_image_gemini, Digests.set_digest, refusals.
  run_steps.
  destruct (find_digest digest_id d) as [digest|]; [|cbn; auto].
  destruct (Digest.image_prompt digest) as [[|c p]|]; [cbn; auto| |cbn; auto].
  destruct google_api_key as [[|k ks]|]; run_steps; [cbn; auto 6| |cbn; auto 6].
  destruct (imagen _) as [[|u us]|] eqn:E; [cbn; auto 6| |cbn; auto 6].
  repeat split; try reflexivity; [discriminate | exact E].
Qed.

Lemma split_ws_blank (x : str) :
  forallb is_space x = true -> split_ws x = [].
Proof.
  unfold split_ws. induction x as [|c r IH]; [reflexivity|].
  cbn [forallb split_ws_aux]. intros H. apply andb_prop in H.
  destruct H as [Hc Hr]. rewrite Hc. exact (IH Hr).
Qed.

(** X15. A transcript longer than CHUNK_SIZE that contains only white space
    is split into no chunk at all. *)
Theorem chunk_blank_transcript (transcript : str) :
  Summarizer.CHUNK_SIZE < len transcript ->
  forallb is_space transcript = true ->
  Summarizer._chunk_transcript transcript = [].
Proof.
  intros Hlong Hblank.
  unfold Summarizer._chunk_transcript, Summarizer.chunk_transcript_with.
  destruct (len transcript <=? Summarizer.CHUNK_SIZE) eqn:E.
  - apply Z.leb_le in E. lia.
  - rewrite (split_ws_blank _ Hblank). reflexivity.
Qed.

Lemma chunk_blank_transcript_witness :
  Summarizer._chunk_transcript blank_transcript = [].
Proof.
  apply (chunk_blank_transcript blank_transcript).
  - apply Z.ltb_lt. vm_compute. reflexivity.
  - vm_compute. reflexivity.
Defined.

Lemma join_nonempty (w : str) (ws : list str) :
  w <> [] -> join space (w :: ws) <> [].
Proof.
  intros Hw. destruct ws as [|v vs]; cbn [join]; [exact Hw|].
  destruct w; [contradiction | discriminate].
Qed.

Lemma chunk_loop_no_empty (cs : Z) (words : list str) :
  Forall (fun w => w <> []) words ->
  forall (chunks cur : list str) (cl : Z),
    cur <> [] -> Forall (fun w => w <> []) cur ->
    snd (Summarizer.chunk_loop cs words chunks cur cl) <> []
    /\ Forall (fun w => w <> [])
         (snd (Summarizer.chunk_loop cs words chunks cur cl))
    /\ (In [] (fst (Summarizer.chunk_loop cs words chunks cur cl))
        <-> In [] chunks).
Proof.
  induction words as [|w ws IH]; intros Hws chunks cur cl Hne Hcur.
  - cbn. tauto.
  - inversion Hws as [|? ? Hw Hws']; subst.
    cbn [Summarizer.chunk_loop].
    destruct (cl + (len w + 1) >? cs).
    + destruct (IH Hws' (chunks ++ [join (lit " ") cur]) [w] (len w + 1))
        as (H1 & H2 & H3); [discriminate | constructor; [exact Hw|constructor] |].
      split; [exact H1|]. split; [exact H2|].
      rewrite H3, in_app_iff. split; [|tauto].
      intros [H|[H|[]]]; [exact H|].
      exfalso. destruct cur as [|c cur]; [contradiction|].
      inversion Hcur; subst.
      exact (join_nonempty c cur ltac:(assumption) H).
    + destruct (IH Hws' chunks (cur ++ [w]) (cl + (len w + 1)))
        as (H1 & H2 & H3).
      * destruct cur; discriminate.
      * apply Forall_app. split; [exact Hcur|]. constructor; [exact Hw|constructor].
      * tauto.
Qed.

Lemma split_ws_one_word (w : str) :
  is_word_text w = true -> split_ws w = [w].
Proof.
  intros Hw. apply (split_ws_join [w]). constructor; [exact Hw | constructor].
Qed.

Lemma words_nonempty (x : str) : Forall (fun w => w <> []) (split_ws x).
Proof.
  eapply Forall_impl; [|apply split_ws_words].
  intros w Hw. apply is_word_text_inv in Hw. tauto.
Qed.

Lemma chunk_empty_iff (cs : Z) (transcript : str) :
  cs < len transcript ->
  In [] (Summarizer.chunk_transcript_with cs transcript)
  <-> exists w ws, split_ws transcript = w :: ws /\ cs < len w + 1.
Proof.
  intros Hlong. unfold Summarizer.chunk_transcript_with.
  destruct (len transcript <=? cs) eqn:E; [apply Z.leb_le in E; lia|].
  pose proof (words_nonempty transcript) as Hws.
  destruct (split_ws transcript) as [|w ws].
  - cbn. split; [tauto|]. intros (w & ws & H & _). discriminate.
  - inversion Hws as [|? ? Hw Hws']; subst.
    cbn [Summarizer.chunk_loop]. rewrite Z.add_0_l.
    destruct (len w + 1 >? cs) eqn:G.
    + destruct (chunk_loop_no_empty cs ws Hws' ([] ++ [join (lit " ") []]) [w]
                  (len w + 1)) as (H1 & H2 & H3);
        [discriminate | constructor; [exact Hw|constructor] |].
      destruct (Summarizer.chunk_loop cs ws _ [w] (len w + 1))
        as [chunks cur]. cbn [fst snd] in *.
      split.
      * intros _. exists w, ws. split; [reflexivity|].
        destruct (Z.gtb_spec (len w + 1) cs); [lia | discriminate].
      * intros _. destruct cur as [|c cur]; [contradiction|].
        apply in_app_iff. left. apply H3. left. reflexivity.
    + destruct (chunk_loop_no_empty cs ws Hws' [] ([] ++ [w]) (len w + 1))
        as (H1 & H2 & H3);
        [discriminate | constructor; [exact Hw|constructor] |].
      destruct (Summarizer.chunk_loop cs ws [] ([] ++ [w]) (len w + 1))
        as [chunks cur]. cbn [fst snd] in *.
      split.
      * intros Hin. exfalso. destruct cur as [|c cur]; [contradiction|].
        apply in_app_iff in Hin. destruct Hin as [Hin|[Hin|[]]].
        -- apply H3 in Hin. exact Hin.
        -- inversion H2; subst.
           exact (join_nonempty c cur ltac:(assumption) Hin).
      * intros (w' & ws' & Heq & Hlen). inversion Heq; subst.
        destruct (Z.gtb_spec (len w' + 1) cs); [discriminate | lia].
Qed.

(** X16. For a transcript longer than CHUNK_SIZE, _chunk_transcript yields
    an empty chunk if and only if the first word, counted with one
    separating space, is longer than CHUNK_SIZE. *)
Theorem chunk_empty_first_word (transcript : str) :
  Summarizer.CHUNK_SIZE < len transcript ->
  In [] (Summarizer._chunk_transcript transcript)
  <-> exists w ws,
        split_ws transcript = w :: ws /\ Summarizer.CHUNK_SIZE < len w + 1.
Proof. apply chunk_empty_iff. Qed.

Lemma chunk_empty_first_word_witness :
  In [] (Summarizer._chunk_transcript long_word).
Proof.
  assert (Summarizer.CHUNK_SIZE < len long_word) as Hlong.
  { apply Z.ltb_lt. vm_compute. reflexivity. }
  apply (proj2 (chunk_empty_first_word long_word Hlong)).
  exists long_word, []. split.
  - apply split_ws_one_word. vm_compute. reflexivity.
  - apply Z.ltb_lt. vm_compute. reflexivity.
Defined.

(** X17. After a process_episode task on an existing episode that runs to
    its end with nothing served in between, get_analysis_status reports:
    'processing' with the message 'Analysis in progress' when the
    construction of the services (AudioService, the transcription
    service, SummarizerService) raised, since the task then raises
    outside its handler and after its first commit; 'completed' with
    'Analysis complete' when the services were built and the download,
    the transcription and the analysis all returned; 'failed' with
    'Error: ' followed by the text of the exception when one of these
    three calls raised. The task raises in the first and in the third
    case, with that exception, and returns in the second. *)
Theorem status_after_processing
  (services : result unit) (download_audio transcribe : str -> result str)
  (analyze : str -> result Summarizer.StructuredAnalysis)
  (w : World) (episode_id : Z) (episode : Episode.t) :
  find_episode episode_id (db w) = Some episode ->
  fst (whole_task services download_audio transcribe analyze episode_id w)
  = match services with
    | Raise e => Raise e
    | Return _ =>
        stages download_audio transcribe analyze (Episode.audio_url episode)
    end
  /\ Analysis.get_analysis_status episode_id
       (snd (whole_task services download_audio transcribe analyze
               episode_id w))
     = (Return
          (reported episode_id services
             (stages download_audio transcribe analyze
                (Episode.audio_url episode))),
        snd (whole_task services download_audio transcribe analyze
               episode_id w)).
Proof.
  intros Hfind. destruct w as [d cs rm ts lc ic ap]. cbn [db] in Hfind.
  unfold whole_task, EventLoop.process_episode, EventLoop.after_download,
    EventLoop.after_transcribe, EventLoop.after_analyze, EventLoop.stretch,
    EventLoop.on_error, EventLoop.on_exit, Analysis.set_episode,
    Analysis.store_analysis, stages, reported.
  cbn [db]. rewrite Hfind.
  destruct services as [u|e0]; run_steps; cbn [fst snd EventLoop.finish].
  1: destruct (download_audio (Episode.audio_url episode)) as [path|e];
     run_steps; cbn [fst snd EventLoop.finish].
  1: destruct (transcribe path) as [transcript|e]; run_steps;
     cbn [fst snd EventLoop.finish].
  1: destruct (analyze transcript) as [r|e]; run_steps;
     cbn [fst snd EventLoop.finish].
  1: rewrite !find_analysis_update_episode;
     destruct (find_analysis episode_id d) as [a|]; run_steps.
  1-4: destruct path as [|c path]; run_steps.
  all: cbn [fst snd EventLoop.finish]; (split; [reflexivity|]).
  all: unfold Analysis.get_analysis_status; run_steps.
  all: find_rows; rewrite Hfind; cbn [option_map]; reflexivity.
Qed.

Lemma status_after_processing_witness :
  fst (Analysis.get_analysis_status 3
         (snd (whole_task (Return tt) sample_download sample_transcribe
                 failing_analyze 3 (init queue_db))))
  = Return {| as_episode_id := 3; as_status := failed;
              as_message := Some (lit "Error: overloaded") |}.
Proof.
  rewrite (proj2 (status_after_processing (Return tt) sample_download
                    sample_transcribe failing_analyze (init queue_db) 3
                    pending_episode eq_refl)).
  reflexivity.
Defined.

(** ** Deleting a digest *)
Lemma find_digest_id (k : Z) (d : Db) (g : Digest.t) :
  find_digest k d = Some g -> Digest.id g = k.
Proof.
  unfold find_digest. intros H. apply find_some in H.
  destruct H as [_ H]. apply Z.eqb_eq. exact H.
Qed.

Lemma find_digest_deleted (k k' : Z) (l : list Digest.t) :
  find (fun g => Digest.id g =? k')
    (filter (fun g => negb (Digest.id g =? k)) l)
  = if k' =? k then None else find (fun g => Digest.id g =? k') l.
Proof.
  induction l as [|g l IH]; cbn [filter find].
  - destruct (k' =? k); reflexivity.
  - destruct (Digest.id g =? k) eqn:E; cbn [negb find].
    + rewrite IH. apply Z.eqb_eq in E. rewrite E.
      destruct (k' =? k) eqn:E'; [reflexivity|].
      rewrite (Z.eqb_sym k k'), E'. reflexivity.
    + destruct (Digest.id g =? k') eqn:E'; [|exact IH].
      apply Z.eqb_eq in E'. rewrite <- E', E. reflexivity.
Qed.

Lemma links_deleted (k k' : Z) (l : list DigestEpisode.t) :
  filter (fun x => DigestEpisode.digest_id x =? k')
    (filter (fun x => negb (DigestEpisode.digest_id x =? k)) l)
  = if k' =? k then []
    else filter (fun x => DigestEpisode.digest_id x =? k') l.
Proof.
  induction l as [|x l IH]; cbn [filter].
  - destruct (k' =? k); reflexivity.
  - destruct (DigestEpisode.digest_id x =? k) eqn:E; cbn [negb filter].
    + rewrite IH. apply Z.eqb_eq in E. rewrite E.
      destruct (k' =? k) eqn:E'; [reflexivity|].
      rewrite (Z.eqb_sym k k'), E'. reflexivity.
    + rewrite IH.
      destruct (DigestEpisode.digest_id x =? k') eqn:E';
        destruct (k' =? k) eqn:E''; try reflexivity.
      apply Z.eqb_eq in E', E''. rewrite <- E'', <- E', Z.eqb_refl in E.
      discriminate.
Qed.

(** X18. delete_digest on an unknown id raises 404 and changes nothing. On
    an existing digest it removes the row and its links and commits
    once; afterwards get_digest on that id raises 404, every other
    digest reads exactly as before, and the episodes are untouched. *)
Theorem delete_digest_then_get (digest_id : Z) (w : World) :
  match find_digest digest_id (db w) with
  | None =>
      Digests.delete_digest digest_id w = (Raise Digests.digest_not_found, w)
  | Some _ =>
      exists w',
        Digests.delete_digest digest_id w = (Return tt, w')
        /\ Digests.get_digest digest_id w'
           = (Raise Digests.digest_not_found, w')
        /\ Digests.links_of digest_id (db w') = []
        /\ (forall k, k <> digest_id ->
              Digests.get_digest k w' = (fst (Digests.get_digest k w), w'))
        /\ episodes (db w') = episodes (db w)
        /\ commits w' = commits w ++ [db w']
  end.
Proof.
  destruct w as [d cs rm ts lc ic ap]. cbn [db commits].
  destruct (find_digest digest_id d) as [g|] eqn:Hf.
  - pose proof (find_digest_id _ _ _ Hf) as Hid.
    unfold Digests.delete_digest. run_steps. rewrite Hf. run_steps.
    rewrite Hid. eexists. split; [reflexivity|].
    cbn [db commits]. split; [|split; [|split]].
    + unfold Digests.get_digest. run_steps.
      unfold find_digest, with_digest_episodes, with_digests. cbn [digests].
      rewrite find_digest_deleted, Z.eqb_refl. reflexivity.
    + unfold Digests.links_of, with_digest_episodes. cbn [digest_episodes].
      rewrite links_deleted, Z.eqb_refl. reflexivity.
    + intros k Hk. unfold Digests.get_digest. run_steps.
      unfold find_digest, with_digest_episodes, with_digests. cbn [digests].
      rewrite find_digest_deleted.
      destruct (k =? digest_id) eqn:E; [apply Z.eqb_eq in E; contradiction|].
      destruct (find (fun g0 => Digest.id g0 =? k) (digests d)) as [g'|] eqn:Hg;
        [|reflexivity].
      assert (Digest.id g' = k) as Hid' by (apply (find_digest_id k d); exact Hg).
      cbn [fst]. unfold Digests.links_of. cbn [digest_episodes].
      rewrite links_deleted, Hid', E. reflexivity.
    + split; reflexivity.
  - unfold Digests.delete_digest. run_steps. rewrite Hf. reflexivity.
Qed.

Lemma progress_only_preorder : preorder progress_only.
Proof.
  split.
  - intros w. unfold progress_only. repeat split; try reflexivity.
    exists []. rewrite app_nil_r. reflexivity.
  - intros a b c (P1 & E1 & A1 & L1 & I1 & (c1 & C1))
      (P2 & E2 & A2 & L2 & I2 & (c2 & C2)).
    unfold progress_only. rewrite P2, E2, A2, L2, I2.
    repeat split; try assumption.
    exists (c1 ++ c2). rewrite C2, C1, app_assoc. reflexivity.
Qed.

Lemma find_digest_In (k : Z) (d : Db) :
  In k (map Digest.id (digests d)) <-> exists g, find_digest k d = Some g.
Proof.
  unfold find_digest. induction (digests d) as [|g l IH]; cbn [map find In].
  - split; [tauto | intros [g H]; discriminate].
  - destruct (Digest.id g =? k) eqn:E.
    + apply Z.eqb_eq in E. split; [eauto | auto].
    + rewrite <- IH. apply Z.eqb_neq in E. tauto.
Qed.

Lemma find_digest_kept (k : Z) (d d' : Db) (g : Digest.t) :
  map Digest.id (digests d') = map Digest.id (digests d) ->
  find_digest k d = Some g -> exists g', find_digest k d' = Some g'.
Proof.
  intros Hids Hg. apply find_digest_In. rewrite Hids.
  apply find_digest_In. eauto.
Qed.

Lemma keeps_llm_progress : keeps progress_only count_llm_call.
Proof.
  intros w. unfold progress_only. cbn [snd count_llm_call db commits].
  repeat split; try reflexivity. exists []. rewrite app_nil_r. reflexivity.
Qed.

Lemma keeps_image_progress (p : str) :
  keeps progress_only (record_image_call p).
Proof.
  intros w. unfold progress_only. cbn [snd record_image_call db commits].
  repeat split; try reflexivity. exists []. rewrite app_nil_r. reflexivity.
Qed.

(** What the task leaves, with the links in the order in which this model
    answers the query of the period. *)
Lemma process_digest_outcome
  (json_loads : str -> result json)
  (complete : list DigestService.EpisodeData -> datetime -> datetime -> result str)
  (google_api_key : option str) (imagen : str -> option str) (draw : nat)
  (repr : json -> str) (isoformat : datetime -> str)
  (w : World) (digest_id : Z) (digest : Digest.t) :
  find_digest digest_id (db w) = Some digest ->
  stores_text
    (fst (DigestService.generate_digest json_loads complete google_api_key
            imagen draw repr
            (collected isoformat (db w) (Digests.period_episodes digest (db w)))
            (Digest.period_start digest) (Digest.period_end digest) true
            (image_progress digest_id) w)) = true ->
  exists r w' final,
    Digests.process_digest json_loads complete google_api_key imagen draw repr
      isoformat digest_id w = (r, w')
    /\ find_digest digest_id (db w') = Some final
    /\ Digest.processing_step final = None
    /\ Digest.processing_detail final = None
    /\ match r with
       | Return _ =>
           Digest.status final = completed
           /\ is_text (Digest.summary final) = true
       | Raise e =>
           Digest.status final = failed
           /\ Digest.summary final = JStr (lit "Error: " ++ str_of_exn e)
       end
    /\ digest_episodes (db w')
       = digest_episodes (db w)
         ++ links digest_id (db w) (Digests.period_episodes digest (db w))
    /\ exists before, commits w' = commits w ++ before ++ [db w'].
Proof.
  intros Hfind Htext. destruct w as [d cs rm ts lc ic ap].
  cbn [db llm_calls image_calls commits] in *.
  unfold Digests.process_digest, Digests._update_digest_progress,
    Digests.set_digest.
  run_steps. rewrite Hfind. run_steps.
  run_collect Hfind w2 Hrun Hpost.
  rewrite Hrun.
  destruct Hpost as ((g' & Hg' & Hs) & _ & _ & _ & Hde & _ & _ & Hnil & Hcs).
  assert (exists cs2, commits w2 = cs ++ cs2) as (cs2 & Hc2).
  { destruct (links digest_id d (Digests.period_episodes digest d)) eqn:El.
    - rewrite (Hnil eq_refl). cbn [commits]. rewrite <- app_assoc.
      eexists. reflexivity.
    - destruct Hcs as (cs' & Hcs'); [discriminate|]. rewrite Hcs'.
      cbn [commits]. repeat rewrite <- app_assoc. eexists. reflexivity. }
  clear Hnil Hcs Hrun.
  destruct w2 as [d2 cs2' rm2 ts2 lc2 ic2 ap2].
  cbn [db llm_calls image_calls commits digest_episodes] in *.
  subst cs2'.
  destruct (collected isoformat d (Digests.period_episodes digest d))
    as [|x xs].
  - run_steps. do 3 eexists.
    split; [reflexivity|].
    cbn [db commits]. find_digests. rewrite Hg'. cbn [option_map].
    split; [reflexivity|]. do 2 (split; [reflexivity|]).
    split; [split; reflexivity|].
    split; [exact Hde|].
    repeat rewrite <- app_assoc. cbn [app]. eexists (cs2 ++ [_]).
    repeat rewrite <- app_assoc. reflexivity.
  - destruct (generate_digest_uniform json_loads complete google_api_key
                imagen draw repr digest_id x xs (Digest.period_start digest)
                (Digest.period_end digest)) as [(e' & Hu)|(r0 & Hu)].
    + run_steps.
      match goal with
      | |- context [DigestService.generate_digest ?jl ?c ?k ?im ?dr ?rp ?data
                      ?ps ?pe ?gi ?cbo ?w3] =>
          change (DigestService.generate_digest jl c k im dr rp data ps pe gi
                    cbo w3)
            with (DigestService.generate_digest jl c k im dr rp data ps pe gi
                    (image_progress digest_id) w3);
          rewrite (Hu w3)
      end.
      run_steps. cbn [snd]. run_steps.
      do 3 eexists.
        split; [reflexivity|].
      cbn [db commits]. find_digests. rewrite Hg'. cbn [option_map].
      split; [reflexivity|]. do 2 (split; [reflexivity|]).
      split; [split; reflexivity|].
      split; [exact Hde|].
      repeat rewrite <- app_assoc. cbn [app]. eexists (cs2 ++ [_; _]).
      repeat rewrite <- app_assoc. reflexivity.
    + rewrite (Hu _) in Htext. cbn [stores_text] in Htext.
      match goal with
      | |- context [DigestService.generate_digest ?jl ?c ?k ?im ?dr ?rp ?data
                      ?ps ?pe ?gi ?cbo ?w3] =>
          pose proof (Hu w3) as Hres;
          lazymatch cbo with
          | Some ?cb =>
              assert (forall detail, keeps progress_only (cb detail)) as Hcb;
              [ intros detail [d0 c0 r0' t0 l0 i0 a0]; unfold progress_only;
                cbn [snd db commits];
                rewrite update_digest_ids by (intros; reflexivity);
                repeat split; try reflexivity; eexists; reflexivity
              | pose proof (keeps_generate_digest progress_only jl c k im dr rp
                              data ps pe gi cb progress_only_preorder
                              keeps_llm_progress keeps_image_progress Hcb w3)
                  as Hgen;
                change (progress_only w3
                          (snd (DigestService.generate_digest jl c k im dr rp
                                  data ps pe gi cbo w3))) in Hgen;
                change (fst (DigestService.generate_digest jl c k im dr rp
                               data ps pe gi cbo w3) = Return r0) in Hres;
                destruct (DigestService.generate_digest jl c k im dr rp data ps
                            pe gi cbo w3) as [[res|e] w4] ]
          end
      end.
      2: discriminate Hres.
      cbn [fst] in Hres. injection Hres as ->.
      destruct w4 as [d4 cs4 rm4 ts4 lc4 ic4 ap4].
      destruct Hgen as (_ & _ & _ & Hl4 & Hi4 & (cs4' & Hc4)).
      cbn [snd db commits digest_episodes update_digest with_digests] in Hl4, Hc4.
      cbn [snd db] in Hi4.
      rewrite update_digest_ids in Hi4 by (intros; reflexivity).
      destruct (find_digest_kept digest_id d2 d4 g' Hi4 Hg') as (g4 & Hg4).
      do 3 eexists.
        split; [reflexivity|]. cbv beta iota.
      find_digests. rewrite Hg4. cbn [option_map].
      split; [reflexivity|]. do 2 (split; [reflexivity|]).
      split; [split; [reflexivity | exact Htext]|].
      split;
        [cbn [digest_episodes update_digest with_digests]; rewrite Hl4;
         exact Hde|].
     
      rewrite Hc4. repeat rewrite <- app_assoc. cbn [app].
      eexists (cs2 ++ _ :: _ :: cs4').
      repeat rewrite <- app_assoc. cbn [app]. reflexivity.
Qed.

(** X19. When the summary that generate_digest returns for the collected
    episodes is text (a string or null, what the Text column takes),
    process_digest on an existing digest does not leave it processing:
    if it returns, the digest is completed and its summary is text; if
    it raises e, the digest is failed with the summary 'Error: '
    followed by the text of e; in both cases the step and detail are
    cleared, one link per analysed episode of the period has been
    appended (in the order of the query, so up to a permutation), and
    the last commit holds the final state. *)
Theorem process_digest_settles
  (json_loads : str -> result json)
  (complete : list DigestService.EpisodeData -> datetime -> datetime -> result str)
  (google_api_key : option str) (imagen : str -> option str) (draw : nat)
  (repr : json -> str) (isoformat : datetime -> str)
  (w : World) (digest_id : Z) (digest : Digest.t) :
  find_digest digest_id (db w) = Some digest ->
  stores_text
    (fst (DigestService.generate_digest json_loads complete google_api_key
            imagen draw repr
            (collected isoformat (db w) (Digests.period_episodes digest (db w)))
            (Digest.period_start digest) (Digest.period_end digest) true
            (image_progress digest_id) w)) = true ->
  exists r w' final added,
    Digests.process_digest json_loads complete google_api_key imagen draw repr
      isoformat digest_id w = (r, w')
    /\ find_digest digest_id (db w') = Some final
    /\ Digest.processing_step final = None
    /\ Digest.processing_detail final = None
    /\ match r with
       | Return _ =>
           Digest.status final = completed
           /\ is_text (Digest.summary final) = true
       | Raise e =>
           Digest.status final = failed
           /\ Digest.summary final = JStr (lit "Error: " ++ str_of_exn e)
       end
    /\ digest_episodes (db w') = digest_episodes (db w) ++ added
    /\ Permutation added
         (links digest_id (db w) (Digests.period_episodes digest (db w)))
    /\ exists before, commits w' = commits w ++ before ++ [db w'].
Proof.
  intros Hfind Htext.
  destruct (process_digest_outcome json_loads complete google_api_key imagen
              draw repr isoformat w digest_id digest Hfind Htext)
    as (r & w' & final & H1 & H2 & H3 & H4 & H5 & H6 & H7).
  exists r, w', final,
    (links digest_id (db w) (Digests.period_episodes digest (db w))).
  repeat (split; [assumption|]).
  split; [apply Permutation_refl | exact H7].
Qed.

Lemma process_digest_settles_witness :
  exists r w' final,
    Digests.process_digest sample_loads sample_complete None no_image 0
      sample_repr sample_isoformat 8 (init library_db) = (r, w')
    /\ find_digest 8 (db w') = Some final
    /\ Digest.processing_step final = None
    /\ digest_episodes (db w')
       = [{| DigestEpisode.digest_id := 8; DigestEpisode.episode_id := 3 |}].
Proof.
  destruct (process_digest_settles sample_loads sample_complete None no_image
              0%nat sample_repr sample_isoformat (init library_db) 8 new_digest
              eq_refl eq_refl)
    as (r & w' & final & added & H1 & H2 & H3 & _ & _ & H6 & H7 & _).
  exists r, w', final.
  change (links 8 (db (init library_db))
            (Digests.period_episodes new_digest (db (init library_db))))
    with [{| DigestEpisode.digest_id := 8; DigestEpisode.episode_id := 3 |}]
    in H7.
  apply Permutation_sym, Permutation_length_1_inv in H7. subst added.
  repeat split; assumption.
Defined.

Lemma find_episode_In (d : Db) (ep : Episode.t) :
  NoDup (map Episode.id (episodes d)) -> In ep (episodes d) ->
  find_episode (Episode.id ep) d = Some ep.
Proof.
  unfold find_episode. induction (episodes d) as [|e l IH]; intros Hnd Hin.
  - contradiction.
  - cbn [map] in Hnd. inversion Hnd as [|? ? Hn Hl]; subst.
    cbn [find]. destruct Hin as [->|Hin].
    + rewrite Z.eqb_refl. reflexivity.
    + destruct (Episode.id e =? Episode.id ep) eqn:E.
      * apply Z.eqb_eq in E. exfalso. apply Hn. rewrite E.
        apply in_map. exact Hin.
      * apply IH; assumption.
Qed.

Lemma period_episodes_In (g : Digest.t) (d : Db) (ep : Episode.t) :
  In ep (Digests.period_episodes g d) -> In ep (episodes d).
Proof.
  unfold Digests.period_episodes.
  destruct (Digest.podcast_ids g) as [[|i ids]|]; intros H.
  - apply filter_In in H. tauto.
  - apply filter_In in H. destruct H as [H _]. apply filter_In in H. tauto.
  - apply filter_In in H. tauto.
Qed.

Lemma links_of_links (k : Z) (d d' : Db) (eps : list Episode.t) :
  digest_episodes d' = digest_episodes d ++ links k d eps ->
  Digests.links_of k d' = Digests.links_of k d ++ links k d eps.
Proof.
  intros H. unfold Digests.links_of. rewrite H, filter_app. f_equal.
  unfold links. induction (filter (has_analysis d) eps) as [|e l IH];
    [reflexivity|].
  cbn [map filter DigestEpisode.digest_id]. rewrite Z.eqb_refl, IH.
  reflexivity.
Qed.

Lemma listed_episodes (d d' : Db) (k : Z) (eps : list Episode.t) :
  episodes d' = episodes d -> podcasts d' = podcasts d ->
  (forall ep, In ep eps -> find_episode (Episode.id ep) d = Some ep) ->
  flat_map
    (fun de =>
       match find_episode (DigestEpisode.episode_id de) d' with
       | Some ep =>
           [{| dei_id := Episode.id ep;
               dei_title := Episode.title ep;
               dei_podcast_id := Episode.podcast_id ep;
               dei_podcast_title :=
                 match find_podcast (Episode.podcast_id ep) d' with
                 | Some p => Podcast.title p
                 | None => lit "Unknown"
                 end;
               dei_published_at := Episode.published_at ep |}]
       | None => []
       end) (links k d eps)
  = map (episode_info d) (filter (has_analysis d) eps).
Proof.
  intros He Hp Hfind. unfold links, find_episode, find_podcast.
  rewrite He, Hp.
  assert (forall ep, In ep (filter (has_analysis d) eps) ->
                     find_episode (Episode.id ep) d = Some ep) as H.
  { intros ep Hin. apply Hfind. apply filter_In in Hin. tauto. }
  induction (filter (has_analysis d) eps) as [|e l IH]; [reflexivity|].
  cbn [map flat_map DigestEpisode.episode_id].
  fold (find_episode (Episode.id e) d).
  rewrite (H e (or_introl eq_refl)). cbn [app]. f_equal.
  apply IH. intros ep Hin. apply H. right. exact Hin.
Qed.

(** X20. For a digest without links and a table with distinct episode ids:
    when the summary that generate_digest returns is text and the row
    the task leaves has analysis fields of the types the response model
    declares (a string or null for the summary, a list of dictionaries
    or null for the trends, lists of strings or null for the other
    lists), get_digest after process_digest, whether the task returned
    or raised, answers with the digest, its status completed or failed
    accordingly, and lists exactly the episodes of the digest's period
    that had an analysis, each with its podcast's title, in an order
    that is not determined (a permutation of the table order). *)
Theorem get_digest_after_processing
  (json_loads : str -> result json)
  (complete : list DigestService.EpisodeData -> datetime -> datetime -> result str)
  (google_api_key : option str) (imagen : str -> option str) (draw : nat)
  (repr : json -> str) (isoformat : datetime -> str)
  (w : World) (digest_id : Z) (digest : Digest.t) :
  find_digest digest_id (db w) = Some digest ->
  Digests.links_of digest_id (db w) = [] ->
  NoDup (map Episode.id (episodes (db w))) ->
  stores_text
    (fst (DigestService.generate_digest json_loads complete google_api_key
            imagen draw repr
            (collected isoformat (db w) (Digests.period_episodes digest (db w)))
            (Digest.period_start digest) (Digest.period_end digest) true
            (image_progress digest_id) w)) = true ->
  presentable_at digest_id
    (db (snd (Digests.process_digest json_loads complete google_api_key imagen
                draw repr isoformat digest_id w))) = true ->
  exists r w' view,
    Digests.process_digest json_loads complete google_api_key imagen draw repr
      isoformat digest_id w = (r, w')
    /\ Digests.get_digest digest_id w' = (Return view, w')
    /\ dd_id view = digest_id
    /\ dd_status view
       = match r with Return _ => completed | Raise _ => failed end
    /\ Permutation (dd_episodes view)
         (map (episode_info (db w))
            (filter (has_analysis (db w))
               (Digests.period_episodes digest (db w)))).
Proof.
  intros Hfind Hnone Hnd Htext _.
  destruct (process_digest_outcome json_loads complete google_api_key imagen
              draw repr isoformat w digest_id digest Hfind Htext)
    as (r & w' & final & Hrun & Hfinal & _ & _ & Hstatus & Hlinks & _).
  pose proof (keeps_process_digest json_loads complete google_api_key imagen
                draw repr isoformat digest_id w) as Hframe.
  rewrite Hrun in Hframe. cbn [snd] in Hframe.
  destruct Hframe as (Hp & He & _).
  exists r, w'. eexists. split; [exact Hrun|].
  unfold Digests.get_digest, Session.bind, get_db, ret.
  rewrite Hfinal. split; [reflexivity|].
  cbn [dd_id dd_status dd_episodes].
  split; [exact (find_digest_id _ _ _ Hfinal)|].
  split; [destruct r as [u|e]; [exact (proj1 Hstatus) | exact (proj1 Hstatus)]|].
  rewrite (find_digest_id _ _ _ Hfinal).
  rewrite (links_of_links _ _ _ _ Hlinks), Hnone. cbn [app].
  rewrite (listed_episodes (db w) (db w') digest_id
             (Digests.period_episodes digest (db w)) He Hp).
  - apply Permutation_refl.
  - intros ep Hin. apply find_episode_In; [exact Hnd|].
    exact (period_episodes_In _ _ _ Hin).
Qed.

Lemma get_digest_after_processing_witness :
  exists r w' view,
    Digests.process_digest sample_loads failing_complete None no_image 0
      sample_repr sample_isoformat 8 (init library_db) = (r, w')
    /\ Digests.get_digest 8 w' = (Return view, w')
    /\ dd_status view = failed
    /\ map dei_id (dd_episodes view) = [3]
    /\ map dei_podcast_title (dd_episodes view) = [lit "Sea Talk"].
Proof.
  assert (NoDup (map Episode.id (episodes (db (init library_db))))) as Hnd.
  { cbn. repeat constructor. intros []. }
  destruct (get_digest_after_processing sample_loads failing_complete None
              no_image 0%nat sample_repr sample_isoformat (init library_db) 8
              new_digest eq_refl eq_refl Hnd eq_refl eq_refl)
    as (r & w' & view & H1 & H2 & _ & H4 & H5).
  exists r, w', view. split; [exact H1|]. split; [exact H2|].
  assert (r = Raise (Exception (lit "overloaded"))) as Hr.
  { apply (f_equal fst) in H1. cbn [fst] in H1. rewrite <- H1.
    vm_compute. reflexivity. }
  rewrite Hr in H4. split; [exact H4|].
  change (map (episode_info (db (init library_db)))
            (filter (has_analysis (db (init library_db)))
               (Digests.period_episodes new_digest (db (init library_db)))))
    with [episode_info library_db harbor_episode] in H5.
  apply Permutation_sym, Permutation_length_1_inv in H5. rewrite H5.
  split; vm_compute; reflexivity.
Defined.

Lemma drop_while_keeps (p : ascii -> bool) (c : ascii) (x : str) :
  p c = false -> In c x -> In c (drop_while p x).
Proof.
  intros Hc. induction x as [|a x IH]; [tauto|].
  cbn [drop_while]. destruct (p a) eqn:E; [|tauto].
  intros [->|H]; [congruence | exact (IH H)].
Qed.

Lemma int_strip_keeps (c : ascii) (x : str) :
  is_int_space c = false -> In c x -> In c (int_strip x).
Proof.
  intros Hc Hin. unfold int_strip. apply in_rev. rewrite rev_involutive.
  apply drop_while_keeps; [exact Hc|]. apply in_rev. rewrite rev_involutive.
  apply drop_while_keeps; assumption.
Qed.

Lemma int_digits_colon (x : str) :
  In colon x -> forall st acc n, int_digits st acc n x = None.
Proof.
  induction x as [|c r IH]; [contradiction|].
  intros Hin st acc n. cbn [int_digits].
  destruct (is_decimal c) eqn:Ed.
  - destruct Hin as [->|Hin]; [discriminate Ed | apply IH; exact Hin].
  - destruct (Ascii.eqb c "_") eqn:Eu; [|reflexivity].
    destruct Hin as [->|Hin]; [discriminate Eu|].
    destruct st; try reflexivity. apply IH. exact Hin.
Qed.

(** A string that holds a colon is no integer literal. *)
Lemma int_colon (x : str) :
  In colon x -> exists e, int x = Raise e /\ is_ValueError e = true.
Proof.
  intros Hin. apply (int_strip_keeps colon) in Hin; [|reflexivity].
  unfold int.
  assert (In colon (snd (match int_strip x with
                         | "+"%char :: r => (1, r)
                         | "-"%char :: r => (-1, r)
                         | _ => (1, int_strip x)
                         end))) as Hd.
  { revert Hin. generalize (int_strip x). intros body Hin.
    destruct body as [|c r]; [contradiction|].
    destruct c as [[] [] [] [] [] [] [] []]; cbn [snd]; try exact Hin;
      destruct Hin as [H|H]; try discriminate H; exact H. }
  destruct (match int_strip x with
            | "+"%char :: r => (1, r)
            | "-"%char :: r => (-1, r)
            | _ => (1, int_strip x)
            end) as [sign digits].
  cbn [snd] in Hd. rewrite (int_digits_colon digits Hd).
  eexists. split; reflexivity.
Qed.

Lemma split_on_field (cur a rest : str) :
  no_colon a = true ->
  split_on_aux colon cur (a ++ colon :: rest)
  = rev (rev a ++ cur) :: split_on_aux colon [] rest.
Proof.
  revert cur. induction a as [|c a IH]; intros cur H.
  - reflexivity.
  - cbn [no_colon forallb] in H. apply andb_prop in H. destruct H as [Hc Ha].
    apply negb_true_iff in Hc. cbn [app split_on_aux]. rewrite Hc.
    rewrite (IH (c :: cur) Ha). cbn [rev]. rewrite <- app_assoc. reflexivity.
Qed.

Lemma split_on_last (cur a : str) :
  no_colon a = true ->
  split_on_aux colon cur a = [rev (rev a ++ cur)].
Proof.
  revert cur. induction a as [|c a IH]; intros cur H.
  - reflexivity.
  - cbn [no_colon forallb] in H. apply andb_prop in H. destruct H as [Hc Ha].
    apply negb_true_iff in Hc. cbn [split_on_aux]. rewrite Hc.
    rewrite (IH (c :: cur) Ha). cbn [rev]. rewrite <- app_assoc. reflexivity.
Qed.

Lemma split_two (a b : str) :
  no_colon a = true -> no_colon b = true ->
  split_on colon (a ++ colon :: b) = [a; b].
Proof.
  intros Ha Hb. unfold split_on.
  rewrite (split_on_field [] a b Ha), (split_on_last [] b Hb).
  rewrite !app_nil_r, !rev_involutive. reflexivity.
Qed.

Lemma split_three (a b c : str) :
  no_colon a = true -> no_colon b = true -> no_colon c = true ->
  split_on colon (a ++ colon :: b ++ colon :: c) = [a; b; c].
Proof.
  intros Ha Hb Hc. unfold split_on.
  rewrite (split_on_field [] a _ Ha), (split_on_field [] b c Hb),
    (split_on_last [] c Hc).
  rewrite !app_nil_r, !rev_involutive. reflexivity.
Qed.

Lemma parse_duration_fields (x : str) (fields : list str) :
  In colon x -> x <> [] -> split_on colon x = fields ->
  FeedParser.parse_duration x
  = try_except_ValueError
      (match fields with
       | [_; _; _] =>
           Py.bind (mapM int fields)
             (fun l =>
                match l with
                | [hours; minutes; seconds] =>
                    Return (Some (hours * 3600 + minutes * 60 + seconds))
                | _ => Raise (ValueError (lit "not enough values to unpack"))
                end)
       | [_; _] =>
           Py.bind (mapM int fields)
             (fun l =>
                match l with
                | [minutes; seconds] => Return (Some (minutes * 60 + seconds))
                | _ => Raise (ValueError (lit "not enough values to unpack"))
                end)
       | _ => Return None
       end)
      (Return None).
Proof.
  intros Hin Hne Hs. unfold FeedParser.parse_duration.
  destruct x as [|c0 x0]; [contradiction|].
  destruct (int_colon _ Hin) as (e & He & Hv).
  unfold try_except_ValueError at 1. rewrite He. unfold Py.bind at 1.
  unfold colon in Hs. rewrite Hv, Hs. reflexivity.
Qed.

(** X21. Two or three colon-free integer literals joined by colons are
    parsed as minutes:seconds or hours:minutes:seconds and added up
    (x*60+y, x*3600+y*60+z); each field is read as int reads it, so
    signs, surrounding spaces, underscores and values of 60 or more are
    accepted and no range is checked. *)
Theorem parse_duration_colon_formula (a b c : str) (x y z : Z) :
  no_colon a = true -> no_colon b = true -> no_colon c = true ->
  int a = Return x -> int b = Return y -> int c = Return z ->
  FeedParser.parse_duration (a ++ colon :: b) = Return (Some (x * 60 + y))
  /\ FeedParser.parse_duration (a ++ colon :: b ++ colon :: c)
     = Return (Some (x * 3600 + y * 60 + z)).
Proof.
  intros Ha Hb Hc Hx Hy Hz. split.
  - rewrite (parse_duration_fields _ [a; b]).
    + cbn [mapM]. rewrite Hx, Hy. reflexivity.
    + apply in_or_app. right. left. reflexivity.
    + destruct a; discriminate.
    + apply split_two; assumption.
  - rewrite (parse_duration_fields _ [a; b; c]).
    + cbn [mapM]. rewrite Hx, Hy, Hz. reflexivity.
    + apply in_or_app. right. left. reflexivity.
    + destruct a; discriminate.
    + apply split_three; assumption.
Qed.

Lemma parse_duration_colon_formula_witness :
  FeedParser.parse_duration (lit "-1: 90") = Return (Some 30)
  /\ FeedParser.parse_duration (lit "-1: 90:1_0") = Return (Some 1810).
Proof.
  exact (parse_duration_colon_formula (lit "-1") (lit " 90") (lit "1_0")
           (-1) 90 10 eq_refl eq_refl eq_refl eq_refl eq_refl eq_refl).
Defined.

Lemma drop_while_lacks (c : ascii) (pre rest : str) :
  lacks c pre = true ->
  drop_while (fun a => negb (Ascii.eqb a c)) (pre ++ c :: rest) = c :: rest.
Proof.
  induction pre as [|a pre IH]; intros H.
  - cbn [app drop_while]. rewrite Ascii.eqb_refl. reflexivity.
  - cbn [lacks forallb] in H. apply andb_prop in H. destruct H as [Ha Hp].
    cbn [app drop_while]. rewrite Ha. exact (IH Hp).
Qed.

Lemma lacks_rev (c : ascii) (x : str) : lacks c (rev x) = lacks c x.
Proof.
  unfold lacks. induction x as [|a x IH]; [reflexivity|].
  cbn [rev forallb]. rewrite forallb_app, IH. cbn [forallb].
  rewrite andb_true_r. apply andb_comm.
Qed.

(** From the first opening brace to the last closing brace. *)
Lemma brace_span_found (pre mid post : str) :
  lacks open_brace pre = true -> lacks close_brace post = true ->
  DigestService.brace_span (pre ++ open_brace :: mid ++ close_brace :: post)
  = Some (open_brace :: mid ++ [close_brace]).
Proof.
  intros Hpre Hpost. unfold DigestService.brace_span.
  change (fun c : ascii => negb (Ascii.eqb c "{"))
    with (fun a : ascii => negb (Ascii.eqb a open_brace)).
  change (fun c : ascii => negb (Ascii.eqb c "}"))
    with (fun a : ascii => negb (Ascii.eqb a close_brace)).
  rewrite (drop_while_lacks open_brace pre _ Hpre).
  cbv beta iota.
  rewrite rev_app_distr. cbn [rev]. rewrite <- app_assoc. cbn [app].
  rewrite (drop_while_lacks close_brace (rev post) (rev mid));
    [|rewrite lacks_rev; exact Hpost].
  cbn [rev]. rewrite rev_involutive. reflexivity.
Qed.

Lemma strip_prefix_fence (x : str) :
  lacks backtick x = true ->
  DigestService.strip_prefix DigestService.fence x = None.
Proof.
  destruct x as [|a x]; [reflexivity|].
  cbn [lacks forallb]. intros H. apply andb_prop in H. destruct H as [Ha _].
  apply negb_true_iff in Ha. unfold backtick in Ha.
  rewrite Ascii.eqb_sym in Ha. unfold DigestService.fence.
  cbn [lit list_ascii_of_string DigestService.strip_prefix].
  rewrite Ha. reflexivity.
Qed.

(** Without a backtick there is no fenced block. *)
Lemma fenced_block_none (x : str) :
  lacks backtick x = true -> DigestService.fenced_block x = None.
Proof.
  induction x as [|a x IH]; intros H.
  - reflexivity.
  - cbn [DigestService.fenced_block]. unfold DigestService.fence_at.
    rewrite (strip_prefix_fence _ H).
    cbn [lacks forallb] in H. apply andb_prop in H. destruct H as [_ Hx].
    exact (IH Hx).
Qed.

(** X22. In the digest service, a response that json.loads rejects as a
    whole and that holds no backtick, but holds a decodable object text
    between a prefix without opening brace and a suffix without closing
    brace, is parsed as that object (the span from the first opening to
    the last closing brace). *)
Theorem parse_embedded_object (json_loads : str -> result json)
  (pre mid post msg : str) (v : json) :
  lacks open_brace pre = true ->
  lacks close_brace post = true ->
  lacks backtick (pre ++ open_brace :: mid ++ close_brace :: post) = true ->
  json_loads (pre ++ open_brace :: mid ++ close_brace :: post)
    = Raise (JSONDecodeError msg) ->
  json_loads (open_brace :: mid ++ [close_brace]) = Return v ->
  DigestService._parse_json_response json_loads
    (pre ++ open_brace :: mid ++ close_brace :: post) = Return v.
Proof.
  intros Hpre Hpost Htick Hwhole Hobject.
  unfold DigestService._parse_json_response, DigestService.try_loads.
  rewrite Hwhole. cbn [DigestService.is_JSONDecodeError].
  rewrite (fenced_block_none _ Htick).
  rewrite (brace_span_found pre mid post Hpre Hpost), Hobject. reflexivity.
Qed.

Lemma parse_embedded_object_witness :
  DigestService._parse_json_response sample_loads
    (sample_prose ++ digest_text ++ lit " I hope it helps.")
  = Return (JObj digest_items).
Proof.
  apply (parse_embedded_object sample_loads sample_prose
           (quoted (lit "summary") ++ lit ": "
            ++ quoted (lit "Harbors were discussed.") ++ lit ", "
            ++ quoted (lit "image_description") ++ lit ": "
            ++ quoted (lit "a foggy harbor"))
           (lit " I hope it helps.") (lit "Expecting value"));
    vm_compute; reflexivity.
Defined.

(** *** A fenced block *)
Lemma drop_while_spaces (ws rest : str) :
  forallb is_space ws = true ->
  drop_while is_space (ws ++ rest) = drop_while is_space rest.
Proof.
  induction ws as [|a ws IH]; intros H; [reflexivity|].
  cbn [forallb] in H. apply andb_prop in H. destruct H as [Ha Hw].
  cbn [app drop_while]. rewrite Ha. exact (IH Hw).
Qed.

Lemma strip_prefix_fence_here (rest : str) :
  DigestService.strip_prefix DigestService.fence
    (DigestService.fence ++ rest) = Some rest.
Proof. destruct rest; reflexivity. Qed.

Lemma not_fence (a : ascii) (x : str) :
  Ascii.eqb a backtick = false ->
  DigestService.strip_prefix DigestService.fence (a :: x) = None.
Proof.
  intros Ha. unfold DigestService.fence.
  cbn [lit list_ascii_of_string DigestService.strip_prefix].
  unfold backtick in Ha. rewrite Ascii.eqb_sym in Ha. rewrite Ha. reflexivity.
Qed.

(** A closing brace is ahead, and no backtick before it: no fence starts
    after the white space here. *)
Lemma no_fence_ahead (m rest : str) :
  lacks backtick m = true ->
  DigestService.strip_prefix DigestService.fence
    (drop_while is_space (m ++ close_brace :: rest)) = None.
Proof.
  induction m as [|a m IH]; intros H.
  - reflexivity.
  - cbn [lacks forallb] in H. apply andb_prop in H. destruct H as [Ha Hm].
    apply negb_true_iff in Ha. cbn [app drop_while].
    destruct (is_space a); [exact (IH Hm) | exact (not_fence a _ Ha)].
Qed.

(** Scanning the inside of the block: no closing brace of [mid] is followed
    by a fence, the one after [mid] is. *)
Lemma close_fence_found (mid ws post : str) :
  lacks backtick mid = true -> forallb is_space ws = true ->
  forall acc,
    DigestService.close_fence acc
      (mid ++ close_brace :: ws ++ DigestService.fence ++ post)
    = Some (rev acc ++ mid ++ [close_brace]).
Proof.
  intros Hmid Hws. induction mid as [|a mid IH]; intros acc.
  - cbn [app DigestService.close_fence]. unfold close_brace at 1.
    cbn [Ascii.eqb Bool.eqb andb].
    rewrite (drop_while_spaces ws _ Hws).
    assert (drop_while is_space (DigestService.fence ++ post)
            = DigestService.fence ++ post) as -> by reflexivity.
    rewrite strip_prefix_fence_here. cbn [rev]. reflexivity.
  - cbn [lacks forallb] in Hmid. apply andb_prop in Hmid.
    destruct Hmid as [Ha Hm].
    cbn [app DigestService.close_fence].
    rewrite (no_fence_ahead mid _ Hm), (IH Hm).
    cbn [rev]. rewrite <- app_assoc.
    destruct (Ascii.eqb a "}"); reflexivity.
Qed.

Lemma fence_body_found (ws mid ws' post : str) :
  forallb is_space ws = true -> lacks backtick mid = true ->
  forallb is_space ws' = true ->
  DigestService.fence_body
    (ws ++ open_brace :: mid ++ close_brace :: ws' ++ DigestService.fence
     ++ post)
  = Some (open_brace :: mid ++ [close_brace]).
Proof.
  intros Hws Hmid Hws'. unfold DigestService.fence_body.
  rewrite (drop_while_spaces ws _ Hws). cbn [drop_while].
  unfold open_brace at 1. cbv beta iota.
  assert (is_space "{" = false) as -> by reflexivity.
  rewrite (close_fence_found mid ws' post Hmid Hws'). reflexivity.
Qed.

Lemma no_tag_here (ws rest : str) :
  forallb is_space ws = true ->
  DigestService.strip_prefix (lit "json") (ws ++ open_brace :: rest) = None.
Proof.
  destruct ws as [|a ws]; [reflexivity|].
  cbn [forallb]. intros H. apply andb_prop in H. destruct H as [Ha _].
  cbn [app lit list_ascii_of_string DigestService.strip_prefix].
  destruct (Ascii.eqb "j" a) eqn:E; [|reflexivity].
  apply Ascii.eqb_eq in E. subst a. discriminate Ha.
Qed.

Lemma fence_at_found (tag ws mid ws' post : str) :
  is_tag tag = true ->
  forallb is_space ws = true -> lacks backtick mid = true ->
  forallb is_space ws' = true ->
  DigestService.fence_at
    (DigestService.fence ++ tag ++ ws ++ open_brace :: mid
     ++ close_brace :: ws' ++ DigestService.fence ++ post)
  = Some (open_brace :: mid ++ [close_brace]).
Proof.
  intros Htag Hws Hmid Hws'. unfold DigestService.fence_at.
  rewrite strip_prefix_fence_here.
  unfold is_tag, str_eqb in Htag.
  destruct (list_eq_dec ascii_dec tag []) as [->|_].
  - cbn [app]. rewrite (no_tag_here ws _ Hws).
    apply fence_body_found; assumption.
  - destruct (list_eq_dec ascii_dec tag (lit "json")) as [->|_];
      [|discriminate Htag].
    assert (DigestService.strip_prefix (lit "json")
              (lit "json" ++ ws ++ open_brace :: mid ++ close_brace :: ws'
               ++ DigestService.fence ++ post)
            = Some (ws ++ open_brace :: mid ++ close_brace :: ws'
                    ++ DigestService.fence ++ post)) as ->
      by apply strip_prefix_app.
    rewrite (fence_body_found ws mid ws' post Hws Hmid Hws'). reflexivity.
Qed.

Lemma fenced_block_skip (pre rest : str) :
  lacks backtick pre = true ->
  DigestService.fenced_block (pre ++ DigestService.fence ++ rest)
  = DigestService.fenced_block (DigestService.fence ++ rest).
Proof.
  induction pre as [|a pre IH]; intros H; [reflexivity|].
  cbn [lacks forallb] in H. apply andb_prop in H. destruct H as [Ha Hp].
  apply negb_true_iff in Ha.
  cbn [app DigestService.fenced_block]. unfold DigestService.fence_at at 1.
  rewrite (not_fence a _ Ha). exact (IH Hp).
Qed.

(** X23. In the digest service, a response that json.loads rejects as a
    whole but that holds, after a prefix without backtick, a fenced
    block (with or without the json tag, white space allowed around the
    object) whose object text has no backtick and is decodable, is
    parsed as that object, whatever follows the block. *)
Theorem parse_fenced_object (json_loads : str -> result json)
  (pre tag ws mid ws' post msg : str) (v : json) :
  lacks backtick pre = true ->
  is_tag tag = true ->
  forallb is_space ws = true ->
  lacks backtick mid = true ->
  forallb is_space ws' = true ->
  json_loads
    (pre ++ DigestService.fence ++ tag ++ ws ++ open_brace :: mid
     ++ close_brace :: ws' ++ DigestService.fence ++ post)
    = Raise (JSONDecodeError msg) ->
  json_loads (open_brace :: mid ++ [close_brace]) = Return v ->
  DigestService._parse_json_response json_loads
    (pre ++ DigestService.fence ++ tag ++ ws ++ open_brace :: mid
     ++ close_brace :: ws' ++ DigestService.fence ++ post)
  = Return v.
Proof.
  intros Hpre Htag Hws Hmid Hws' Hwhole Hobject.
  unfold DigestService._parse_json_response, DigestService.try_loads.
  rewrite Hwhole. cbn [DigestService.is_JSONDecodeError].
  rewrite (fenced_block_skip pre _ Hpre).
  assert (DigestService.fenced_block
            (DigestService.fence ++ tag ++ ws ++ open_brace :: mid
             ++ close_brace :: ws' ++ DigestService.fence ++ post)
          = Some (open_brace :: mid ++ [close_brace])) as ->.
  { unfold DigestService.fence at 1.
    cbn [lit list_ascii_of_string app DigestService.fenced_block].
    change ("`"%char :: "`"%char :: "`"%char :: tag ++ ws ++ open_brace :: mid
            ++ close_brace :: ws' ++ DigestService.fence ++ post)
      with (DigestService.fence ++ tag ++ ws ++ open_brace :: mid
            ++ close_brace :: ws' ++ DigestService.fence ++ post).
    rewrite (fence_at_found tag ws mid ws' post Htag Hws Hmid Hws').
    reflexivity. }
  rewrite Hobject. reflexivity.
Qed.

Lemma parse_fenced_object_witness :
  DigestService._parse_json_response sample_loads
    (lit "Here you go:" ++ newline ++ DigestService.fence ++ lit "json"
     ++ newline ++ digest_text ++ newline ++ DigestService.fence
     ++ lit " {not this}")
  = Return (JObj digest_items).
Proof.
  apply (parse_fenced_object sample_loads (lit "Here you go:" ++ newline)
           (lit "json") newline
           (quoted (lit "summary") ++ lit ": "
            ++ quoted (lit "Harbors were discussed.") ++ lit ", "
            ++ quoted (lit "image_description") ++ lit ": "
            ++ quoted (lit "a foggy harbor"))
           newline (lit " {not this}") (lit "Expecting value"));
    vm_compute; reflexivity.
Defined.

Lemma try_loads_undecodable (json_loads : str -> result json) (x : str)
  (rest : result json) :
  undecodable json_loads (Some x) ->
  DigestService.try_loads json_loads x rest = rest.
Proof.
  intros (msg & H). unfold DigestService.try_loads. rewrite H. reflexivity.
Qed.

Lemma summarizer_parse_default (json_loads : str -> result json)
  (response : str) :
  undecodable json_loads (Some response) ->
  undecodable json_loads (DigestService.fenced_block response) ->
  undecodable json_loads (SummarizerService.nested_object response) ->
  SummarizerService._parse_json_response json_loads response
  = Return (SummarizerService.default_structure response).
Proof.
  intros H1 H2 H3. unfold SummarizerService._parse_json_response.
  rewrite (try_loads_undecodable _ _ _ H1).
  destruct (DigestService.fenced_block response) as [g|];
    [rewrite (try_loads_undecodable _ _ _ H2)|];
    (destruct (SummarizerService.nested_object response) as [g'|];
     [rewrite (try_loads_undecodable _ _ _ H3)|]); reflexivity.
Qed.

(** X24. In the summarizer, when the model's answer cannot be decoded
    (neither as a whole, nor its fenced block, nor its first nested
    object), _analyze_single does not raise: it sends one request and
    returns the overview as the first 500 characters of the answer (or
    'Analysis failed' for an empty answer), the raw summary as the whole
    answer and every list empty. *)
Theorem analyze_single_degrades (json_loads : str -> result json)
  (complete : SummarizerService.Prompt -> result str)
  (transcript response : str) :
  complete (SummarizerService.Whole transcript) = Return response ->
  undecodable json_loads (Some response) ->
  undecodable json_loads (DigestService.fenced_block response) ->
  undecodable json_loads (SummarizerService.nested_object response) ->
  SummarizerService._analyze_single json_loads complete transcript
  = (Return (degraded_fields response),
     [SummarizerService.Whole transcript]).
Proof.
  intros Hc H1 H2 H3.
  unfold SummarizerService._analyze_single, SummarizerService.ask,
    SummarizerService.and_then, SummarizerService.of_result.
  rewrite Hc, (summarizer_parse_default _ _ H1 H2 H3). reflexivity.
Qed.

Lemma analyze_single_degrades_witness :
  SummarizerService._analyze_single refuse_all prose_model
    (lit "Welcome to Sea Talk.")
  = (Return (degraded_fields (lit "I cannot analyse this.")),
     [SummarizerService.Whole (lit "Welcome to Sea Talk.")]).
Proof.
  apply (analyze_single_degrades refuse_all prose_model
           (lit "Welcome to Sea Talk.") (lit "I cannot analyse this.")
           eq_refl).
  - eexists. reflexivity.
  - exact I.
  - exact I.
Defined.

(** *** The requests of a chunked analysis *)
Lemma first_pass_sent (json_loads : str -> result json)
  (complete : SummarizerService.Prompt -> result str) (total : nat)
  (chunks : list str) :
  forall i acc results sent,
    SummarizerService.first_pass json_loads complete total i chunks acc
    = (Return results, sent) ->
    sent = sections total i chunks
    /\ exists parsed,
         results = acc ++ parsed
         /\ Forall2
              (fun p r =>
                 exists text,
                   complete p = Return text
                   /\ SummarizerService._parse_json_response json_loads text
                      = Return r)
              (sections total i chunks) parsed.
Proof.
  induction chunks as [|chunk rest IH]; intros i acc results sent H.
  - cbn in H. inversion H; subst. split; [reflexivity|].
    exists []. rewrite app_nil_r. split; [reflexivity | constructor].
  - cbn [SummarizerService.first_pass sections] in *.
    unfold SummarizerService.ask, SummarizerService.of_result in H.
    unfold SummarizerService.and_then at 1 in H.
    destruct (complete (SummarizerService.Section_ (i + 1) total chunk))
      as [text|e] eqn:Ec; [|discriminate H].
    unfold SummarizerService.and_then at 1 in H.
    destruct (SummarizerService._parse_json_response json_loads text)
      as [parsed|e] eqn:Ep; [|discriminate H].
    destruct (SummarizerService.first_pass json_loads complete total (S i)
                rest (acc ++ [parsed])) as [r sent'] eqn:Er.
    cbn [app] in H. inversion H; subst.
    destruct (IH _ _ _ _ Er) as (Hs & more & Hr & Hall).
    split; [rewrite Hs; reflexivity|].
    exists (parsed :: more). split.
    + rewrite Hr, <- app_assoc. reflexivity.
    + constructor; [|exact Hall]. exists text. split; assumption.
Qed.

(** X25. A chunked analysis that returns has sent exactly one request per
    chunk, in order, numbered 1..n of n, followed by one request that
    combines the results parsed from the answers to those requests. *)
Theorem analyze_chunked_prompts (json_loads : str -> result json)
  (complete : SummarizerService.Prompt -> result str) (chunks : list str)
  (fields : SummarizerService.Fields)
  (sent : list SummarizerService.Prompt) :
  SummarizerService._analyze_chunked json_loads complete chunks
  = (Return fields, sent) ->
  exists results,
    sent = sections (List.length chunks) 0 chunks
           ++ [SummarizerService.Combine results]
    /\ Forall2
         (fun p r =>
            exists text,
              complete p = Return text
              /\ SummarizerService._parse_json_response json_loads text
                 = Return r)
         (sections (List.length chunks) 0 chunks) results.
Proof.
  unfold SummarizerService._analyze_chunked. intros H.
  unfold SummarizerService.and_then at 1 in H.
  destruct (SummarizerService.first_pass json_loads complete
              (List.length chunks) 0 chunks []) as [[results|e] sent1] eqn:E1;
    [|discriminate H].
  destruct (first_pass_sent _ _ _ _ _ _ _ _ E1) as (Hs & parsed & Hr & Hall).
  cbn [app] in Hr. subst parsed.
  unfold SummarizerService.ask, SummarizerService.of_result in H.
  unfold SummarizerService.and_then at 1 in H.
  destruct (complete (SummarizerService.Combine results)) as [text|e];
    [|discriminate H].
  unfold SummarizerService.and_then at 1 in H.
  destruct (SummarizerService._parse_json_response json_loads text)
    as [parsed|e]; [|discriminate H].
  destruct (SummarizerService.fields_of parsed) as [f|e]; [|discriminate H].
  cbn [app] in H. inversion H; subst.
  exists results. split; [|exact Hall].
  reflexivity.
Qed.

Lemma analyze_chunked_prompts_witness :
  exists results,
    snd (SummarizerService._analyze_chunked refuse_all prose_model
           [lit "first part"; lit "second part"])
    = [SummarizerService.Section_ 1 2 (lit "first part");
       SummarizerService.Section_ 2 2 (lit "second part");
       SummarizerService.Combine results].
Proof.
  destruct (analyze_chunked_prompts refuse_all prose_model
              [lit "first part"; lit "second part"]
              (degraded_fields (lit "I cannot analyse this."))
              (snd (SummarizerService._analyze_chunked refuse_all prose_model
                      [lit "first part"; lit "second part"])))
    as (results & Hs & _).
  - vm_compute. reflexivity.
  - exists results. exact Hs.
Defined.

(** *** A transcript that is long only by its white space *)
Lemma counted_nonneg (words : list str) : 0 <= counted words.
Proof.
  induction words as [|w ws IH]; cbn [counted fold_right]; [lia|].
  fold (counted ws). pose proof (len_nonneg w). lia.
Qed.

Lemma chunk_loop_fits (cs : Z) (words : list str) :
  forall chunks cur cl,
    cl + counted words <= cs ->
    Summarizer.chunk_loop cs words chunks cur cl = (chunks, cur ++ words).
Proof.
  induction words as [|w ws IH]; intros chunks cur cl H.
  - cbn. rewrite app_nil_r. reflexivity.
  - cbn [counted fold_right] in H. fold (counted ws) in H.
    pose proof (counted_nonneg ws). cbn [Summarizer.chunk_loop].
    destruct (Z.gtb_spec (cl + (len w + 1)) cs); [lia|].
    rewrite IH by lia. rewrite <- app_assoc. reflexivity.
Qed.

Lemma analyze_single_sent (json_loads : str -> result json)
  (complete : SummarizerService.Prompt -> result str) (transcript : str) :
  snd (SummarizerService._analyze_single json_loads complete transcript)
  = [SummarizerService.Whole transcript].
Proof.
  unfold SummarizerService._analyze_single, SummarizerService.ask,
    SummarizerService.and_then, SummarizerService.of_result.
  destruct (complete _) as [text|e]; [|reflexivity].
  destruct (SummarizerService._parse_json_response json_loads text)
    as [parsed|e]; [|reflexivity].
  destruct (SummarizerService.fields_of parsed); reflexivity.
Qed.

(** X26. A transcript longer than CHUNK_SIZE whose words, each counted with
    one space, fit within CHUNK_SIZE is cut into a single chunk (its
    words joined by single spaces); analyze then makes a single request,
    and that request carries the transcript as given, not the chunk. *)
Theorem analyze_padded_transcript (json_loads : str -> result json)
  (complete : SummarizerService.Prompt -> result str) (transcript : str) :
  Summarizer.CHUNK_SIZE < len transcript ->
  split_ws transcript <> [] ->
  counted (split_ws transcript) <= Summarizer.CHUNK_SIZE ->
  Summarizer._chunk_transcript transcript
  = [join (lit " ") (split_ws transcript)]
  /\ SummarizerService.analyze json_loads complete transcript
     = SummarizerService._analyze_single json_loads complete transcript
  /\ snd (SummarizerService.analyze json_loads complete transcript)
     = [SummarizerService.Whole transcript].
Proof.
  intros Hlong Hwords Hfit.
  assert (Summarizer._chunk_transcript transcript
          = [join (lit " ") (split_ws transcript)]) as Hchunks.
  { unfold Summarizer._chunk_transcript, Summarizer.chunk_transcript_with.
    destruct (Z.leb_spec (len transcript) Summarizer.CHUNK_SIZE); [lia|].
    rewrite chunk_loop_fits by (rewrite Z.add_0_l; exact Hfit).
    cbn [app]. destruct (split_ws transcript); [contradiction | reflexivity]. }
  split; [exact Hchunks|].
  assert (SummarizerService.analyze json_loads complete transcript
          = SummarizerService._analyze_single json_loads complete transcript)
    as Hsingle.
  { unfold SummarizerService.analyze. rewrite Hchunks. reflexivity. }
  split; [exact Hsingle|].
  rewrite Hsingle. apply analyze_single_sent.
Qed.

Lemma analyze_padded_transcript_witness :
  snd (SummarizerService.analyze refuse_all prose_model padded_transcript)
  = [SummarizerService.Whole padded_transcript].
Proof.
  assert (Summarizer.CHUNK_SIZE < len padded_transcript) as H1.
  { apply Z.ltb_lt. vm_compute. reflexivity. }
  assert (split_ws padded_transcript = [lit "harbor"]) as Hw.
  { vm_compute. reflexivity. }
  assert (split_ws padded_transcript <> []) as H2.
  { rewrite Hw. discriminate. }
  assert (counted (split_ws padded_transcript) <= Summarizer.CHUNK_SIZE) as H3.
  { rewrite Hw. apply Z.leb_le. vm_compute. reflexivity. }
  exact (proj2 (proj2 (analyze_padded_transcript refuse_all prose_model
                         padded_transcript H1 H2 H3))).
Defined.

Lemma nested_scan_found (mid post : str) :
  forall inner acc,
    shallow inner mid = true ->
    SummarizerService.nested_scan inner acc (mid ++ close_brace :: post)
    = Some (rev acc ++ mid ++ [close_brace]).
Proof.
  induction mid as [|c mid IH]; intros inner acc H.
  - destruct inner; [discriminate H|]. cbn. reflexivity.
  - cbn [shallow] in H. cbn [app SummarizerService.nested_scan].
    destruct (Ascii.eqb c "{").
    + apply andb_prop in H. destruct H as [Hi Hr].
      destruct inner; [discriminate Hi|].
      rewrite (IH true (c :: acc) Hr). cbn [rev].
      rewrite <- app_assoc. reflexivity.
    + destruct (Ascii.eqb c "}").
      * apply andb_prop in H. destruct H as [Hi Hr].
        destruct inner; [|discriminate Hi].
        rewrite (IH false (c :: acc) Hr). cbn [rev].
        rewrite <- app_assoc. reflexivity.
      * rewrite (IH inner (c :: acc) H). cbn [rev].
        rewrite <- app_assoc. reflexivity.
Qed.

Lemma nested_at_none (a : ascii) (x : str) :
  Ascii.eqb a open_brace = false ->
  SummarizerService.nested_at (a :: x) = None.
Proof.
  intros H. unfold SummarizerService.nested_at.
  destruct a as [[] [] [] [] [] [] [] []]; try reflexivity.
  discriminate H.
Qed.

Lemma nested_object_found (pre mid post : str) :
  lacks open_brace pre = true -> shallow false mid = true ->
  SummarizerService.nested_object
    (pre ++ open_brace :: mid ++ close_brace :: post)
  = Some (open_brace :: mid ++ [close_brace]).
Proof.
  intros Hpre Hmid. induction pre as [|a pre IH].
  - cbn [app]. unfold open_brace at 1.
    cbn [SummarizerService.nested_object SummarizerService.nested_at].
    rewrite (nested_scan_found mid post false _ Hmid). reflexivity.
  - cbn [lacks forallb] in Hpre. apply andb_prop in Hpre.
    destruct Hpre as [Ha Hp]. apply negb_true_iff in Ha.
    cbn [app SummarizerService.nested_object].
    rewrite (nested_at_none a _ Ha). exact (IH Hp).
Qed.

(** X27. In the summarizer, a response that json.loads rejects as a whole
    and that holds no backtick, but holds after a prefix without opening
    brace a decodable object text whose braces nest at most one level
    deep, is parsed as that object, whatever follows it (further braces
    included). *)
Theorem summarizer_parse_embedded (json_loads : str -> result json)
  (pre mid post msg : str) (v : json) :
  lacks open_brace pre = true ->
  shallow false mid = true ->
  lacks backtick (pre ++ open_brace :: mid ++ close_brace :: post) = true ->
  json_loads (pre ++ open_brace :: mid ++ close_brace :: post)
    = Raise (JSONDecodeError msg) ->
  json_loads (open_brace :: mid ++ [close_brace]) = Return v ->
  SummarizerService._parse_json_response json_loads
    (pre ++ open_brace :: mid ++ close_brace :: post) = Return v.
Proof.
  intros Hpre Hmid Htick Hwhole Hobject.
  unfold SummarizerService._parse_json_response, DigestService.try_loads.
  rewrite Hwhole. cbn [DigestService.is_JSONDecodeError].
  rewrite (fenced_block_none _ Htick).
  rewrite (nested_object_found pre mid post Hpre Hmid), Hobject. reflexivity.
Qed.

Lemma summarizer_parse_embedded_witness :
  SummarizerService._parse_json_response nested_loads
    (lit "Analysis: {" ++ nested_text ++ lit "} and {more}")
  = Return (JObj [(lit "summary", JStr (lit "Harbors."));
                  (lit "meta", JObj [(lit "n", JNum 1)])]).
Proof.
  apply (summarizer_parse_embedded nested_loads (lit "Analysis: ")
           nested_text (lit " and {more}") (lit "Expecting value"));
    vm_compute; reflexivity.
Defined.

Lemma enclosure_loop_first (before after : list FeedParser.Attrs)
  (e : FeedParser.Attrs) :
  forallb (fun d => negb (is_audio d)) before = true ->
  is_audio e = true ->
  FeedParser.enclosure_loop (before ++ e :: after)
  = Some (FeedParser.or_else (FeedParser.lookup (lit "href") e)
            (FeedParser.lookup (lit "url") e)).
Proof.
  intros Hb He. induction before as [|d before IH].
  - cbn [app FeedParser.enclosure_loop]. fold (is_audio e). rewrite He.
    reflexivity.
  - cbn [forallb] in Hb. apply andb_prop in Hb. destruct Hb as [Hd Hb].
    apply negb_true_iff in Hd.
    cbn [app FeedParser.enclosure_loop]. fold (is_audio d). rewrite Hd.
    exact (IH Hb).
Qed.

(** X28. The first enclosure whose type starts with 'audio/' decides the
    result alone: it is its href if non-empty, otherwise its url; when
    it has neither the result is None, and the links of the entry are
    not looked at. *)
Theorem extract_audio_url_first_enclosure (entry : FeedParser.Entry)
  (before after : list FeedParser.Attrs) (e : FeedParser.Attrs) :
  FeedParser.enclosures entry = Some (before ++ e :: after) ->
  forallb (fun d => negb (is_audio d)) before = true ->
  is_audio e = true ->
  FeedParser.extract_audio_url entry
  = FeedParser.or_else (FeedParser.lookup (lit "href") e)
      (FeedParser.lookup (lit "url") e).
Proof.
  intros Henc Hb He. unfold FeedParser.extract_audio_url.
  rewrite Henc, (enclosure_loop_first before after e Hb He). reflexivity.
Qed.

Lemma extract_audio_url_first_enclosure_witness :
  FeedParser.extract_audio_url bare_enclosure_entry = None.
Proof.
  exact (extract_audio_url_first_enclosure bare_enclosure_entry []
           [] [(lit "type", lit "audio/mpeg")] eq_refl eq_refl eq_refl).
Defined.

Lemma or_else_cases (a b : option str) (u : str) :
  FeedParser.or_else a b = Some u -> a = Some u \/ b = Some u.
Proof.
  unfold FeedParser.or_else. destruct a as [[|c x]|]; auto.
Qed.

Lemma enclosure_loop_sound (l : list FeedParser.Attrs) (u : str) :
  FeedParser.enclosure_loop l = Some (Some u) ->
  exists e, In e l /\ is_audio e = true
    /\ (FeedParser.lookup (lit "href") e = Some u
        \/ FeedParser.lookup (lit "url") e = Some u).
Proof.
  induction l as [|d l IH]; [discriminate|].
  cbn [FeedParser.enclosure_loop]. fold (is_audio d).
  destruct (is_audio d) eqn:Ed.
  - intros H. injection H as H'. apply or_else_cases in H'.
    exists d. split; [left; reflexivity|]. split; [exact Ed | exact H'].
  - intros H. destruct (IH H) as (e & Hin & He).
    exists e. split; [right; exact Hin | exact He].
Qed.

Lemma get_or_found (d : FeedParser.Attrs) (key u : str) :
  FeedParser.get_or d key [] = u -> u <> [] ->
  FeedParser.lookup key d = Some u.
Proof.
  unfold FeedParser.get_or. destruct (FeedParser.lookup key d) as [v|].
  - intros -> _. reflexivity.
  - intros <- H. contradiction.
Qed.

Lemma link_loop_sound (l : list FeedParser.Attrs) (u : str) :
  FeedParser.link_loop l = Some (Some u) ->
  exists k, In k l /\ FeedParser.lookup (lit "href") k = Some u
    /\ (is_audio k = true \/ has_audio_extension u = true).
Proof.
  induction l as [|d l IH]; [discriminate|].
  cbn [FeedParser.link_loop]. fold (is_audio d).
  destruct (is_audio d) eqn:Ed.
  - intros H. injection H as H'.
    exists d. split; [left; reflexivity|]. split; [exact H' | left; exact Ed].
  - fold (has_audio_extension (FeedParser.get_or d (lit "href") [])).
    destruct (has_audio_extension (FeedParser.get_or d (lit "href") []))
      eqn:Ex.
    + intros H.
      assert (FeedParser.get_or d (lit "href") [] = u) as Hu by congruence.
      rewrite Hu in Ex.
      exists d. split; [left; reflexivity|].
      split; [|right; exact Ex].
      apply get_or_found; [exact Hu|].
      intros ->. discriminate Ex.
    + intros H. destruct (IH H) as (k & Hin & Hk).
      exists k. split; [right; exact Hin | exact Hk].
Qed.

(** X29. Every address extract_audio_url returns comes from the entry: it is
    the href or the url of an enclosure with an audio type, or the href
    of a link that has an audio type or whose address ends, case-
    insensitively, with .mp3, .m4a, .wav or .ogg. *)
Theorem extract_audio_url_sound (entry : FeedParser.Entry) (u : str) :
  FeedParser.extract_audio_url entry = Some u ->
  (exists l e,
      FeedParser.enclosures entry = Some l /\ In e l /\ is_audio e = true
      /\ (FeedParser.lookup (lit "href") e = Some u
          \/ FeedParser.lookup (lit "url") e = Some u))
  \/ (exists l k,
         FeedParser.links entry = Some l /\ In k l
         /\ FeedParser.lookup (lit "href") k = Some u
         /\ (is_audio k = true \/ has_audio_extension u = true)).
Proof.
  unfold FeedParser.extract_audio_url.
  destruct (FeedParser.enclosures entry) as [encs|].
  - destruct (FeedParser.enclosure_loop encs) as [r|] eqn:Ee.
    + intros ->. left. destruct (enclosure_loop_sound _ _ Ee) as (e & He).
      exists encs, e. split; [reflexivity | exact He].
    + destruct (FeedParser.links entry) as [ls|]; [|discriminate].
      destruct (FeedParser.link_loop ls) as [r|] eqn:El; [|discriminate].
      intros ->. right. destruct (link_loop_sound _ _ El) as (k & Hk).
      exists ls, k. split; [reflexivity | exact Hk].
  - destruct (FeedParser.links entry) as [ls|]; [|discriminate].
    destruct (FeedParser.link_loop ls) as [r|] eqn:El; [|discriminate].
    intros ->. right. destruct (link_loop_sound _ _ El) as (k & Hk).
    exists ls, k. split; [reflexivity | exact Hk].
Qed.

Lemma extract_audio_url_sound_witness :
  exists l k,
    FeedParser.links shouting_entry = Some l /\ In k l
    /\ FeedParser.lookup (lit "href") k
       = Some (lit "HTTPS://EXAMPLE.ORG/HARBORS.MP3").
Proof.
  destruct (extract_audio_url_sound shouting_entry
              (lit "HTTPS://EXAMPLE.ORG/HARBORS.MP3") eq_refl)
    as [(l & e & Hl & Hin & Ha & Hu) | (l & k & Hl & Hin & Hu & _)].
  - exfalso. cbn in Hl. inversion Hl; subst.
    destruct Hin as [<-|[]]. discriminate Ha.
  - exists l, k. repeat split; assumption.
Defined.
